(** * A shallow embedding of the Docker registry client

    The development follows [DockerRegistryImpl.go] (the registry client:
    existence probes, manifest retrieval and parsing, image deletion, layer
    and manifest upload), [DockerServices.go] (the repository name
    validator, the parsers of Dockerfiles and of build logs, the removal of
    an image), [DockerEngineImpl.go] (the queries of the engine client),
    [DockerBuildStep.go] and [DockerBuildOutput.go].

    Go values are modelled as follows.
    - [string] is [string]; a byte slice is a [string] as well.
    - [int] and [int64] are [Z]; no arithmetic of the modelled code can
      overflow (only [fileSize - 1] is computed).
    - [interface{}] values produced by [encoding/json] are the type [json];
      [map[string]T] is [gmap string T].
    - A Go [error] is a value of type [error]; a pair [(T, error)] whose first
      component is meaningless when the error is set is a sum
      [error + T], and a pair whose two components are both returned is a
      product with an [option error].
    - A run-time panic is the outcome [Panicked] of the monad [M].
    - The registry, the file system and the supply of temporary names are the
      state [World] threaded by [M]. *)

From Stdlib Require Import ZArith Ascii String List Bool Lia.
From stdpp Require Import gmap strings list fin_maps pretty.

Set Warnings "-register-all".
Local Open Scope string_scope.
Local Open Scope Z_scope.

(** ** Strings *)

Module Str.

(** The double quote and the line feed, which Go writes as an escaped
    quote and as a backslash followed by n. *)
Definition dq : string := String (ascii_of_nat 34) EmptyString.
Definition nl : string := String (ascii_of_nat 10) EmptyString.

Definition chars (s : string) : list ascii := list_ascii_of_string s.

(** [strings.HasSuffix] and [strings.HasPrefix]. *)
Fixpoint HasPrefix (s p : string) : bool :=
  match p, s with
  | EmptyString, _ => true
  | String _ _, EmptyString => false
  | String b p', String a s' => if Ascii.eqb a b then HasPrefix s' p' else false
  end.

Fixpoint rev_onto (s acc : string) : string :=
  match s with
  | EmptyString => acc
  | String a s' => rev_onto s' (String a acc)
  end.

Definition rev (s : string) : string := rev_onto s EmptyString.

Definition HasSuffix (s p : string) : bool := HasPrefix (rev s) (rev p).

(** [strings.Split s "/"] for a one-character separator. *)
Fixpoint split_on (sep : ascii) (s : string) : list string :=
  match s with
  | EmptyString => [EmptyString]
  | String a s' =>
      if Ascii.eqb a sep then EmptyString :: split_on sep s'
      else match split_on sep s' with
           | [] => [String a EmptyString]
           | w :: ws => String a w :: ws
           end
  end.

Definition contains_char (c : ascii) (s : string) : bool :=
  existsb (Ascii.eqb c) (chars s).

(** The first [n] characters removed. *)
Fixpoint drop (n : nat) (s : string) : string :=
  match n, s with
  | O, _ => s
  | S _, EmptyString => EmptyString
  | S n', String _ s' => drop n' s'
  end.

(** [fmt.Sprintf] with the verb for decimal integers. *)
Definition of_Z (n : Z) : string := pretty n.

(** [hex.EncodeToString]: two lower-case digits per byte. *)
Definition hex_digit (n : N) : ascii :=
  if (n <? 10)%N then ascii_of_N (48 + n) else ascii_of_N (87 + n).

Fixpoint hex_EncodeToString (bytes : string) : string :=
  match bytes with
  | EmptyString => EmptyString
  | String b rest =>
      let n := N_of_ascii b in
      String (hex_digit (n / 16)) (String (hex_digit (n mod 16)) (hex_EncodeToString rest))
  end.

End Str.

Import Str.

(** ** JSON values as [encoding/json] decodes them into [interface{}] *)

(** A JSON number is decoded to a [float64]; the modelled code never looks at
    the numeric value, only at the dynamic type, so the payload is an
    integer. [JNull] is the nil interface value. *)
Inductive json : Type :=
| JNull
| JBool (b : bool)
| JNum (n : Z)
| JStr (s : string)
| JArr (l : list json)
| JObj (m : gmap string json).

(** [reflect.TypeOf(v).String()]; on the nil interface [reflect.TypeOf]
    returns nil and the call of [String] panics, which is [None] here. *)
Definition reflect_TypeOf_String (v : json) : option string :=
  match v with
  | JNull => None
  | JBool _ => Some "bool"
  | JNum _ => Some "float64"
  | JStr _ => Some "string"
  | JArr _ => Some "[]interface {}"
  | JObj _ => Some "map[string]interface {}"
  end.

(** Indexing a Go map: a missing key gives the zero value, which for
    [interface{}] is nil, the same as a key bound to JSON [null]. *)
Definition map_index (m : gmap string json) (k : string) : json :=
  match m !! k with
  | Some v => v
  | None => JNull
  end.

(** ** Errors *)

Inductive error : Type :=
| ServerError (msg : string)              (* utils.ConstructServerError *)
| StatusError (code : Z) (msg : string)   (* utils.GenerateError *)
| TransportError (msg : string)           (* the REST context or the HTTP client *)
| IOError (msg : string).                 (* os, io, archive/tar, encoding/json, net/http *)

Definition ConstructServerError (msg : string) : error := ServerError msg.

(** ** HTTP messages *)

(** An [io.ReadCloser]: the bytes still to be read and whether [Close] was
    called. A read from a closed response body fails in [net/http]. *)
Record ReadCloser : Type := { stream_data : string; stream_closed : bool }.

Definition Close (b : ReadCloser) : ReadCloser :=
  {| stream_data := stream_data b; stream_closed := true |}.

(** [http.Response], with the fields the client reads. *)
Record Response : Type := {
  StatusCode : Z;
  Status : string;
  Header : gmap string (list string);
  Body : ReadCloser
}.

Definition close_body (r : Response) : Response :=
  {| StatusCode := StatusCode r; Status := Status r; Header := Header r;
     Body := Close (Body r) |}.

(** [http.Request] as built by [http.NewRequest] and [Header.Set]. *)
Record HttpRequest : Type := {
  req_method : string;
  req_url : string;
  req_header : gmap string string;
  req_body : string
}.

(** What goes out on the wire: either a call of one of the [SendBasic...]
    methods of the REST context (which builds the address and authenticates
    by itself), or a request handed to the bare HTTP client. *)
Inductive Request : Type :=
| Basic (method : string) (uri : string) (names values : list string)
| Direct (r : HttpRequest).

Definition method_of (r : Request) : string :=
  match r with
  | Basic m _ _ _ => m
  | Direct q => req_method q
  end.

(** ** What the Go libraries and the utilities package provide *)

(** [archive/tar]: the entries [Next] yields in turn, then either [io.EOF]
    ([None]) or a reading failure. *)
Record TarEntry : Type := { entry_name : string; entry_data : string }.
Record TarStream : Type := { tar_entries : list TarEntry; tar_failure : option error }.

Record Platform : Type := {
  (** [utils.GenerateError] returns nil exactly on these status codes *)
  status_is_success : Z -> bool;
  (** [sha256.New()] fed with the whole content *)
  sha256_Sum : string -> string;
  (** [base64.StdEncoding.EncodeToString] *)
  base64_EncodeToString : string -> string;
  (** [json.Unmarshal] into an [interface{}] *)
  json_Unmarshal : string -> error + json;
  (** [tar.NewReader] over the bytes of a file *)
  tar_NewReader : string -> TarStream;
  (** [http.NewRequest] fails on an address that does not parse *)
  url_parses : string -> bool
}.

(** ** The world and the monad of operations *)

Inductive Node : Type :=
| Dir
| File (content : string).

Record World : Type := {
  fs : gmap string Node;                 (* the file system, by path *)
  tmp_next : nat;                        (* supply of temporary names *)
  sent : list Request;                   (* requests issued so far, oldest first *)
  replies : list (error + Response)      (* what the transport will answer, in order *)
}.

Definition set_fs (f : gmap string Node) (w : World) : World :=
  {| fs := f; tmp_next := tmp_next w; sent := sent w; replies := replies w |}.

Inductive Res (A : Type) : Type :=
| Done (a : A)
| Panicked (msg : string).
Arguments Done {A} a.
Arguments Panicked {A} msg.

Definition M (A : Type) : Type := World -> Res A * World.

Definition ret {A} (a : A) : M A := fun w => (Done a, w).

Definition bind {A B} (m : M A) (k : A -> M B) : M B :=
  fun w =>
    match m w with
    | (Done a, w') => k a w'
    | (Panicked msg, w') => (Panicked msg, w')
    end.

Definition panic {A} (msg : string) : M A := fun w => (Panicked msg, w).

(** [let! x := c in k] sequences two operations; [try! x := c else e => h in k]
    is the Go idiom of a call followed by an early return [h] when the
    returned [error] [e] is not nil. *)
Notation "'let!' x ':=' c 'in' k" := (bind c (fun x => k))
  (at level 10, x name, c at level 100, k at level 200).
Notation "'try!' x ':=' c 'else' e '=>' h 'in' k" :=
  (bind c (fun r => match r with inl e => h | inr x => k end))
  (at level 10, x name, e name, c at level 100, h at level 100, k at level 200).

(** The same idiom for a call that does not touch the world, and for a
    call that returns only an [error]. *)
Notation "'check!' x ':=' c 'else' e '=>' h 'in' k" :=
  (match c with inl e => h | inr x => k end)
  (at level 10, x name, e name, c at level 100, h at level 100, k at level 200).
Notation "'guard!' c 'else' e '=>' h 'in' k" :=
  (match c with Some e => h | None => k end)
  (at level 10, e name, c at level 100, h at level 100, k at level 200).

(** The requests issued by a run of [m] from [w], and its result. *)
Definition result_of {A} (m : M A) (w : World) : Res A := fst (m w).
Definition world_after {A} (m : M A) (w : World) : World := snd (m w).
Definition issued {A} (m : M A) (w : World) : list Request :=
  List.skipn (length (sent w)) (sent (world_after m w)).

(** *** The transport *)

(** One exchange: the request is recorded and the next scripted answer is
    returned; a transport with nothing to answer reports an error. *)
Definition exchange (r : Request) : M (error + Response) :=
  fun w =>
    match replies w with
    | [] =>
        (Done (inl (TransportError "no response")),
         {| fs := fs w; tmp_next := tmp_next w; sent := sent w ++ [r]; replies := [] |})
    | x :: rest =>
        (Done x,
         {| fs := fs w; tmp_next := tmp_next w; sent := sent w ++ [r]; replies := rest |})
    end.

(** The methods of [rest.RestContext] the client calls. *)
Record RestContext : Type := {
  GetScheme : string;
  GetHostname : string;
  GetPort : Z;
  GetUserId : string;
  GetPassword : string
}.

Definition SendBasicGet (uri : string) : M (error + Response) :=
  exchange (Basic "GET" uri [] []).
Definition SendBasicHead (uri : string) : M (error + Response) :=
  exchange (Basic "HEAD" uri [] []).
Definition SendBasicDelete (uri : string) : M (error + Response) :=
  exchange (Basic "DELETE" uri [] []).
Definition SendBasicFormPost (uri : string) (names values : list string) : M (error + Response) :=
  exchange (Basic "POST" uri names values).
Definition HttpClient_Do (r : HttpRequest) : M (error + Response) :=
  exchange (Direct r).

(** *** The file system *)

(** [os.Open] followed by a read of the whole file ([ioutil.ReadAll],
    [io.Copy], [utils.ComputeFileDigest]). *)
Definition read_file (path : string) : M (error + string) :=
  fun w =>
    match fs w !! path with
    | Some (File c) => (Done (inr c), w)
    | Some Dir => (Done (inl (IOError ("read " ++ path ++ ": is a directory"))), w)
    | None => (Done (inl (IOError ("open " ++ path ++ ": no such file or directory"))), w)
    end.

(** * The registry client ([DockerRegistryImpl.go]) *)

Section Registry.

Variable P : Platform.
Variable registry : RestContext.

(** [utils.GenerateError(code, msg)]: nil on a success status, otherwise an
    error made of the status code and the message. *)
Definition GenerateError (code : Z) (msg : string) : option error :=
  if status_is_success P code then None else Some (StatusError code msg).

(** [rest.ParseResponseBodyToMap]: reads the body to its end and decodes
    it into a [map[string]interface{}]. JSON [null] leaves the map nil,
    any other value that is not an object is a decoding error. *)
Definition ParseResponseBodyToMap (body : ReadCloser) : error + gmap string json :=
  if stream_closed body then inl (IOError "http: read on closed response body")
  else match json_Unmarshal P (stream_data body) with
       | inl e => inl e
       | inr (JObj m) => inr m
       | inr JNull => inr ∅
       | inr _ => inl (IOError "json: cannot unmarshal into Go value of type map[string]interface {}")
       end.

(** ** The existence probes *)

Definition ImageExists (repoName tag : string) : M (bool * option error) :=
  let uri := "v2/" ++ repoName ++ "/manifests/" ++ tag in
  try! response := SendBasicHead uri else err => ret (false, Some err) in
  if StatusCode response =? 404 then ret (false, None) else
  match GenerateError (StatusCode response)
          (Status response ++ "; while checking if image exists") with
  | Some err => ret (false, Some err)
  | None => ret (true, None)
  end.

Definition LayerExistsInRepo (repoName digest : string) : M (bool * option error) :=
  let uri := "v2/" ++ repoName ++ "/blobs/" ++ digest in
  try! response := SendBasicHead uri else err => ret (false, Some err) in
  if StatusCode response =? 404 then ret (false, None) else
  match GenerateError (StatusCode response)
          (Status response ++ "; while checking if layer exists") with
  | Some err => ret (false, Some err)
  | None => ret (true, None)
  end.

(** ** Manifest parsing *)

(** The loop of [parseManifest] over the elements of [fsLayers], with the
    slice built so far. The message of the error for an element that is
    not an object calls [reflect.TypeOf(obj).String()], which panics on a
    nil element. *)
Fixpoint parseManifest_layers (layerArObj : list json) (layerAr : list (gmap string json))
  : Res (error + list (gmap string json)) :=
  match layerArObj with
  | [] => Done (inr layerAr)
  | obj :: rest =>
      match obj with
      | JObj m => parseManifest_layers rest (layerAr ++ [m])
      | _ =>
          match reflect_TypeOf_String obj with
          | Some t => Done (inl (ConstructServerError ("Type of layer object is " ++ t)))
          | None => Panicked "invalid memory address or nil pointer dereference"
          end
      end
  end.

Definition parseManifest (body : ReadCloser) : Res (error + list (gmap string json)) :=
  match ParseResponseBodyToMap body with
  | inl err => Done (inl err)
  | inr responseMap =>
      let layersObj := map_index responseMap "fsLayers" in
      match layersObj with
      | JNull => Done (inl (ConstructServerError "Did not find fsLayers field in body"))
      | JArr layerArObj => parseManifest_layers layerArObj []
      | _ =>
          match reflect_TypeOf_String layersObj with
          | Some t => Done (inl (ConstructServerError ("Type of layer description is " ++ t)))
          | None => Panicked "invalid memory address or nil pointer dereference"
          end
      end
  end.

Definition lift {A} (r : Res A) : M A := fun w => (r, w).

(** ** GetImageInfo *)

(** Indexing a slice at 0: a nil or empty slice panics. *)
Definition index0 (l : option (list string)) : M string :=
  match l with
  | Some (x :: _) => ret x
  | _ => panic "index out of range [0] with length 0"
  end.

Definition GetImageInfo (repoName tag : string)
  : M (string * list (gmap string json) * option error) :=
  let uri := "v2/" ++ repoName ++ "/manifests/" ++ tag in
  try! resp := SendBasicGet uri else err => ret (EmptyString, [], Some err) in
  match GenerateError (StatusCode resp) (Status resp ++ "; while getting image info") with
  | Some err => ret (EmptyString, [], Some err)
  | None =>
      try! layerAr := lift (parseManifest (Body resp))
        else err => ret (EmptyString, [], Some err) in
      let headers := Header resp in
      let! digest := index0 (headers !! "Docker-Content-Digest") in
      ret (digest, layerAr, None)
  end.

(** ** DeleteImage *)

(** The loop over the layer descriptions. *)
Fixpoint DeleteImage_layers (repoName : string) (layerAr : list (gmap string json))
  : M (option error) :=
  match layerAr with
  | [] => ret None
  | layerDesc :: rest =>
      let layerDigest := map_index layerDesc "blobSum" in
      match layerDigest with
      | JNull =>
          ret (Some (ConstructServerError "Did not find blobSum field in response for layer"))
      | JStr digest =>
          let uri := "v2/" ++ repoName ++ "/blobs/" ++ digest in
          try! response := SendBasicDelete uri else err => ret (Some err) in
          guard! GenerateError (StatusCode response) (Status response ++ "; while deleting layer")
            else err => ret (Some err) in
          DeleteImage_layers repoName rest
      | _ =>
          match reflect_TypeOf_String layerDigest with
          | Some t =>
              ret (Some (ConstructServerError ("blogSum field is not a string - it is a " ++ t)))
          | None => panic "invalid memory address or nil pointer dereference"
          end
      end
  end.

Definition DeleteImage (repoName tag : string) : M (option error) :=
  (* Retrieve manifest. *)
  let uri := "v2/" ++ repoName ++ "/manifests/" ++ tag in
  try! resp := SendBasicGet uri else err => ret (Some err) in
  let resp := close_body resp in                       (* resp.Body.Close() *)
  guard! GenerateError (StatusCode resp) (Status resp ++ "; while deleting image")
    else err => ret (Some err) in
  (* Parse description of each layer. *)
  try! layerAr := lift (parseManifest (Body resp)) else err => ret (Some err) in
  (* Delete each layer. *)
  let! failed := DeleteImage_layers repoName layerAr in
  guard! failed else err => ret (Some err) in
  (* Delete manifest. *)
  let uri := "v2/" ++ repoName ++ "/manifests/" ++ tag in
  try! resp := SendBasicDelete uri else err => ret (Some err) in
  ret None.

(** ** PushLayer *)

(** [utils.ComputeFileDigest(sha256.New(), path)]. *)
Definition ComputeFileDigest (path : string) : M (error + string) :=
  try! content := read_file path else err => ret (inl err) in
  ret (inr (sha256_Sum P content)).

(** [http.NewRequest(method, url, body)]; the methods used are valid, so
    the only failure is an address that does not parse. *)
Definition NewRequest (method url body : string) : error + HttpRequest :=
  if url_parses P url
  then inr {| req_method := method; req_url := url; req_header := ∅; req_body := body |}
  else inl (IOError ("parse " ++ url ++ ": invalid URL")).

(** The loop [for name, value := range headers { request.Header.Set(name, value) }]. *)
Definition set_headers (headers : gmap string string) (r : HttpRequest) : HttpRequest :=
  {| req_method := req_method r; req_url := req_url r;
     req_header := headers ∪ req_header r; req_body := req_body r |}.

Definition basic_auth : string :=
  "Basic " ++ base64_EncodeToString P (GetUserId registry ++ ":" ++ GetPassword registry).

Definition layer_headers (fileSize : Z) (authHeaderValue : string) : gmap string string :=
  {[ "Content-Length" := of_Z fileSize;
     "Content-Range" := "0-" ++ of_Z (fileSize - 1);
     "Content-Type" := "application/octet-stream";
     "Authorization" := authHeaderValue ]}.

Definition PushLayer (layerFilePath repoName : string) : M (string * option error) :=
  (* Compute layer signature. *)
  try! digest := ComputeFileDigest layerFilePath else err => ret (EmptyString, Some err) in
  let digestString := hex_EncodeToString digest in
  (* Check if layer already exists in repo. *)
  let! probe := LayerExistsInRepo repoName digestString in
  guard! snd probe else err => ret (digestString, Some err) in
  if fst probe then ret (digestString, None) else
  (* Get Location header. *)
  let uri := "v2/" ++ repoName ++ "/blobs/uploads/" in
  try! response := SendBasicFormPost uri [] [] else err => ret (digestString, Some err) in
  guard! GenerateError (StatusCode response) (Status response ++ "; while starting layer upload")
    else err => ret (digestString, Some err) in
  match Header response !! "Location" with
  | None => ret (digestString, Some (ConstructServerError "No Location header"))
  | Some [location] =>
      (* os.Open and Stat; the file is read when a request carrying it is sent *)
      try! layerFile := read_file layerFilePath else err => ret (digestString, Some err) in
      let fileSize := Z.of_nat (String.length layerFile) in
      (* Send the request using the URL provided. *)
      let url := location in
      let authHeaderValue := basic_auth in
      let headers := layer_headers fileSize authHeaderValue in
      (* Construct request. *)
      check! request := NewRequest "PATCH" url layerFile
        else err => ret (digestString, Some err) in
      let request := set_headers headers request in
      (* the submission of this request is commented out in the source *)
      (* Signal completion of upload. *)
      let url := location ++ "&digest=sha256:" ++ digestString in
      check! request := NewRequest "PUT" url layerFile
        else err => ret (digestString, Some err) in
      let headers := layer_headers fileSize authHeaderValue in
      let request := set_headers headers request in
      try! response := HttpClient_Do request else err => ret (digestString, Some err) in
      guard! GenerateError (StatusCode response) (Status response)
        else err => ret (digestString, Some err) in  (* after printing the response body *)
      ret (digestString, None)
  | Some _ => ret (digestString, Some (ConstructServerError "Unexpected Location header"))
  end.

(** ** PushManifest *)

(** The loop that appends one entry per layer digest; [i] is the index. *)
Fixpoint PushManifest_layers (i : nat) (layerDigestStrings : list string) (manifest : string)
  : string :=
  match layerDigestStrings with
  | [] => manifest
  | layerDigestString :: rest =>
      let manifest := if (0 <? i)%nat then manifest ++ "," ++ nl else manifest in
      let manifest :=
        manifest ++ "{" ++ dq ++ "blobSum" ++ dq ++ ": " ++ dq ++ "sha256:"
                 ++ layerDigestString ++ dq ++ "}" in
      PushManifest_layers (S i) rest manifest
  end.

Definition manifest_body (repoName tag : string) (layerDigestStrings : list string) : string :=
  let manifest :=
    "{" ++ dq ++ "name" ++ dq ++ ": " ++ dq ++ repoName ++ dq ++ ", "
        ++ dq ++ "tag" ++ dq ++ ": " ++ dq ++ tag ++ dq ++ ", "
        ++ dq ++ "fsLayers" ++ dq ++ ": [" in
  let manifest := PushManifest_layers 0 layerDigestStrings manifest in
  manifest ++ "]}".

Definition manifest_url (repoName tag : string) : string :=
  let uri := "v2/" ++ repoName ++ "/manifests/" ++ tag in
  let url := GetScheme registry ++ "://" ++ GetHostname registry in
  let url := if GetPort registry =? 0 then url else url ++ ":" ++ of_Z (GetPort registry) in
  url ++ "/" ++ uri.

Definition PushManifest (repoName tag imageDigestString : string)
  (layerDigestStrings : list string) : M (option error) :=
  let url := manifest_url repoName tag in
  let manifest := manifest_body repoName tag layerDigestStrings in
  let authHeaderValue := basic_auth in
  let headers : gmap string string :=
    {[ "Content-Length" := of_Z (Z.of_nat (String.length manifest));
       "Content-Type" := "application/json; charset=utf-8";
       "Authorization" := authHeaderValue ]} in
  check! request := NewRequest "PUT" url manifest else err => ret (Some err) in
  let request := set_headers headers request in
  try! response := HttpClient_Do request else err => ret (Some err) in
  guard! GenerateError (StatusCode response) (Status response ++ "; while putting manifest")
    else err => ret (Some err) in  (* after printing the response body *)
  ret None.

(** ** The scratch directory of PushImage *)

(** Paths are compared as written, apart from one trailing separator. *)
Definition trim_slash (p : string) : string :=
  if HasSuffix p "/" then rev (drop 1 (rev p)) else p.

Fixpoint drop_through (sep : ascii) (s : string) : string :=
  match s with
  | EmptyString => EmptyString
  | String a s' => if Ascii.eqb a sep then s' else drop_through sep s'
  end.

Definition parent (p : string) : string := rev (drop_through "/"%char (rev p)).

Definition under (dir path : string) : bool :=
  String.eqb path dir || HasPrefix path (dir ++ "/").

(** [utils.MakeTempDir]: a new, empty directory with a name not used
    before. *)
Definition MakeTempDir : M (error + string) :=
  fun w =>
    let path := "/tmp/scratch" ++ pretty (tmp_next w) in
    match fs w !! path with
    | Some _ => (Done (inl (IOError ("mkdir " ++ path ++ ": file exists"))), w)
    | None =>
        (Done (inr path),
         {| fs := <[path := Dir]> (fs w); tmp_next := S (tmp_next w);
            sent := sent w; replies := replies w |})
    end.

Definition os_Mkdir (name : string) : M (option error) :=
  fun w =>
    let path := trim_slash name in
    match fs w !! path, fs w !! parent path with
    | Some _, _ => (Done (Some (IOError ("mkdir " ++ name ++ ": file exists"))), w)
    | None, Some Dir => (Done None, set_fs (<[path := Dir]> (fs w)) w)
    | None, _ => (Done (Some (IOError ("mkdir " ++ name ++ ": no such file or directory"))), w)
    end.

(** [os.OpenFile(filename, os.O_CREATE | os.O_RDWR, 0770)]. *)
Definition os_OpenFile_create (filename : string) : M (option error) :=
  fun w =>
    match fs w !! filename, fs w !! parent filename with
    | Some (File _), _ => (Done None, w)
    | Some Dir, _ => (Done (Some (IOError ("open " ++ filename ++ ": is a directory"))), w)
    | None, Some Dir => (Done None, set_fs (<[filename := File EmptyString]> (fs w)) w)
    | None, _ =>
        (Done (Some (IOError ("open " ++ filename ++ ": no such file or directory"))), w)
    end.

(** [io.Copy(outfile, tarReader)] into a file just opened: the data
    overwrite the file from its start; the result is the number of bytes
    written. *)
Definition io_Copy_to (filename data : string) : M (error + Z) :=
  fun w =>
    match fs w !! filename with
    | Some (File old) =>
        (Done (inr (Z.of_nat (String.length data))),
         set_fs (<[filename := File (data ++ drop (String.length data) old)]> (fs w)) w)
    | _ => (Done (inl (IOError ("write " ++ filename ++ ": bad file descriptor"))), w)
    end.

Definition child_name (dir path : string) : option string :=
  let prefix := dir ++ "/" in
  if HasPrefix path prefix then
    let name := drop (String.length prefix) path in
    if contains_char "/"%char name || String.eqb name EmptyString then None else Some name
  else None.

(** [os.Open(dir)] and [Readdirnames(0)]: the names of the entries of the
    directory, in the order of the file system. *)
Definition Readdirnames (dir : string) : M (error + list string) :=
  fun w =>
    match fs w !! dir with
    | Some Dir => (Done (inr (omap (fun kv => child_name dir (fst kv)) (map_to_list (fs w)))), w)
    | Some (File _) => (Done (inl (IOError ("readdirent " ++ dir ++ ": not a directory"))), w)
    | None => (Done (inl (IOError ("open " ++ dir ++ ": no such file or directory"))), w)
    end.

Definition os_RemoveAll (dir : string) : M unit :=
  fun w => (Done tt, set_fs (filter (fun kv => under dir (fst kv) = false) (fs w)) w).

(** ** PushImage *)

(** The loop over the entries of the archive. *)
Fixpoint PushImage_expand (tempDirPath : string) (entries : list TarEntry)
  (failure : option error) : M (option error) :=
  match entries with
  | [] => guard! failure else err => ret (Some err) in ret None     (* io.EOF: break *)
  | header :: rest =>
      let name := entry_name header in
      if HasSuffix name "/" then                          (* a directory *)
        let dirname := tempDirPath ++ "/" ++ name in
        let! failed := os_Mkdir dirname in
        guard! failed else err => ret (Some err) in
        PushImage_expand tempDirPath rest failure
      else if String.eqb name "repositories" || HasSuffix name "/layer.tar" then
        (* Write entry to a file. *)
        let filename := tempDirPath ++ "/" ++ name in
        let! failed := os_OpenFile_create filename in
        guard! failed else err => ret (Some err) in
        try! nWritten := io_Copy_to filename (entry_data header) else err => ret (Some err) in
        if nWritten =? 0
        then ret (Some (ConstructServerError ("No data written to " ++ filename)))
        else PushImage_expand tempDirPath rest failure
      else PushImage_expand tempDirPath rest failure
  end.

(** The loop over the tag map of a repository; [imageDigest] is the
    variable assigned in the loop body. *)
Fixpoint PushImage_tags (tags : list (string * json)) (imageDigest : string)
  : error + string :=
  match tags with
  | [] => inr imageDigest
  | (_, tagDigestObj) :: rest =>
      match tagDigestObj with
      | JStr tagDigest => PushImage_tags rest tagDigest
      | _ => inl (ConstructServerError "Digest is not a string")
      end
  end.

(** The loop over the repository map. *)
Fixpoint PushImage_repos (repos : list (string * json)) (imageDigest : string)
  : error + string :=
  match repos with
  | [] => inr imageDigest
  | (_, tagObj) :: rest =>
      match tagObj with
      | JObj tagMap =>
          if (size tagMap =? 0)%nat
          then inl (ConstructServerError "No entries found in tag map for repo")
          else if (1 <? size tagMap)%nat
          then inl (ConstructServerError "More than one entry found in tag map for repo")
          else check! imageDigest := PushImage_tags (map_to_list tagMap) imageDigest
                 else err => inl err in
               PushImage_repos rest imageDigest
      | _ => inl (ConstructServerError "repository json does not translate to a map[string]interface")
      end
  end.

(** The parsing of the [repositories] file, once read. *)
Definition PushImage_index (bytes : string) : error + string :=
  check! obj := json_Unmarshal P bytes else err => inl err in
  match obj with
  | JObj repositoriesMap =>
      if (size repositoriesMap =? 0)%nat
      then inl (ConstructServerError "No entries found in repository map for image")
      else if (1 <? size repositoriesMap)%nat
      then inl (ConstructServerError "More than one entry found in repository map for image")
      else PushImage_repos (map_to_list repositoriesMap) EmptyString
  | _ => inl (ConstructServerError
                "repositories file json does not translate to a map[string]interface")
  end.

(** The loop that sends each layer to the registry. *)
Fixpoint PushImage_layers (tempDirPath repoName : string) (layerFilenames : list string)
  (layerDigests : list string) : M (error + list string) :=
  match layerFilenames with
  | [] => ret (inr layerDigests)
  | layerFilename :: rest =>
      if String.eqb layerFilename "repositories"
      then PushImage_layers tempDirPath repoName rest layerDigests     (* not a layer *)
      else
        let layerFilePath := tempDirPath ++ "/" ++ layerFilename ++ "/layer.tar" in
        let! pushed := PushLayer layerFilePath repoName in
        guard! snd pushed else err => ret (inl err) in
        PushImage_layers tempDirPath repoName rest (layerDigests ++ [fst pushed])
  end.

Definition PushImage (repoName tag imageFilePath : string) : M (option error) :=
  (* Create a scratch directory. *)
  try! tempDirPath := MakeTempDir else err => ret (Some err) in
  (* Expand tar file. *)
  try! tarFile := read_file imageFilePath else err => ret (Some err) in
  let tarReader := tar_NewReader P tarFile in
  let! failed := PushImage_expand tempDirPath (tar_entries tarReader) (tar_failure tarReader) in
  guard! failed else err => ret (Some err) in
  (* Parse the 'repositories' file. *)
  try! bytes := read_file (tempDirPath ++ "/" ++ "repositories") else err => ret (Some err) in
  check! imageDigest := PushImage_index bytes else err => ret (Some err) in
  (* Obtain digest strings and layer paths. *)
  try! layerFilenames := Readdirnames tempDirPath else err => ret (Some err) in
  (* Send each layer to the registry. *)
  try! layerDigests := PushImage_layers tempDirPath repoName layerFilenames []
    else err => ret (Some err) in
  (* Send a manifest to the registry. *)
  let! failed := PushManifest repoName tag imageDigest layerDigests in
  guard! failed else err => ret (Some err) in
  let! _ := os_RemoveAll tempDirPath in
  ret None.

End Registry.

(** * Regular expressions, as far as [regexp.MatchString] is used *)

Module Regexp.

(** The syntax [regexp] compiles a pattern to. A character class is a
    list of inclusive ranges. The patterns of this program only have
    ASCII classes, so matching byte by byte agrees with matching rune by
    rune: no byte of a multi-byte rune is in a class. *)
Inductive regex : Type :=
| Empty
| Eps
| Class (ranges : list (ascii * ascii))
| Seq (r1 r2 : regex)
| Alt (r1 r2 : regex)
| Star (r : regex).

Definition Plus (r : regex) : regex := Seq r (Star r).

Definition in_range (c : ascii) (r : ascii * ascii) : bool :=
  (nat_of_ascii (fst r) <=? nat_of_ascii c)%nat && (nat_of_ascii c <=? nat_of_ascii (snd r))%nat.

Definition in_class (ranges : list (ascii * ascii)) (c : ascii) : bool :=
  existsb (in_range c) ranges.

Fixpoint nullable (r : regex) : bool :=
  match r with
  | Empty => false
  | Eps => true
  | Class _ => false
  | Seq r1 r2 => nullable r1 && nullable r2
  | Alt r1 r2 => nullable r1 || nullable r2
  | Star _ => true
  end.

(** The derivative of [r] by the character [c]. *)
Fixpoint deriv (c : ascii) (r : regex) : regex :=
  match r with
  | Empty => Empty
  | Eps => Empty
  | Class ranges => if in_class ranges c then Eps else Empty
  | Seq r1 r2 =>
      if nullable r1 then Alt (Seq (deriv c r1) r2) (deriv c r2) else Seq (deriv c r1) r2
  | Alt r1 r2 => Alt (deriv c r1) (deriv c r2)
  | Star r1 => Seq (deriv c r1) (Star r1)
  end.

Fixpoint matches (r : regex) (s : list ascii) : bool :=
  match s with
  | [] => nullable r
  | c :: s' => matches (deriv c r) s'
  end.

(** [regexp.MatchString] with a pattern that starts with the anchor of the
    beginning of the text and ends with the anchor of its end, [body]
    being what stands between them: the text has a match exactly when
    the whole of it matches [body]. The pattern is a constant that
    compiles, so the returned error is nil. *)
Definition MatchString_anchored (body : regex) (s : string) : bool * option error :=
  (matches body (chars s), None).

(** The words a regular expression denotes. *)
Inductive lang : regex -> list ascii -> Prop :=
| lang_eps : lang Eps []
| lang_class ranges c : in_class ranges c = true -> lang (Class ranges) [c]
| lang_seq r1 r2 s1 s2 : lang r1 s1 -> lang r2 s2 -> lang (Seq r1 r2) (s1 ++ s2)
| lang_alt_l r1 r2 s : lang r1 s -> lang (Alt r1 r2) s
| lang_alt_r r1 r2 s : lang r2 s -> lang (Alt r1 r2) s
| lang_star_nil r : lang (Star r) []
| lang_star_cons r s1 s2 : lang r s1 -> lang (Star r) s2 -> lang (Star r) (s1 ++ s2).

(** The characters of all classes of [r] satisfy [p]. *)
Fixpoint classes_within (p : ascii -> bool) (r : regex) : Prop :=
  match r with
  | Empty | Eps => True
  | Class ranges => forall c, in_class ranges c = true -> p c = true
  | Seq r1 r2 | Alt r1 r2 => classes_within p r1 /\ classes_within p r2
  | Star r1 => classes_within p r1
  end.

End Regexp.

(** * The name validator ([DockerServices.go]) *)

Module Names.
Import Regexp.

Definition lower : ascii * ascii := ("a"%char, "z"%char).
Definition digit : ascii * ascii := ("0"%char, "9"%char).
Definition one (c : ascii) : ascii * ascii := (c, c).

(** The body of the pattern of [NamePartConformsToDockerRules]: any number
    of lower-case letters, digits, dashes and underscores. *)
Definition part_pattern : regex :=
  Star (Class [lower; digit; one "-"%char; one "_"%char]).

Definition NamePartConformsToDockerRules (part : string) : option error :=
  let (matched, err) := MatchString_anchored part_pattern part in
  guard! err else _e => Some (ConstructServerError "Unexpected internal error") in
  if negb matched then Some (ConstructServerError "Name does not conform to docker rules")
  else None.

(** The expression the comment of the function and the specification
    give for one path component: groups of letters and digits separated by
    single periods, underscores or dashes. *)
Definition alnum : regex := Class [lower; digit].
Definition separator : regex := Class [one "."%char; one "_"%char; one "-"%char].
Definition documented_component : regex :=
  Seq (Plus alnum) (Star (Seq separator (Plus alnum))).

(** The validator as the specification words it: every component
    between slashes matches the documented expression and the whole name
    is shorter than 256 characters. *)
Definition spec_validate (name : string) : bool :=
  forallb (fun part => matches documented_component (chars part)) (split_on "/"%char name)
  && (String.length name <? 256)%nat.

(** The characters the documented expression can contain. *)
Definition documented_char (c : ascii) : bool :=
  in_class [lower; digit; one "."%char; one "_"%char; one "-"%char] c.

End Names.

(** * A sample platform and sample worlds, to run the model on *)

Module Sample.

Definition quoted (s : string) : string := dq ++ s ++ dq.

(** Manifest bodies: one whose only layer has a number for [blobSum], one
    whose only layer has no [blobSum], and a well-formed one. *)
Definition text_numeric_blobSum : string :=
  "{" ++ quoted "fsLayers" ++ ": [{" ++ quoted "blobSum" ++ ": 5}]}".
Definition text_missing_blobSum : string :=
  "{" ++ quoted "fsLayers" ++ ": [{}]}".
Definition text_one_layer : string :=
  "{" ++ quoted "fsLayers" ++ ": [{" ++ quoted "blobSum" ++ ": " ++ quoted "sha256:ab" ++ "}]}".

(** Archive indexes: an empty one and one with a single repository and
    tag. *)
Definition text_empty_index : string := "{}".
Definition text_index : string :=
  "{" ++ quoted "acme/app" ++ ": {" ++ quoted "v1" ++ ": " ++ quoted "img1" ++ "}}".

Definition decoded : list (string * json) :=
  [ (text_numeric_blobSum, JObj {[ "fsLayers" := JArr [JObj {[ "blobSum" := JNum 5 ]}] ]});
    (text_missing_blobSum, JObj {[ "fsLayers" := JArr [JObj ∅] ]});
    (text_one_layer, JObj {[ "fsLayers" := JArr [JObj {[ "blobSum" := JStr "sha256:ab" ]}] ]});
    (text_empty_index, JObj ∅);
    (text_index, JObj {[ "acme/app" := JObj {[ "v1" := JStr "img1" ]} ]}) ].

Fixpoint lookup_text {A} (table : list (string * A)) (s : string) : option A :=
  match table with
  | [] => None
  | (k, v) :: rest => if String.eqb k s then Some v else lookup_text rest s
  end.

Definition Unmarshal (s : string) : error + json :=
  match lookup_text decoded s with
  | Some v => inr v
  | None => inl (IOError "invalid character looking for beginning of value")
  end.

(** Archives, named by their bytes: one that holds only an empty index,
    and one with an index and a layer. *)
Definition archives : list (string * TarStream) :=
  [ ("archive-with-empty-index",
     {| tar_entries := [ {| entry_name := "repositories"; entry_data := text_empty_index |} ];
        tar_failure := None |});
    ("archive-with-one-layer",
     {| tar_entries := [ {| entry_name := "l1/"; entry_data := EmptyString |};
                         {| entry_name := "l1/layer.tar"; entry_data := "layer content" |};
                         {| entry_name := "repositories"; entry_data := text_index |} ];
        tar_failure := None |}) ].

Definition NewReader (bytes : string) : TarStream :=
  match lookup_text archives bytes with
  | Some t => t
  | None => {| tar_entries := []; tar_failure := Some (IOError "archive/tar: invalid tar header") |}
  end.

(** The hash and the encoding are stand-ins: no property of them is
    used. *)
Definition platform : Platform :=
  {| status_is_success := fun code => (200 <=? code) && (code <? 300);
     sha256_Sum := fun content => content;
     base64_EncodeToString := fun s => s;
     json_Unmarshal := Unmarshal;
     tar_NewReader := NewReader;
     url_parses := fun _ => true |}.

Definition registry : RestContext :=
  {| GetScheme := "http"; GetHostname := "registry.local"; GetPort := 5000;
     GetUserId := "user"; GetPassword := "secret" |}.

Definition response (code : Z) (status : string) (headers : gmap string (list string))
  (body : string) : error + Response :=
  inr {| StatusCode := code; Status := status; Header := headers;
         Body := {| stream_data := body; stream_closed := false |} |}.

Definition world (files : gmap string Node) (answers : list (error + Response)) : World :=
  {| fs := files; tmp_next := 0; sent := []; replies := answers |}.

(** A world with one layer file, and a registry that does not have the
    layer, opens an upload session and accepts the finalizing request. *)
Definition layer_files : gmap string Node := {[ "/l1/layer.tar" := File "layer" ]}.

Definition upload_answers : list (error + Response) :=
  [ response 404 "404 Not Found" ∅ EmptyString;
    response 202 "202 Accepted"
      {[ "Location" := ["http://registry.local:5000/v2/acme/app/blobs/uploads/u1?_state=s1"] ]}
      EmptyString;
    response 201 "201 Created" ∅ EmptyString ].

(** A name of 256 letters. *)
Definition long_name : string := string_of_list_ascii (repeat "a"%char 256).

End Sample.

(** * The manifest wire format, as the specification gives it *)

Module Wire.

(** One element of [fsLayers]. *)
Definition blobSum_entry (digest : string) : string :=
  "{" ++ dq ++ "blobSum" ++ dq ++ ": " ++ dq ++ "sha256:" ++ digest ++ dq ++ "}".

(** The object with the three fields [name], [tag] and [fsLayers], the
    last being the entries of the digests in the order given, separated by
    a comma and a line feed. *)
Definition manifest (repoName tag : string) (digests : list string) : string :=
  "{" ++ dq ++ "name" ++ dq ++ ": " ++ dq ++ repoName ++ dq ++ ", "
      ++ dq ++ "tag" ++ dq ++ ": " ++ dq ++ tag ++ dq ++ ", "
      ++ dq ++ "fsLayers" ++ dq ++ ": ["
      ++ String.concat ("," ++ nl) (map blobSum_entry digests)
      ++ "]}".

End Wire.

(** * Relations between the world before and after an operation *)

(** [respects R m]: every run of [m] takes a world to one related to it by
    [R]. *)
Definition respects (R : World -> World -> Prop) {A} (m : M A) : Prop :=
  forall w, R w (snd (m w)).

(** The requests recorded in [w'] are those of [w] followed by requests
    that all satisfy [p]. *)
Definition extends_with (p : Request -> Prop) (w w' : World) : Prop :=
  exists l, sent w' = (sent w ++ l)%list /\ Forall p l.

(** A directory at path [t] in [w] is still there in [w']. *)
Definition keeps_dir (t : string) (w w' : World) : Prop :=
  fs w !! t = Some Dir -> fs w' !! t = Some Dir.

(** The file system is left as it was. *)
Definition same_fs (w w' : World) : Prop := fs w' = fs w.

(** [respects_on_failure R m]: every run of [m] that does not end with a
    nil error takes a world to one related to it by [R]. *)
Definition respects_on_failure (R : World -> World -> Prop) (m : M (option error)) : Prop :=
  forall w, result_of m w <> Done None -> R w (world_after m w).

(** The path [MakeTempDir] gives to the next scratch directory. *)
Definition next_scratch (w : World) : string := "/tmp/scratch" ++ pretty (tmp_next w).

(** * More of the Go standard library *)

Module GoStrings.

Definition tab : ascii := ascii_of_nat 9.

(** The cut set of a space and a tab. *)
Definition blanks : string := String " "%char (String tab EmptyString).

Fixpoint take (n : nat) (s : string) : string :=
  match n, s with
  | O, _ => EmptyString
  | S _, EmptyString => EmptyString
  | S n', String a s' => String a (take n' s')
  end.

(** [strings.TrimPrefix]. *)
Definition TrimPrefix (s prefix : string) : string :=
  if HasPrefix s prefix then drop (String.length prefix) s else s.

(** [strings.Index]: the position of the first occurrence, or -1. *)
Fixpoint Index_from (s substr : string) (pos : Z) : Z :=
  if HasPrefix s substr then pos
  else match s with
       | EmptyString => -1
       | String _ s' => Index_from s' substr (pos + 1)
       end.

Definition Index (s substr : string) : Z := Index_from s substr 0.

(** [strings.Contains(s, substr)]. *)
Definition Contains (s substr : string) : bool := 0 <=? Index s substr.

(** [strings.ContainsAny(s, chars)], for ASCII [chars]. *)
Definition ContainsAny (s chars : string) : bool :=
  existsb (fun c => contains_char c chars) (Str.chars s).

(** [strings.TrimLeft(s, cutset)], for an ASCII [cutset]. *)
Fixpoint TrimLeft (s cutset : string) : string :=
  match s with
  | EmptyString => EmptyString
  | String a s' => if contains_char a cutset then TrimLeft s' cutset else s
  end.

(** [strings.ToUpper] on ASCII letters; other bytes are left as they
    are. *)
Definition upper (a : ascii) : ascii :=
  let n := nat_of_ascii a in
  if (97 <=? n)%nat && (n <=? 122)%nat then ascii_of_nat (n - 32) else a.

Fixpoint ToUpper (s : string) : string :=
  match s with
  | EmptyString => EmptyString
  | String a s' => String (upper a) (ToUpper s')
  end.

(** [utf8.DecodeRuneInString] on a string of one byte: the byte when it is
    ASCII, the replacement character U+FFFD otherwise. *)
Definition DecodeRune (a : ascii) : Z :=
  let n := Z.of_nat (nat_of_ascii a) in
  if n <? 128 then n else 65533.

End GoStrings.

Import GoStrings.

(** * Build output ([DockerBuildStep.go], [DockerBuildOutput.go]) *)

Record DockerBuildStep : Type := {
  StepNumber : Z;
  Command : string;
  UsedCache : bool;
  ProducedDockerImageId : string
}.

Definition NewDockerBuildStep (number : Z) (cmd : string) : DockerBuildStep :=
  {| StepNumber := number; Command := cmd; UsedCache := false;
     ProducedDockerImageId := EmptyString |}.

Definition SetUsedCache (step : DockerBuildStep) : DockerBuildStep :=
  {| StepNumber := StepNumber step; Command := Command step; UsedCache := true;
     ProducedDockerImageId := ProducedDockerImageId step |}.

Definition SetProducedImageId (id : string) (step : DockerBuildStep) : DockerBuildStep :=
  {| StepNumber := StepNumber step; Command := Command step; UsedCache := UsedCache step;
     ProducedDockerImageId := id |}.

(** The method [String] of a step. *)
Definition Step_String (step : DockerBuildStep) : string :=
  let s := "Step " ++ of_Z (StepNumber step) ++ " : " ++ Command step ++ nl in
  let s := if UsedCache step then s ++ " ---> Using cache" else s in
  let s := if negb (String.eqb (ProducedDockerImageId step) EmptyString)
           then s ++ " ---> " ++ ProducedDockerImageId step else s in
  s ++ nl.

(** [Steps] is a slice of pointers in the source; the steps are kept here
    by value in the slice, and a pointer to a step is its index. *)
Record DockerBuildOutput : Type := {
  ErrorMessage : string;
  FinalDockerImageId : string;
  Steps : list DockerBuildStep
}.

Definition NewDockerBuildOutput : DockerBuildOutput :=
  {| ErrorMessage := EmptyString; FinalDockerImageId := EmptyString; Steps := [] |}.

(** [AddStep] appends a new step and returns the pointer to it. *)
Definition AddStep (number : Z) (cmd : string) (buildOutput : DockerBuildOutput)
  : DockerBuildOutput * nat :=
  let step := NewDockerBuildStep number cmd in
  ({| ErrorMessage := ErrorMessage buildOutput;
      FinalDockerImageId := FinalDockerImageId buildOutput;
      Steps := Steps buildOutput ++ [step] |},
   length (Steps buildOutput)).

Definition SetFinalImageId (id : string) (buildOutput : DockerBuildOutput) : DockerBuildOutput :=
  {| ErrorMessage := ErrorMessage buildOutput; FinalDockerImageId := id;
     Steps := Steps buildOutput |}.

Definition GetFinalDockerImageId (buildOutput : DockerBuildOutput) : string :=
  FinalDockerImageId buildOutput.

Definition SetErrorMessage (msg : string) (buildOutput : DockerBuildOutput) : DockerBuildOutput :=
  {| ErrorMessage := msg; FinalDockerImageId := FinalDockerImageId buildOutput;
     Steps := Steps buildOutput |}.

(** A method called through the pointer [step]: the step at that index is
    replaced by its changed value. *)
Definition update_step (f : DockerBuildStep -> DockerBuildStep) (step : nat)
  (buildOutput : DockerBuildOutput) : DockerBuildOutput :=
  {| ErrorMessage := ErrorMessage buildOutput;
     FinalDockerImageId := FinalDockerImageId buildOutput;
     Steps := alter f step (Steps buildOutput) |}.

(** The loop of the method [String] of a build output. *)
Fixpoint Output_String_steps (steps : list DockerBuildStep) (s : string) : string :=
  match steps with
  | [] => s
  | step :: rest => Output_String_steps rest (s ++ Step_String step)
  end.

Definition Output_String (buildOutput : DockerBuildOutput) : string :=
  Output_String_steps (Steps buildOutput) EmptyString.

(** * The services ([DockerServices.go]) *)

(** The errors of this file are made by [utilities.ConstructUserError] or
    are errors as above. *)
Inductive service_error : Type :=
| UserError (msg : string)
| Plain (e : error).

Section Services.

Variable P : Platform.

(** [fmt.Sscanf(s, "%d", &n)]: the integer scanned, or [None] when the scan
    fails and leaves the variable as it was. *)
Variable Sscanf_d : string -> option Z.

(** What [bufio.Reader.ReadLine] yields, call after call, until [io.EOF]. *)
Variable ReadLines : string -> list string.

(** ** ParseBuildCommandOutput *)

(** The loop over the lines: [lines] are the lines from [lineNo] on. A turn
    that ends with [lineNo++] goes on with the rest of the lines; the turn
    of state 2 that only sets [state = 1] is followed by the turn of state
    1 on the same line. *)
Fixpoint ParseBuildCommandOutput_loop (lines : list string) (state : Z)
  (output : DockerBuildOutput) (step : option nat) : DockerBuildOutput * option error :=
  match lines with
  | [] => (output, Some (ConstructServerError "Incomplete"))
  | line :: rest =>
      let looking_for_next_step :=
        let therest := TrimPrefix line "Step " in
        if (String.length therest <? String.length line)%nat then
          let stepNo := match Sscanf_d therest with Some n => n | None => 0 end in
          let separator := " : " in
          let seppos := Index therest separator in
          let added :=
            if negb (seppos =? -1) then
              let cmd := drop (Z.to_nat (seppos + Z.of_nat (String.length separator))) therest in
              let r := AddStep stepNo cmd output in (fst r, Some (snd r))
            else (output, step) in
          ParseBuildCommandOutput_loop rest 2 (fst added) (snd added)
        else
        let therest := TrimPrefix line "Successfully built " in
        if (String.length therest <? String.length line)%nat then
          let id := therest in
          (SetFinalImageId id output, None)
        else
        let therest := TrimPrefix line "Error" in
        if (String.length therest <? String.length line)%nat then
          let output := SetErrorMessage therest output in
          (output, Some (ConstructServerError (ErrorMessage output)))
        else ParseBuildCommandOutput_loop rest 1 output step in
      if state =? 1 then looking_for_next_step
      else if state =? 2 then
        match step with
        | None =>
            let output := SetErrorMessage "Internal error: should not happen" output in
            (output, Some (ConstructServerError (ErrorMessage output)))
        | Some p =>
            let therest := TrimPrefix line " ---> " in
            if (String.length therest <? String.length line)%nat then
              let output :=
                if HasPrefix therest "Using cache" then update_step SetUsedCache p output
                else if Contains " " therest then output
                else update_step (SetProducedImageId therest) p output in
              ParseBuildCommandOutput_loop rest 2 output step
            else looking_for_next_step
        end
      else
        let output := SetErrorMessage "Internal error: Unrecognized state" output in
        (output, Some (ConstructServerError (ErrorMessage output)))
  end.

Definition ParseBuildCommandOutput (buildOutputStr : string)
  : DockerBuildOutput * option error :=
  let output := NewDockerBuildOutput in
  let lines := split_on (ascii_of_nat 10) buildOutputStr in
  ParseBuildCommandOutput_loop lines 1 output None.

(** ** ParseBuildRESTOutput *)

(** The loop of [extractBuildOutputFromRESTResponse] over the lines. *)
Fixpoint extractBuildOutput_lines (lines : list string) (output : string)
  : service_error + string :=
  match lines with
  | [] => inr output
  | lineBytes :: rest =>
      check! obj := json_Unmarshal P lineBytes else err => inl (Plain err) in
      match obj with
      | JObj msgMap =>
          (* the end of the loop body; [obj] is not nil there *)
          let append_value obj :=
            match obj with
            | JStr value => extractBuildOutput_lines rest (output ++ value)
            | _ =>
                inl (Plain (ConstructServerError
                              ("Unexpected type in json field value: "
                                 ++ default EmptyString (reflect_TypeOf_String obj))))
            end in
          match map_index msgMap "stream" with
          | JNull =>
              match map_index msgMap "status" with
              | JNull =>
                  (* Check for error message. *)
                  match map_index msgMap "error" with
                  | JNull => inl (Plain (ConstructServerError ("Unexpected field: " ++ lineBytes)))
                  | JStr errMsg =>
                      match map_index msgMap "errorDetail" with
                      | JNull =>
                          inl (Plain (ConstructServerError
                                        ("Unexpected JSON field in errorDetail message: "
                                           ++ lineBytes)))
                      | JObj errDetailMsgJSON =>
                          match map_index errDetailMsgJSON "message" with
                          | JNull =>
                              inl (Plain (ConstructServerError
                                            ("No message field in errorDetail message: "
                                               ++ lineBytes)))
                          | obj =>
                              let errDetailMsg :=
                                match obj with JStr s => s | _ => EmptyString end in
                              inl (UserError (errMsg ++ "; " ++ errDetailMsg))
                          end
                      | _ =>
                          inl (Plain (ConstructServerError
                                        ("Unexpected data in json errorDetail value; line: "
                                           ++ lineBytes)))
                      end
                  | _ =>
                      inl (Plain (ConstructServerError
                                    ("Unexpected data in json error value; line: " ++ lineBytes)))
                  end
              | obj => append_value obj
              end
          | obj => append_value obj
          end
      | _ => inl (Plain (ConstructServerError
                           ("Unexpected format for json build output: " ++ lineBytes)))
      end
  end.

Definition extractBuildOutputFromRESTResponse (restResponse : string)
  : service_error + string :=
  extractBuildOutput_lines (ReadLines restResponse) EmptyString.

(** The output is a nil pointer when the extraction fails. *)
Definition ParseBuildRESTOutput (restResponse : string)
  : option DockerBuildOutput * option service_error :=
  check! outputstr := extractBuildOutputFromRESTResponse restResponse
    else err => (None, Some err) in
  let r := ParseBuildCommandOutput outputstr in
  (Some (fst r), match snd r with Some e => Some (Plain e) | None => None end).

End Services.

(** ** ParseDockerfile *)

(** [rest.ParameterValueDesc], with the two fields this file reads. *)
Record DockerfileExecParameterValueDesc : Type := {
  Name : string;
  StringValue : string
}.

Definition NewDockerfileExecParameterValueDesc (name strValue : string)
  : DockerfileExecParameterValueDesc :=
  {| Name := name; StringValue := strValue |}.

Definition isAlphaChar (c : Z) : bool :=
  ((97 <=? c) && (c <=? 122)) || ((65 <=? c) && (c <=? 90)) || (c =? 95) || (c =? 45).

Definition isNumeric (c : Z) : bool := (48 <=? c) && (c <=? 57).

(** The loop of [getToken]: [rest] is [trimmedLine[pos:]]; the result is
    the value of [pos] at the break. *)
Fixpoint getToken_scan (rest : string) (pos : nat) : nat :=
  match rest with
  | EmptyString => pos
  | String a rest' =>
      if ContainsAny (String a EmptyString) blanks then pos
      else
        let c := DecodeRune a in
        if negb (isAlphaChar c || isNumeric c) then pos
        else getToken_scan rest' (S pos)
  end.

Definition getToken (line : string) : string * string :=
  let trimmedLine := TrimLeft line blanks in
  match trimmedLine with
  | EmptyString => (EmptyString, EmptyString)
  | String a rest =>
      (* Determine if a special character. *)
      let c := DecodeRune a in
      if negb (isAlphaChar c) then (take 1 trimmedLine, drop 1 trimmedLine)
      else
        (* Not a special character - get alphanumeric token. *)
        let pos := getToken_scan rest 1 in
        (take pos trimmedLine, drop pos trimmedLine)
  end.

(** The loop over the lines, with the slice of the parameters found so
    far. *)
Fixpoint ParseDockerfile_lines (lines : list string)
  (paramValueDescs : list DockerfileExecParameterValueDesc)
  : service_error + list DockerfileExecParameterValueDesc :=
  match lines with
  | [] => inr paramValueDescs
  | line :: rest =>
      if (String.length line =? 0)%nat then ParseDockerfile_lines rest paramValueDescs
      else if ContainsAny (take 1 line) blanks then ParseDockerfile_lines rest paramValueDescs
      else if HasPrefix line "#" then ParseDockerfile_lines rest paramValueDescs
      else
        let (instructionName, restOfLine) := getToken line in
        if String.eqb instructionName EmptyString
        then ParseDockerfile_lines rest paramValueDescs
        else if String.eqb (ToUpper instructionName) "ARG" then
          (* Looking for instruction parts. *)
          let (argName, restOfLine) := getToken restOfLine in
          if String.eqb argName EmptyString
          then inl (UserError "No argument name in ARG instruction")
          else
            (* Looking for opt_assignment, if any. *)
            let (equalSign, restOfLine) := getToken restOfLine in
            let stringExpr := if String.eqb equalSign "=" then restOfLine else EmptyString in
            let paramValueDesc := NewDockerfileExecParameterValueDesc argName stringExpr in
            ParseDockerfile_lines rest (paramValueDescs ++ [paramValueDesc])
        else ParseDockerfile_lines rest paramValueDescs
  end.

Definition ParseDockerfile (dockerfileContent : string)
  : service_error + list DockerfileExecParameterValueDesc :=
  let lines := split_on (ascii_of_nat 10) dockerfileContent in
  ParseDockerfile_lines lines [].

(** ** Names *)

Definition ConstructDockerImageName (shRealmName shRepoName shImageName version : string)
  : string * string :=
  (shRealmName ++ "/" ++ shRepoName ++ "/" ++ shImageName, version).

(** ** The two interfaces and the services built on them *)

Record DockerRegistry : Type := {
  Registry_Close : M unit;
  Registry_Ping : M (option error);
  Registry_ImageExists : string -> string -> M (bool * option error);
  Registry_LayerExistsInRepo : string -> string -> M (bool * option error);
  Registry_GetImageInfo : string -> string -> M (string * list (gmap string json) * option error);
  Registry_GetImage : string -> string -> string -> M (option error);
  Registry_DeleteImage : string -> string -> M (option error);
  Registry_PushImage : string -> string -> string -> M (option error);
  Registry_PushLayer : string -> string -> M (string * option error);
  Registry_PushManifest : string -> string -> string -> list string -> M (option error)
}.

Record DockerEngine : Type := {
  Engine_Ping : M (option error);
  Engine_GetImages : M (error + list (gmap string json));
  Engine_GetImageInfo : string -> M (error + gmap string json);
  Engine_GetImage : string -> string -> M (option error);
  Engine_BuildImage :
    string -> string -> string -> list string -> list string -> M (string * option error);
  Engine_TagImage : string -> string -> string -> M (option error);
  Engine_PushImage : string -> string -> string -> string -> string -> M (option error);
  Engine_DeleteImage : string -> string -> M (option error)
}.

(** [Registry] is nil when there is no registry. *)
Record DockerServices : Type := {
  Registry : option DockerRegistry;
  Engine : DockerEngine
}.

Definition NewDockerServices (registry : option DockerRegistry) (engine : DockerEngine)
  : DockerServices :=
  {| Registry := registry; Engine := engine |}.

Definition RemoveDockerImage (dockerSvcs : DockerServices) (repoName tag : string)
  : M (option error) :=
  (* Delete from registry. *)
  let! err := Engine_DeleteImage (Engine dockerSvcs) repoName tag in
  let! err :=
    match Registry dockerSvcs with
    | Some registry => Registry_DeleteImage registry repoName tag
    | None => ret err
    end in
  guard! err else e => ret (Some e) in
  ret None.

(** * The engine client ([DockerEngineImpl.go]) *)

Module Engine.
Section Engine.

Variable P : Platform.

Definition Ping : M (option error) :=
  let uri := "_ping" in
  try! response := SendBasicGet uri else err => ret (Some err) in
  guard! GenerateError P (StatusCode response) (Status response ++ "; during Ping")
    else err => ret (Some err) in
  ret None.

Definition GetImageInfo (imageName : string) : M (error + gmap string json) :=
  let uri := "/images/" ++ imageName ++ "/json" in
  try! response := SendBasicGet uri else err => ret (inl err) in
  guard! GenerateError P (StatusCode response) (Status response) else err => ret (inl err) in
  check! imageMap := ParseResponseBodyToMap P (Body response) else err => ret (inl err) in
  ret (inr imageMap).

(** The text of an error, as [err.Error()] gives it. *)
Definition Error_text (e : error) : string :=
  match e with
  | ServerError msg | StatusError _ msg | TransportError msg | IOError msg => msg
  end.

(** [os.OpenFile(filepath, os.O_WRONLY, 0600)]: the file is not created. *)
Definition os_OpenFile_wronly (filepath : string) : M (option error) :=
  fun w =>
    match fs w !! filepath with
    | Some (File _) => (Done None, w)
    | Some Dir => (Done (Some (IOError ("open " ++ filepath ++ ": is a directory"))), w)
    | None => (Done (Some (IOError ("open " ++ filepath ++ ": no such file or directory"))), w)
    end.

(** [Stat] of an open file, for its size. *)
Definition file_size (filepath : string) : M Z :=
  fun w =>
    match fs w !! filepath with
    | Some (File content) => (Done (Z.of_nat (String.length content)), w)
    | _ => (Done 0, w)
    end.

Definition GetImage (repoNameAndTag filepath : string) : M (option error) :=
  (* Send HTTP request. *)
  let uri := "images/" ++ repoNameAndTag ++ "/get" in
  try! response := SendBasicGet uri else err => ret (Some err) in
  guard! GenerateError P (StatusCode response) (Status response) else err => ret (Some err) in
  (* Open the destination file to write the image to. *)
  let! failed := os_OpenFile_wronly filepath in
  guard! failed else err =>
    ret (Some (ConstructServerError
                 ("When opening file '" ++ filepath ++ "': " ++ Error_text err))) in
  (* Copy the response body to the destination image file. *)
  let reader := Body response in
  try! _n := (if stream_closed reader
              then ret (inl (IOError "http: read on closed response body"))
              else io_Copy_to filepath (stream_data reader))
    else err =>
      ret (Some (ConstructServerError
                   ("When writing layer file '" ++ filepath ++ "': " ++ Error_text err))) in
  (* Verify that content was actually copied. *)
  let! size := file_size filepath in
  if size =? 0
  then ret (Some (ConstructServerError
                    ("Layer file that was written, '" ++ filepath ++ "', has zero size")))
  else ret None.

Definition TagImage (imageName hostAndRepoName tag : string) : M (option error) :=
  let uri := "images/" ++ imageName ++ "/tag" in
  let names := ["repo"; "tag"] in
  let values := [hostAndRepoName; tag] in
  try! response := SendBasicFormPost uri names values else err => ret (Some err) in
  ret (GenerateError P (StatusCode response) (Status response)).

Definition DeleteImage (repoName tag : string) : M (option error) :=
  let uri := "images/" ++ repoName in
  let uri := if negb (String.eqb tag EmptyString) then uri ++ ":" ++ tag else uri in
  try! response := SendBasicDelete uri else err => ret (Some err) in
  ret (GenerateError P (StatusCode response) (Status response)).

End Engine.
End Engine.

(** * More of the registry client *)

Section Connection.

Variable P : Platform.

Definition Ping : M (option error) :=
  let uri := "v2/" in
  try! response := SendBasicGet uri else err => ret (Some err) in
  guard! GenerateError P (StatusCode response) (Status response ++ "; in Ping")
    else err => ret (Some err) in
  ret None.

(** [rest.CreateTCPRestContext] with the scheme [http]; the connection is
    returned only when the ping succeeds. *)
Definition OpenDockerRegistryConnection (host : string) (port : Z) (userId password : string)
  : M (error + RestContext) :=
  let registry :=
    {| GetScheme := "http"; GetHostname := host; GetPort := port;
       GetUserId := userId; GetPassword := password |} in
  let! err := Ping in
  guard! err else e => ret (inl e) in
  ret (inr registry).

(** [DockerRegistryImpl] as a [DockerRegistry]; [GetImage], which is not
    modelled, is an argument. *)
Definition DockerRegistryImpl (registry : RestContext)
  (GetImage : string -> string -> string -> M (option error)) : DockerRegistry :=
  {| Registry_Close := ret tt;
     Registry_Ping := Ping;
     Registry_ImageExists := ImageExists P;
     Registry_LayerExistsInRepo := LayerExistsInRepo P;
     Registry_GetImageInfo := GetImageInfo P;
     Registry_GetImage := GetImage;
     Registry_DeleteImage := DeleteImage P;
     Registry_PushImage := PushImage P registry;
     Registry_PushLayer := PushLayer P registry;
     Registry_PushManifest := PushManifest P registry |}.

(** [DockerEngineImpl] as a [DockerEngine]; [GetImages], [BuildImage] and
    [PushImage], which are not modelled, are arguments. *)
Definition DockerEngineImpl
  (GetImages : M (error + list (gmap string json)))
  (BuildImage :
     string -> string -> string -> list string -> list string -> M (string * option error))
  (PushImage : string -> string -> string -> string -> string -> M (option error))
  : DockerEngine :=
  {| Engine_Ping := Engine.Ping P;
     Engine_GetImages := GetImages;
     Engine_GetImageInfo := Engine.GetImageInfo P;
     Engine_GetImage := Engine.GetImage P;
     Engine_BuildImage := BuildImage;
     Engine_TagImage := Engine.TagImage P;
     Engine_PushImage := PushImage;
     Engine_DeleteImage := Engine.DeleteImage P |}.

End Connection.

(** * Dockerfiles and build logs written out, to state round trips *)

(** A name [getToken] reads as one token: a letter, an underscore or a dash,
    followed by any number of those or of digits. *)
Definition is_identifier (s : string) : bool :=
  match s with
  | EmptyString => false
  | String a rest =>
      isAlphaChar (DecodeRune a)
      && forallb (fun c => isAlphaChar (DecodeRune c) || isNumeric (DecodeRune c)) (chars rest)
  end.

(** The ARG instruction that declares a parameter with its default
    value. *)
Definition ARG_line (desc : DockerfileExecParameterValueDesc) : string :=
  "ARG " ++ Name desc ++ "=" ++ StringValue desc.

Definition is_blank (c : ascii) : bool := contains_char c blanks.

Definition one_line (s : string) : bool := negb (contains_char (ascii_of_nat 10) s).

(** The two lines [Step_String] writes for a step. *)
Definition step_lines (step : DockerBuildStep) : list string :=
  [ "Step " ++ of_Z (StepNumber step) ++ " : " ++ Command step;
    (if UsedCache step then " ---> Using cache" else EmptyString)
      ++ (if negb (String.eqb (ProducedDockerImageId step) EmptyString)
          then " ---> " ++ ProducedDockerImageId step else EmptyString) ].

(** A step that [ParseBuildCommandOutput] reads back from what [Step_String]
    writes: the command is on one line, the number is scanned back from the
    text after the word Step, the step did not both use the cache and
    produce an image, and the image id is on one line, does not begin with
    the words Using cache and is not a single space. *)
Definition step_reads_back (Sscanf_d : string -> option Z) (step : DockerBuildStep) : Prop :=
  one_line (Command step) = true /\
  Sscanf_d (of_Z (StepNumber step) ++ " : " ++ Command step) = Some (StepNumber step) /\
  (UsedCache step = true -> ProducedDockerImageId step = EmptyString) /\
  one_line (ProducedDockerImageId step) = true /\
  HasPrefix (ProducedDockerImageId step) "Using cache" = false /\
  ProducedDockerImageId step <> " ".

(** * Sample scanners, to run the parsers on *)

Module ServiceSample.

(** The unsigned decimal number a string starts with. *)
Fixpoint scan_digits (s : string) (acc : option Z) : option Z :=
  match s with
  | EmptyString => acc
  | String a s' =>
      let c := Z.of_nat (nat_of_ascii a) in
      if (48 <=? c) && (c <=? 57)
      then scan_digits s' (Some (10 * default 0 acc + (c - 48)))
      else acc
  end.

Definition Sscanf_d (s : string) : option Z := scan_digits s None.

(** Lines ended by a line feed, the last one possibly without it. *)
Definition ReadLines (s : string) : list string :=
  match List.rev (split_on (ascii_of_nat 10) s) with
  | EmptyString :: before => List.rev before
  | _ => split_on (ascii_of_nat 10) s
  end.

Definition build_log : string :=
  "Sending build context to Docker daemon 20.99 kB" ++ nl ++
  "Step 0 : FROM ubuntu:14.04" ++ nl ++
  " ---> ca4d7b1b9a51" ++ nl ++
  "Step 1 : RUN echo moo > oink" ++ nl ++
  " ---> Using cache" ++ nl ++
  " ---> 0b8dd7a477bb" ++ nl ++
  "Successfully built 0b8dd7a477bb".

Definition dockerfile : string :=
  "# a comment" ++ nl ++
  "FROM ubuntu:14.04" ++ nl ++
  "ARG user=web" ++ nl ++
  "arg home" ++ nl ++
  "RUN echo $user".

(** Lines of an answer of the engine to a build request, with what they
    decode to. *)
Definition stream_line_1 : string :=
  "{" ++ Sample.quoted "stream" ++ ":" ++ Sample.quoted "Step 0 : FROM ubuntu\n" ++ "}".
Definition stream_line_2 : string :=
  "{" ++ Sample.quoted "stream" ++ ":" ++ Sample.quoted "Successfully built ab\n" ++ "}".
Definition error_line : string :=
  "{" ++ Sample.quoted "error" ++ ":" ++ Sample.quoted "boom" ++ ","
      ++ Sample.quoted "errorDetail" ++ ":{" ++ Sample.quoted "message" ++ ":"
      ++ Sample.quoted "no space left" ++ "}}".

Definition rest_decoded : list (string * json) :=
  [ (stream_line_1, JObj {[ "stream" := JStr ("Step 0 : FROM ubuntu" ++ nl) ]});
    (stream_line_2, JObj {[ "stream" := JStr ("Successfully built ab" ++ nl) ]});
    (error_line,
     JObj {[ "error" := JStr "boom";
             "errorDetail" := JObj {[ "message" := JStr "no space left" ]} ]}) ].

Definition platform : Platform :=
  {| status_is_success := status_is_success Sample.platform;
     sha256_Sum := sha256_Sum Sample.platform;
     base64_EncodeToString := base64_EncodeToString Sample.platform;
     json_Unmarshal := fun s =>
       match Sample.lookup_text rest_decoded s with
       | Some v => inr v
       | None => inl (IOError "invalid character looking for beginning of value")
       end;
     tar_NewReader := tar_NewReader Sample.platform;
     url_parses := url_parses Sample.platform |}.

End ServiceSample.

(** * The JSON forms of the build output and of a Dockerfile parameter *)

Section AsJSON.

(** [rest.EncodeStringForJSON]. *)
Variable EncodeStringForJSON : string -> string.

Definition Step_AsJSON (step : DockerBuildStep) : string :=
  let usedCache := if UsedCache step then "true" else "false" in
  "{" ++ dq ++ "StepNumber" ++ dq ++ ": " ++ of_Z (StepNumber step) ++ ", "
      ++ dq ++ "Command" ++ dq ++ ": " ++ dq ++ EncodeStringForJSON (Command step) ++ dq ++ ", "
      ++ dq ++ "UsedCache" ++ dq ++ ": " ++ usedCache ++ ", "
      ++ dq ++ "ProducedDockerImageId" ++ dq ++ ": " ++ dq ++ ProducedDockerImageId step
      ++ dq ++ "}".

(** The loop of the method [AsJSON] of a build output; [i] is the index. *)
Fixpoint Output_AsJSON_steps (i : nat) (steps : list DockerBuildStep) (s : string) : string :=
  match steps with
  | [] => s
  | step :: rest =>
      let s := if (0 <? i)%nat then s ++ ", " else s in
      let s := s ++ Step_AsJSON step in
      Output_AsJSON_steps (S i) rest s
  end.

Definition Output_AsJSON (buildOutput : DockerBuildOutput) : string :=
  let s :=
    "{" ++ dq ++ "ErrorMessage" ++ dq ++ ": " ++ dq ++ ErrorMessage buildOutput ++ dq ++ ", "
        ++ dq ++ "FinalDockerImageId" ++ dq ++ ": " ++ dq ++ FinalDockerImageId buildOutput
        ++ dq ++ ", " ++ dq ++ "Steps" ++ dq ++ ": [" in
  let s := Output_AsJSON_steps 0 (Steps buildOutput) s in
  s ++ "]}".

Definition Desc_AsJSON (desc : DockerfileExecParameterValueDesc) : string :=
  " {" ++ dq ++ "Name" ++ dq ++ ": " ++ dq ++ Name desc ++ dq ++ ", "
       ++ dq ++ "Value" ++ dq ++ ": " ++ dq ++ EncodeStringForJSON (StringValue desc)
       ++ dq ++ "}".

End AsJSON.

(** * More relations between the world before and after an operation *)

(** Every path that is neither [t] nor below it holds in [w'] what it held
    in [w]. *)
Definition outside (t : string) (w w' : World) : Prop :=
  forall p, under t p = false -> fs w' !! p = fs w !! p.

(** [w'] is [w] with nothing at [t] or below it. *)
Definition cleared (t : string) (w w' : World) : Prop :=
  forall p, fs w' !! p = if under t p then None else fs w !! p.

(** [respects_on_success R m]: every run of [m] that ends with a nil error
    takes a world to one related to it by [R]. *)
Definition respects_on_success (R : World -> World -> Prop) (m : M (option error)) : Prop :=
  forall w, result_of m w = Done None -> R w (world_after m w).

(** A run of [m] from [w] that returns, after exactly the request [r], and
    leaves the file system as it was. *)
Definition one_exchange {A} (r : Request) (m : M A) (w : World) : Prop :=
  issued m w = [r] /\ fs (world_after m w) = fs w /\ exists a, result_of m w = Done a.

(** The request that deletes the blob with digest [digest]. *)
Definition blob_DELETE (repoName digest : string) : Request :=
  Basic "DELETE" ("v2/" ++ repoName ++ "/blobs/" ++ digest) [] [].

(** An answer with a success status. *)
Definition accepted (P : Platform) (answer : error + Response) : Prop :=
  match answer with
  | inr response => status_is_success P (StatusCode response) = true
  | inl _ => False
  end.

(** * Properties *)

(** ** The record of requests *)

Lemma issued_suffix {A} (m : M A) (w : World) (l : list Request) :
  sent (world_after m w) = (sent w ++ l)%list -> issued m w = l.
Proof.
  intros H. unfold issued. rewrite H. apply drop_app_length.
Qed.

Lemma exchange_reply (r : Request) (w : World) x rest :
  replies w = x :: rest ->
  exchange r w =
    (Done x, {| fs := fs w; tmp_next := tmp_next w; sent := sent w ++ [r]; replies := rest |}).
Proof.
  intros H. unfold exchange. rewrite H. reflexivity.
Qed.

Lemma exchange_sent (r : Request) (w : World) :
  sent (snd (exchange r w)) = (sent w ++ [r])%list.
Proof.
  unfold exchange. destruct (replies w); reflexivity.
Qed.

Lemma exchange_fs (r : Request) (w : World) :
  fs (snd (exchange r w)) = fs w.
Proof.
  unfold exchange. destruct (replies w); reflexivity.
Qed.

Lemma exchange_done (r : Request) (w : World) :
  exists x, fst (exchange r w) = Done x.
Proof.
  unfold exchange. destruct (replies w); eexists; reflexivity.
Qed.

Lemma bind_run {A B} (m : M A) (k : A -> M B) w a w' :
  m w = (Done a, w') -> bind m k w = k a w'.
Proof. intros H. unfold bind. rewrite H. reflexivity. Qed.

Lemma read_file_run path w content :
  fs w !! path = Some (File content) -> read_file path w = (Done (inr content), w).
Proof. intros H. unfold read_file. rewrite H. reflexivity. Qed.

(** ** The existence probes *)

Section Probes.

Variable P : Platform.

Lemma ImageExists_run repoName tag w resp rest :
  replies w = inr resp :: rest ->
  ImageExists P repoName tag w =
    (Done (if StatusCode resp =? 404 then (false, None)
           else if status_is_success P (StatusCode resp) then (true, None)
           else (false, Some (StatusError (StatusCode resp)
                                (Status resp ++ "; while checking if image exists")))),
     {| fs := fs w; tmp_next := tmp_next w;
        sent := sent w ++ [Basic "HEAD" ("v2/" ++ repoName ++ "/manifests/" ++ tag) [] []];
        replies := rest |}).
Proof.
  intros H. unfold ImageExists, bind, SendBasicHead, GenerateError.
  rewrite (exchange_reply _ _ _ _ H).
  destruct (StatusCode resp =? 404); [reflexivity|].
  destruct (status_is_success P (StatusCode resp)); reflexivity.
Qed.

Lemma LayerExistsInRepo_run repoName digest w resp rest :
  replies w = inr resp :: rest ->
  LayerExistsInRepo P repoName digest w =
    (Done (if StatusCode resp =? 404 then (false, None)
           else if status_is_success P (StatusCode resp) then (true, None)
           else (false, Some (StatusError (StatusCode resp)
                                (Status resp ++ "; while checking if layer exists")))),
     {| fs := fs w; tmp_next := tmp_next w;
        sent := sent w ++ [Basic "HEAD" ("v2/" ++ repoName ++ "/blobs/" ++ digest) [] []];
        replies := rest |}).
Proof.
  intros H. unfold LayerExistsInRepo, bind, SendBasicHead, GenerateError.
  rewrite (exchange_reply _ _ _ _ H).
  destruct (StatusCode resp =? 404); [reflexivity|].
  destruct (status_is_success P (StatusCode resp)); reflexivity.
Qed.

(** C7. Both existence probes send one HEAD request, on the manifest path
    for [ImageExists] and on the blob path for [LayerExistsInRepo]; when
    the registry answers with status 404 the result is false with no
    error, with any other status that is not a success it is an error
    carrying the status code and the status text, and with a success
    status it is true with no error. *)
Theorem existence_probes_map_status repoName tag digest w resp rest :
  replies w = inr resp :: rest ->
  issued (ImageExists P repoName tag) w
    = [Basic "HEAD" ("v2/" ++ repoName ++ "/manifests/" ++ tag) [] []] /\
  issued (LayerExistsInRepo P repoName digest) w
    = [Basic "HEAD" ("v2/" ++ repoName ++ "/blobs/" ++ digest) [] []] /\
  (StatusCode resp = 404 ->
     result_of (ImageExists P repoName tag) w = Done (false, None) /\
     result_of (LayerExistsInRepo P repoName digest) w = Done (false, None)) /\
  (StatusCode resp <> 404 -> status_is_success P (StatusCode resp) = false ->
     result_of (ImageExists P repoName tag) w
       = Done (false, Some (StatusError (StatusCode resp)
                              (Status resp ++ "; while checking if image exists"))) /\
     result_of (LayerExistsInRepo P repoName digest) w
       = Done (false, Some (StatusError (StatusCode resp)
                              (Status resp ++ "; while checking if layer exists")))) /\
  (StatusCode resp <> 404 -> status_is_success P (StatusCode resp) = true ->
     result_of (ImageExists P repoName tag) w = Done (true, None) /\
     result_of (LayerExistsInRepo P repoName digest) w = Done (true, None)).
Proof.
  intros H.
  unfold issued, result_of, world_after.
  rewrite (ImageExists_run repoName tag w resp rest H).
  rewrite (LayerExistsInRepo_run repoName digest w resp rest H).
  cbn [fst snd sent]. rewrite !drop_app_length.
  split; [reflexivity|]. split; [reflexivity|].
  split; [|split].
  - intros ->. split; reflexivity.
  - intros Hne Hok. apply Z.eqb_neq in Hne. rewrite Hne, Hok. split; reflexivity.
  - intros Hne Hok. apply Z.eqb_neq in Hne. rewrite Hne, Hok. split; reflexivity.
Qed.

End Probes.

Lemma existence_probes_map_status_witness :
  result_of (ImageExists Sample.platform "acme/app" "v1")
    (Sample.world ∅ [Sample.response 404 "404 Not Found" ∅ EmptyString]) = Done (false, None).
Proof.
  apply (existence_probes_map_status Sample.platform "acme/app" "v1" "ab"
           (Sample.world ∅ [Sample.response 404 "404 Not Found" ∅ EmptyString])
           _ [] eq_refl).
  reflexivity.
Defined.

(** ** Manifest retrieval and parsing *)

Section Manifests.

Variable P : Platform.

Lemma parseManifest_layers_objects (layers acc : list (gmap string json)) :
  parseManifest_layers (map JObj layers) acc = Done (inr (acc ++ layers)%list).
Proof.
  revert acc. induction layers as [|m layers IH]; intros acc; simpl.
  - rewrite app_nil_r. reflexivity.
  - rewrite IH, <- app_assoc. reflexivity.
Qed.

Lemma parseManifest_layers_first_other (layers : list (gmap string json)) v t rest acc :
  (forall m, v <> JObj m) ->
  reflect_TypeOf_String v = Some t ->
  parseManifest_layers (map JObj layers ++ v :: rest) acc
    = Done (inl (ServerError ("Type of layer object is " ++ t))).
Proof.
  intros Hv Ht. revert acc. induction layers as [|m layers IH]; intros acc; simpl.
  - destruct v; simpl in Ht; try discriminate; inversion Ht; subst; try reflexivity.
    exfalso. eapply Hv. reflexivity.
  - apply IH.
Qed.

(** C2. When the registry answers the manifest GET with a success status
    and a well-formed manifest but without any value for the
    Docker-Content-Digest header, [GetImageInfo] does not return: indexing
    the absent header at 0 stops the program with a run-time panic. *)
Theorem GetImageInfo_panics_without_digest_header repoName tag w resp rest layerAr :
  replies w = inr resp :: rest ->
  status_is_success P (StatusCode resp) = true ->
  parseManifest P (Body resp) = Done (inr layerAr) ->
  Header resp !! "Docker-Content-Digest" = None
    \/ Header resp !! "Docker-Content-Digest" = Some [] ->
  result_of (GetImageInfo P repoName tag) w = Panicked "index out of range [0] with length 0".
Proof.
  intros Hr Hok Hparse Hhdr.
  unfold result_of, GetImageInfo, bind, SendBasicGet, GenerateError, lift.
  rewrite (exchange_reply _ _ _ _ Hr), Hok, Hparse.
  destruct Hhdr as [-> | ->]; reflexivity.
Qed.

(** C3. [parseManifest] does not look at [blobSum]. On a body that decodes
    to an object it fails with an error naming [fsLayers] when that field
    is missing, and with an error giving the type found when [fsLayers] is
    not an array or when one of its elements is a value other than an
    object; when every element of [fsLayers] is an object it returns all
    of them, in order and unchanged, whatever their [blobSum]. A layer
    whose [blobSum] is missing or is a number is refused later, by the
    loop of [DeleteImage] over the layers. *)
Theorem parseManifest_checks_shape_only body responseMap :
  ParseResponseBodyToMap P body = inr responseMap ->
  (map_index responseMap "fsLayers" = JNull ->
     parseManifest P body = Done (inl (ServerError "Did not find fsLayers field in body"))) /\
  (forall v t, map_index responseMap "fsLayers" = v -> (forall l, v <> JArr l) ->
     reflect_TypeOf_String v = Some t ->
     parseManifest P body = Done (inl (ServerError ("Type of layer description is " ++ t)))) /\
  (forall layers, map_index responseMap "fsLayers" = JArr (map JObj layers) ->
     parseManifest P body = Done (inr layers)) /\
  (forall layers v t rest,
     map_index responseMap "fsLayers" = JArr (map JObj layers ++ v :: rest) ->
     (forall m, v <> JObj m) -> reflect_TypeOf_String v = Some t ->
     parseManifest P body = Done (inl (ServerError ("Type of layer object is " ++ t)))) /\
  (forall repoName layerDesc rest w,
     (map_index layerDesc "blobSum" = JNull ->
        result_of (DeleteImage_layers P repoName (layerDesc :: rest)) w
          = Done (Some (ServerError "Did not find blobSum field in response for layer"))) /\
     (forall n, map_index layerDesc "blobSum" = JNum n ->
        result_of (DeleteImage_layers P repoName (layerDesc :: rest)) w
          = Done (Some (ServerError "blogSum field is not a string - it is a float64")))).
Proof.
  intros Hbody. unfold parseManifest. rewrite Hbody.
  split; [|split; [|split; [|split]]].
  - intros ->. reflexivity.
  - intros v t Hidx Hv Ht. rewrite Hidx.
    destruct v; simpl in Ht; try discriminate; inversion Ht; subst; try reflexivity.
    exfalso. eapply Hv. reflexivity.
  - intros layers ->. apply parseManifest_layers_objects.
  - intros layers v t rest -> Hv Ht. apply parseManifest_layers_first_other; assumption.
  - intros repoName layerDesc rest w. split.
    + intros H. unfold result_of. simpl. rewrite H. reflexivity.
    + intros n H. unfold result_of. simpl. rewrite H. reflexivity.
Qed.

End Manifests.

Lemma GetImageInfo_panics_without_digest_header_witness :
  result_of (GetImageInfo Sample.platform "acme/app" "v1")
    (Sample.world ∅ [Sample.response 200 "200 OK" ∅ Sample.text_one_layer])
  = Panicked "index out of range [0] with length 0".
Proof.
  apply (GetImageInfo_panics_without_digest_header Sample.platform "acme/app" "v1"
           (Sample.world ∅ [Sample.response 200 "200 OK" ∅ Sample.text_one_layer])
           _ [] [ {[ "blobSum" := JStr "sha256:ab" ]} ] eq_refl).
  - reflexivity.
  - vm_compute. reflexivity.
  - left. reflexivity.
Defined.

Lemma parseManifest_checks_shape_only_witness :
  parseManifest Sample.platform
    {| stream_data := Sample.text_numeric_blobSum; stream_closed := false |}
  = Done (inr [ {[ "blobSum" := JNum 5 ]} ]).
Proof.
  apply (parseManifest_checks_shape_only Sample.platform
           {| stream_data := Sample.text_numeric_blobSum; stream_closed := false |}
           {[ "fsLayers" := JArr [JObj {[ "blobSum" := JNum 5 ]}] ]}).
  - vm_compute. reflexivity.
  - vm_compute. reflexivity.
Defined.

(** C3, as first stated, fails: a manifest whose only layer has the number 5
    for [blobSum], and one whose only layer has no [blobSum], are both
    accepted by [parseManifest], which returns the layer as it is. *)
Lemma parseManifest_accepts_bad_blobSum :
  parseManifest Sample.platform
    {| stream_data := Sample.text_numeric_blobSum; stream_closed := false |}
    = Done (inr [ {[ "blobSum" := JNum 5 ]} ]) /\
  parseManifest Sample.platform
    {| stream_data := Sample.text_missing_blobSum; stream_closed := false |}
    = Done (inr [ ∅ ]) /\
  ~ (exists e, parseManifest Sample.platform
                 {| stream_data := Sample.text_numeric_blobSum; stream_closed := false |}
               = Done (inl e)).
Proof.
  split; [vm_compute; reflexivity|]. split; [vm_compute; reflexivity|].
  intros [e He]. vm_compute in He. discriminate He.
Qed.

(** ** Reasoning on runs *)

Section Respects.

Variable R : World -> World -> Prop.
Hypothesis R_refl : forall w, R w w.
Hypothesis R_trans : forall w1 w2 w3, R w1 w2 -> R w2 w3 -> R w1 w3.

Lemma respects_ret {A} (a : A) : respects R (ret a).
Proof. intros w. apply R_refl. Qed.

Lemma respects_panic {A} msg : respects R (@panic A msg).
Proof. intros w. apply R_refl. Qed.

Lemma respects_lift {A} (r : Res A) : respects R (lift r).
Proof. intros w. apply R_refl. Qed.

Lemma respects_read_file path : respects R (read_file path).
Proof.
  intros w. unfold read_file. destruct (fs w !! path) as [[|c]|]; apply R_refl.
Qed.

Lemma respects_bind {A B} (m : M A) (k : A -> M B) :
  respects R m -> (forall a, respects R (k a)) -> respects R (bind m k).
Proof.
  intros Hm Hk w. unfold bind. specialize (Hm w).
  destruct (m w) as [[a|msg] w']; simpl in *.
  - eapply R_trans; [exact Hm|]. apply Hk.
  - exact Hm.
Qed.

End Respects.

Lemma extends_with_refl p w : extends_with p w w.
Proof. exists []. rewrite app_nil_r. split; [reflexivity|constructor]. Qed.

Lemma extends_with_trans p w1 w2 w3 :
  extends_with p w1 w2 -> extends_with p w2 w3 -> extends_with p w1 w3.
Proof.
  intros [l1 [H1 F1]] [l2 [H2 F2]]. exists (l1 ++ l2)%list.
  rewrite H2, H1, app_assoc. split; [reflexivity|]. apply Forall_app. split; assumption.
Qed.

Lemma extends_with_exchange (p : Request -> Prop) r :
  p r -> respects (extends_with p) (exchange r).
Proof.
  intros Hp w. exists [r]. rewrite exchange_sent. split; [reflexivity|].
  constructor; [exact Hp|constructor].
Qed.

Lemma extends_with_issued {A} p (m : M A) w :
  extends_with p w (snd (m w)) -> Forall p (issued m w).
Proof.
  intros [l [H F]]. rewrite (issued_suffix m w l H). exact F.
Qed.

(** One step of a proof that an operation respects a relation: the shape of
    the operation decides the rule. *)
Ltac respects_step refl trans :=
  match goal with
  | |- respects _ (ret _) => apply respects_ret; intros; apply refl
  | |- respects _ (panic _) => apply respects_panic; intros; apply refl
  | |- respects _ (lift _) => apply respects_lift; intros; apply refl
  | |- respects _ (read_file _) => apply respects_read_file; intros; apply refl
  | |- respects _ (bind _ _) =>
      apply respects_bind; [intros; eapply trans; eassumption| |intros ?]
  | |- respects _ (match ?x with _ => _ end) => destruct x
  end.

(** ** DeleteImage *)

Lemma parseManifest_closed P (body : ReadCloser) :
  parseManifest P (Close body)
    = Done (inl (IOError "http: read on closed response body")).
Proof. reflexivity. Qed.

(** C6. [DeleteImage] never issues a DELETE request and never succeeds: it
    sends the GET for the manifest and nothing else. When the GET is
    answered with a success status, the body of the answer has been closed
    before [parseManifest] reads it, so the manifest cannot be read and the
    operation ends with that error, all layers and the manifest being left
    in the registry. *)
Theorem DeleteImage_deletes_nothing P repoName tag w :
  issued (DeleteImage P repoName tag) w
    = [Basic "GET" ("v2/" ++ repoName ++ "/manifests/" ++ tag) [] []] /\
  Forall (fun r => method_of r <> "DELETE") (issued (DeleteImage P repoName tag) w) /\
  result_of (DeleteImage P repoName tag) w <> Done None /\
  (forall resp rest, replies w = inr resp :: rest ->
     status_is_success P (StatusCode resp) = true ->
     result_of (DeleteImage P repoName tag) w
       = Done (Some (IOError "http: read on closed response body"))).
Proof.
  assert (Hrun : exists e,
    DeleteImage P repoName tag w =
      (Done (Some e),
       snd (exchange (Basic "GET" ("v2/" ++ repoName ++ "/manifests/" ++ tag) [] []) w)) /\
    (forall resp rest, replies w = inr resp :: rest ->
       status_is_success P (StatusCode resp) = true ->
       e = IOError "http: read on closed response body")).
  { unfold DeleteImage, bind, SendBasicGet, exchange.
    destruct (replies w) as [|[e|resp] rest] eqn:Hr.
    - eexists. split; [reflexivity|]. intros ? ? H. discriminate H.
    - eexists. split; [reflexivity|]. intros ? ? H. discriminate H.
    - unfold GenerateError. cbn [close_body StatusCode Status Body].
      destruct (status_is_success P (StatusCode resp)) eqn:Hok.
      + rewrite parseManifest_closed. eexists. split; [reflexivity|]. reflexivity.
      + eexists. split; [reflexivity|].
        intros resp' rest' H Hok'. inversion H; subst. congruence. }
  destruct Hrun as [e [Hrun He]].
  assert (Hissued : issued (DeleteImage P repoName tag) w
            = [Basic "GET" ("v2/" ++ repoName ++ "/manifests/" ++ tag) [] []]).
  { apply issued_suffix. unfold world_after. rewrite Hrun. cbn [snd].
    apply exchange_sent. }
  split; [exact Hissued|]. split; [|split].
  - rewrite Hissued. constructor; [|constructor]. cbn. discriminate.
  - unfold result_of. rewrite Hrun. cbn. discriminate.
  - intros resp rest Hr Hok. unfold result_of. rewrite Hrun. cbn [fst].
    rewrite (He resp rest Hr Hok). reflexivity.
Qed.

(** ** PushLayer *)

Ltac destruct_innermost :=
  match goal with
  | |- context [match ?x with _ => _ end] =>
      lazymatch x with
      | context [match _ with _ => _ end] => fail
      | _ => destruct x eqn:?
      end
  end.

Section Layers.

Variable P : Platform.
Variable registry : RestContext.

Lemma PushLayer_returns_digest layerFilePath repoName w content d e :
  fs w !! layerFilePath = Some (File content) ->
  result_of (PushLayer P registry layerFilePath repoName) w = Done (d, e) ->
  d = hex_EncodeToString (sha256_Sum P content).
Proof.
  intros Hfile.
  unfold result_of, PushLayer, ComputeFileDigest, bind, read_file, ret.
  rewrite Hfile. cbn [fst snd].
  repeat destruct_innermost; cbn [fst snd]; intros H; inversion H; reflexivity.
Qed.

(** C8. When the file holds [content] and the existence probe for its
    digest is answered with a success status, [PushLayer] returns the
    digest computed from the content with no error, and the HEAD request of
    the probe is the only request it issues: no upload is initiated and no
    PATCH or PUT is sent. Any run of [PushLayer] on a file with the same
    content, such as an earlier push, returns the same digest. *)
Theorem PushLayer_short_circuits_when_layer_exists
  layerFilePath repoName w content resp rest :
  fs w !! layerFilePath = Some (File content) ->
  replies w = inr resp :: rest ->
  StatusCode resp <> 404 ->
  status_is_success P (StatusCode resp) = true ->
  let digestString := hex_EncodeToString (sha256_Sum P content) in
  result_of (PushLayer P registry layerFilePath repoName) w = Done (digestString, None) /\
  issued (PushLayer P registry layerFilePath repoName) w
    = [Basic "HEAD" ("v2/" ++ repoName ++ "/blobs/" ++ digestString) [] []] /\
  Forall (fun r => method_of r = "HEAD") (issued (PushLayer P registry layerFilePath repoName) w) /\
  (forall firstPath w1 d e,
     fs w1 !! firstPath = Some (File content) ->
     result_of (PushLayer P registry firstPath repoName) w1 = Done (d, e) ->
     d = digestString).
Proof.
  intros Hfile Hr Hne Hok digestString.
  assert (Hrun : PushLayer P registry layerFilePath repoName w =
    (Done (digestString, None),
     {| fs := fs w; tmp_next := tmp_next w;
        sent := sent w ++ [Basic "HEAD" ("v2/" ++ repoName ++ "/blobs/" ++ digestString) [] []];
        replies := rest |})).
  { unfold PushLayer, ComputeFileDigest. unfold bind at 1 2 3. unfold read_file at 1.
    rewrite Hfile. unfold ret at 1.
    rewrite (LayerExistsInRepo_run P repoName _ w resp rest Hr).
    apply Z.eqb_neq in Hne. rewrite Hne, Hok. reflexivity. }
  assert (Hissued : issued (PushLayer P registry layerFilePath repoName) w
            = [Basic "HEAD" ("v2/" ++ repoName ++ "/blobs/" ++ digestString) [] []]).
  { apply issued_suffix. unfold world_after. rewrite Hrun. reflexivity. }
  split; [unfold result_of; rewrite Hrun; reflexivity|].
  split; [exact Hissued|]. split.
  - rewrite Hissued. constructor; [reflexivity|constructor].
  - intros firstPath w1 d e H1 H2. eapply PushLayer_returns_digest; eassumption.
Qed.

End Layers.

Lemma PushLayer_short_circuits_when_layer_exists_witness :
  result_of (PushLayer Sample.platform Sample.registry "/l1/layer.tar" "acme/app")
    (Sample.world {[ "/l1/layer.tar" := File "layer" ]}
       [Sample.response 200 "200 OK" ∅ EmptyString])
  = Done ("6c61796572", None).
Proof.
  refine (proj1 (PushLayer_short_circuits_when_layer_exists Sample.platform Sample.registry
                   "/l1/layer.tar" "acme/app"
                   (Sample.world {[ "/l1/layer.tar" := File "layer" ]}
                      [Sample.response 200 "200 OK" ∅ EmptyString])
                   "layer" _ [] _ _ _ _)).
  - vm_compute. reflexivity.
  - reflexivity.
  - cbn. discriminate.
  - reflexivity.
Defined.

Ltac issues_step :=
  first
    [ match goal with
      | |- respects _ (match (if ?b then _ else _) with _ => _ end) => destruct b
      | |- respects _ (exchange _) =>
          apply extends_with_exchange; cbn; try discriminate; try reflexivity
      end
    | respects_step extends_with_refl extends_with_trans ].

Section Upload.

Variable P : Platform.
Variable registry : RestContext.

Lemma LayerExistsInRepo_issues (p : Request -> Prop) repoName digest :
  (forall uri, p (Basic "HEAD" uri [] [])) ->
  respects (extends_with p) (LayerExistsInRepo P repoName digest).
Proof.
  intros Hp. unfold LayerExistsInRepo, SendBasicHead.
  apply respects_bind; [apply extends_with_trans| |intros [e|resp]].
  - apply extends_with_exchange. apply Hp.
  - apply respects_ret, extends_with_refl.
  - repeat issues_step.
Qed.

(** No run of [PushLayer] issues a PATCH request. *)
Lemma PushLayer_never_issues_PATCH layerFilePath repoName w :
  Forall (fun r => method_of r <> "PATCH")
    (issued (PushLayer P registry layerFilePath repoName) w).
Proof.
  apply extends_with_issued. revert w.
  change (respects (extends_with (fun r => method_of r <> "PATCH"))
            (PushLayer P registry layerFilePath repoName)).
  unfold PushLayer, ComputeFileDigest, NewRequest, SendBasicFormPost, HttpClient_Do.
  apply respects_bind; [apply extends_with_trans| |intros [e|digest]].
  { repeat issues_step. }
  { repeat issues_step. }
  apply respects_bind; [apply extends_with_trans| |intros probe].
  { apply LayerExistsInRepo_issues. intros uri. cbn. discriminate. }
  repeat issues_step.
Qed.

(** C1. A push that goes all the way (the probe answers 404, the upload is
    initiated and gives one Location, the finalizing request succeeds)
    issues three requests: the HEAD of the probe, the POST that initiates
    the upload, and one PUT to the Location extended with the digest,
    carrying the whole content with the Content-Length, Content-Range,
    Content-Type and Authorization headers. The PATCH request of the
    transfer step is built but never sent. *)
Theorem PushLayer_sends_no_PATCH
  layerFilePath repoName w content probe started location finalized rest :
  fs w !! layerFilePath = Some (File content) ->
  replies w = inr probe :: inr started :: inr finalized :: rest ->
  StatusCode probe = 404 ->
  status_is_success P (StatusCode started) = true ->
  Header started !! "Location" = Some [location] ->
  url_parses P location = true ->
  url_parses P (location ++ "&digest=sha256:" ++ hex_EncodeToString (sha256_Sum P content))
    = true ->
  status_is_success P (StatusCode finalized) = true ->
  let digestString := hex_EncodeToString (sha256_Sum P content) in
  let fileSize := Z.of_nat (String.length content) in
  result_of (PushLayer P registry layerFilePath repoName) w = Done (digestString, None) /\
  issued (PushLayer P registry layerFilePath repoName) w
    = [ Basic "HEAD" ("v2/" ++ repoName ++ "/blobs/" ++ digestString) [] [];
        Basic "POST" ("v2/" ++ repoName ++ "/blobs/uploads/") [] [];
        Direct {| req_method := "PUT";
                  req_url := location ++ "&digest=sha256:" ++ digestString;
                  req_header :=
                    {[ "Content-Length" := of_Z fileSize;
                       "Content-Range" := "0-" ++ of_Z (fileSize - 1);
                       "Content-Type" := "application/octet-stream";
                       "Authorization" := basic_auth P registry ]};
                  req_body := content |} ] /\
  Forall (fun r => method_of r <> "PATCH")
    (issued (PushLayer P registry layerFilePath repoName) w).
Proof.
  intros Hfile Hr H404 Hstarted Hloc Hurl1 Hurl2 Hfinal digestString fileSize.
  assert (Hrun : PushLayer P registry layerFilePath repoName w =
    (Done (digestString, None),
     {| fs := fs w; tmp_next := tmp_next w;
        sent := ((sent w ++ [Basic "HEAD" ("v2/" ++ repoName ++ "/blobs/" ++ digestString) [] []])
                   ++ [Basic "POST" ("v2/" ++ repoName ++ "/blobs/uploads/") [] []])
                   ++ [Direct (set_headers (layer_headers fileSize (basic_auth P registry))
                                 {| req_method := "PUT";
                                    req_url := location ++ "&digest=sha256:" ++ digestString;
                                    req_header := ∅; req_body := content |})];
        replies := rest |})).
  { unfold PushLayer, ComputeFileDigest.
    erewrite bind_run;
      [|erewrite bind_run; [|apply read_file_run; exact Hfile]; reflexivity].
    cbn beta iota. fold digestString.
    erewrite bind_run; [|apply LayerExistsInRepo_run; exact Hr].
    rewrite H404. cbn [Z.eqb Pos.eqb fst snd].
    unfold SendBasicFormPost.
    erewrite bind_run; [|apply exchange_reply; reflexivity].
    unfold GenerateError. rewrite Hstarted, Hloc.
    erewrite bind_run; [|apply read_file_run; exact Hfile].
    unfold NewRequest. rewrite Hurl1. fold digestString in Hurl2. rewrite Hurl2.
    unfold HttpClient_Do.
    erewrite bind_run; [|apply exchange_reply; reflexivity].
    cbn beta iota. cbn [fs tmp_next sent replies].
    rewrite Hfinal. reflexivity. }
  split; [|split; [|apply PushLayer_never_issues_PATCH]].
  - unfold result_of. rewrite Hrun. reflexivity.
  - apply issued_suffix. unfold world_after. rewrite Hrun. cbn [snd sent].
    rewrite <- !app_assoc. cbn [app]. unfold set_headers, layer_headers.
    cbn [req_method req_url req_header req_body].
    rewrite (right_id_L ∅ (∪)). reflexivity.
Qed.

End Upload.

Lemma PushLayer_sends_no_PATCH_witness :
  map method_of
    (issued (PushLayer Sample.platform Sample.registry "/l1/layer.tar" "acme/app")
       (Sample.world Sample.layer_files Sample.upload_answers))
  = ["HEAD"; "POST"; "PUT"].
Proof.
  edestruct (PushLayer_sends_no_PATCH Sample.platform Sample.registry
               "/l1/layer.tar" "acme/app"
               (Sample.world Sample.layer_files Sample.upload_answers) "layer")
    as [_ [Hissued _]].
  - vm_compute. reflexivity.
  - reflexivity.
  - reflexivity.
  - reflexivity.
  - vm_compute. reflexivity.
  - reflexivity.
  - reflexivity.
  - reflexivity.
  - rewrite Hissued. reflexivity.
Defined.

(** ** PushManifest *)

Section Publishing.

Variable P : Platform.
Variable registry : RestContext.

Lemma append_cons a (s t : string) : String a s ++ t = String a (s ++ t).
Proof. reflexivity. Qed.

Lemma append_nil_r (s : string) : s ++ EmptyString = s.
Proof.
  induction s as [|a s IH]; [reflexivity|]. rewrite append_cons, IH. reflexivity.
Qed.

Lemma append_assoc (s t u : string) : (s ++ t) ++ u = s ++ (t ++ u).
Proof.
  induction s as [|a s IH]; [reflexivity|]. rewrite !append_cons, IH. reflexivity.
Qed.

(** From the second element on, the loop puts the separator before each
    entry. *)
Lemma PushManifest_layers_later i ds manifest :
  PushManifest_layers (S i) ds manifest
  = manifest ++ fold_right (fun d acc => ("," ++ nl) ++ Wire.blobSum_entry d ++ acc)
                  EmptyString ds.
Proof.
  revert i manifest. induction ds as [|d ds IH]; intros i manifest.
  - cbn [PushManifest_layers fold_right]. rewrite append_nil_r. reflexivity.
  - cbn [PushManifest_layers fold_right Nat.ltb Nat.leb]. rewrite IH.
    unfold Wire.blobSum_entry. rewrite !append_assoc. reflexivity.
Qed.

Lemma concat_cons sep (x : string) xs :
  String.concat sep (x :: xs)
  = x ++ fold_right (fun d acc => sep ++ d ++ acc) EmptyString xs.
Proof.
  revert x. induction xs as [|y ys IH]; intros x.
  - cbn [String.concat fold_right]. rewrite append_nil_r. reflexivity.
  - change (String.concat sep (x :: y :: ys)) with (x ++ sep ++ String.concat sep (y :: ys)).
    rewrite IH. cbn [fold_right]. reflexivity.
Qed.

Lemma fold_right_entries sep f (ds : list string) :
  fold_right (fun d acc => sep ++ f d ++ acc) EmptyString ds
  = fold_right (fun d acc => sep ++ d ++ acc) EmptyString (map f ds).
Proof.
  induction ds as [|d ds IH]; [reflexivity|]. cbn [fold_right map]. rewrite IH. reflexivity.
Qed.

Lemma PushManifest_layers_closed ds manifest :
  PushManifest_layers 0 ds manifest
  = manifest ++ String.concat ("," ++ nl) (map Wire.blobSum_entry ds).
Proof.
  destruct ds as [|d ds].
  - cbn [PushManifest_layers map String.concat]. rewrite append_nil_r. reflexivity.
  - cbn [PushManifest_layers map Nat.ltb Nat.leb]. rewrite PushManifest_layers_later.
    rewrite concat_cons, fold_right_entries.
    unfold Wire.blobSum_entry. rewrite !append_assoc. reflexivity.
Qed.

(** C9. The manifest body built by [PushManifest] for a repository name, a
    tag and a list of layer digests is the object with the fields [name],
    [tag] and [fsLayers], where [fsLayers] holds one [blobSum] entry per
    digest, in the order supplied, the entries being separated by a comma
    and a line feed; this holds for lists of any length. That body is what
    the PUT request to the manifest path carries. *)
Theorem manifest_body_lists_digests_in_order repoName tag (layerDigestStrings : list string) :
  manifest_body repoName tag layerDigestStrings
    = Wire.manifest repoName tag layerDigestStrings /\
  length (map Wire.blobSum_entry layerDigestStrings) = length layerDigestStrings /\
  (forall i d, layerDigestStrings !! i = Some d ->
     map Wire.blobSum_entry layerDigestStrings !! i = Some (Wire.blobSum_entry d)) /\
  (forall imageDigestString w,
     issued (PushManifest P registry repoName tag imageDigestString layerDigestStrings) w
     = if url_parses P (manifest_url registry repoName tag)
       then [ Direct {| req_method := "PUT";
                        req_url := manifest_url registry repoName tag;
                        req_header :=
                          {[ "Content-Length" :=
                               of_Z (Z.of_nat (String.length
                                       (Wire.manifest repoName tag layerDigestStrings)));
                             "Content-Type" := "application/json; charset=utf-8";
                             "Authorization" := basic_auth P registry ]};
                        req_body := Wire.manifest repoName tag layerDigestStrings |} ]
       else []).
Proof.
  assert (Hbody : manifest_body repoName tag layerDigestStrings
                  = Wire.manifest repoName tag layerDigestStrings).
  { unfold manifest_body, Wire.manifest. rewrite PushManifest_layers_closed.
    rewrite !append_assoc. reflexivity. }
  split; [exact Hbody|]. split; [apply length_map|]. split.
  - intros i d H. rewrite list_lookup_fmap, H. reflexivity.
  - intros imageDigestString w. apply issued_suffix.
    unfold world_after, PushManifest, NewRequest, HttpClient_Do, set_headers.
    rewrite Hbody.
    destruct (url_parses P (manifest_url registry repoName tag)).
    + cbn beta iota. cbn [req_method req_url req_header req_body].
      rewrite (right_id_L ∅ (∪)). unfold bind.
      match goal with |- context [exchange ?r w] =>
        pose proof (exchange_sent r w) as Hs; destruct (exchange r w) as [[[e|resp]|msg] w']
      end; cbn [snd] in *; try exact Hs.
      destruct (GenerateError P (StatusCode resp) (Status resp ++ "; while putting manifest"));
        exact Hs.
    + cbn. rewrite app_nil_r. reflexivity.
Qed.

(** C10. [PushManifest] does not use its [imageDigestString] argument: with
    the other arguments equal, two values of it give the same operation, so
    the same request with the same manifest body, the same result and the
    same world afterwards. *)
Theorem PushManifest_ignores_image_digest repoName tag d1 d2 (layerDigestStrings : list string) :
  PushManifest P registry repoName tag d1 layerDigestStrings
    = PushManifest P registry repoName tag d2 layerDigestStrings /\
  (forall w,
     issued (PushManifest P registry repoName tag d1 layerDigestStrings) w
       = issued (PushManifest P registry repoName tag d2 layerDigestStrings) w /\
     result_of (PushManifest P registry repoName tag d1 layerDigestStrings) w
       = result_of (PushManifest P registry repoName tag d2 layerDigestStrings) w).
Proof.
  split; [reflexivity|]. intros w. split; reflexivity.
Qed.

End Publishing.

(** ** PushImage and its scratch directory *)

Lemma same_fs_refl w : same_fs w w.
Proof. reflexivity. Qed.

Lemma same_fs_trans w1 w2 w3 : same_fs w1 w2 -> same_fs w2 w3 -> same_fs w1 w3.
Proof. unfold same_fs. intros H1 H2. rewrite H2. exact H1. Qed.

Lemma keeps_dir_refl t w : keeps_dir t w w.
Proof. intros H. exact H. Qed.

Lemma keeps_dir_trans t w1 w2 w3 : keeps_dir t w1 w2 -> keeps_dir t w2 w3 -> keeps_dir t w1 w3.
Proof. unfold keeps_dir. auto. Qed.

Lemma same_fs_exchange r : respects same_fs (exchange r).
Proof. intros w. apply exchange_fs. Qed.

Lemma same_fs_keeps_dir {A} t (m : M A) : respects same_fs m -> respects (keeps_dir t) m.
Proof. intros H w Ht. rewrite (H w). exact Ht. Qed.

Ltac same_fs_step :=
  first [ apply same_fs_exchange | respects_step same_fs_refl same_fs_trans ].

Section Scratch.

Variable P : Platform.
Variable registry : RestContext.

Lemma PushLayer_same_fs layerFilePath repoName :
  respects same_fs (PushLayer P registry layerFilePath repoName).
Proof.
  unfold PushLayer, ComputeFileDigest, LayerExistsInRepo, SendBasicHead, SendBasicFormPost,
    HttpClient_Do.
  repeat same_fs_step.
Qed.

Lemma PushManifest_same_fs repoName tag imageDigestString layerDigestStrings :
  respects same_fs (PushManifest P registry repoName tag imageDigestString layerDigestStrings).
Proof.
  unfold PushManifest, HttpClient_Do. repeat same_fs_step.
Qed.

Lemma PushImage_layers_same_fs tempDirPath repoName layerFilenames layerDigests :
  respects same_fs (PushImage_layers P registry tempDirPath repoName layerFilenames layerDigests).
Proof.
  revert layerDigests. induction layerFilenames as [|name names IH]; intros layerDigests.
  - cbn [PushImage_layers]. same_fs_step.
  - cbn [PushImage_layers]. destruct (String.eqb name "repositories"); [apply IH|].
    apply respects_bind; [apply same_fs_trans|apply PushLayer_same_fs|intros pushed].
    destruct (snd pushed); [same_fs_step|apply IH].
Qed.

Lemma os_Mkdir_keeps_dir t name : respects (keeps_dir t) (os_Mkdir name).
Proof.
  intros w Ht. unfold os_Mkdir.
  destruct (fs w !! trim_slash name) eqn:Hp; [exact Ht|].
  destruct (fs w !! parent (trim_slash name)) as [[|c]|]; try exact Ht.
  cbn [snd set_fs fs]. rewrite lookup_insert. case_decide; [reflexivity|exact Ht].
Qed.

Lemma os_OpenFile_create_keeps_dir t filename :
  respects (keeps_dir t) (os_OpenFile_create filename).
Proof.
  intros w Ht. unfold os_OpenFile_create.
  destruct (fs w !! filename) as [[|c]|] eqn:Hp; try exact Ht.
  destruct (fs w !! parent filename) as [[|c]|]; try exact Ht.
  cbn [snd set_fs fs]. rewrite lookup_insert. case_decide; [congruence|exact Ht].
Qed.

Lemma io_Copy_to_keeps_dir t filename data : respects (keeps_dir t) (io_Copy_to filename data).
Proof.
  intros w Ht. unfold io_Copy_to.
  destruct (fs w !! filename) as [[|c]|] eqn:Hp; try exact Ht.
  cbn [snd set_fs fs]. rewrite lookup_insert. case_decide; [congruence|exact Ht].
Qed.

Lemma Readdirnames_keeps_dir t dir : respects (keeps_dir t) (Readdirnames dir).
Proof.
  intros w Ht. unfold Readdirnames. destruct (fs w !! dir) as [[|c]|]; exact Ht.
Qed.

Ltac keeps_step :=
  first [ apply os_Mkdir_keeps_dir | apply os_OpenFile_create_keeps_dir
        | apply io_Copy_to_keeps_dir | apply Readdirnames_keeps_dir
        | respects_step keeps_dir_refl keeps_dir_trans ].

Lemma PushImage_expand_keeps_dir t tempDirPath entries failure :
  respects (keeps_dir t) (PushImage_expand tempDirPath entries failure).
Proof.
  induction entries as [|header rest IH].
  - cbn [PushImage_expand]. repeat keeps_step.
  - cbn [PushImage_expand]. destruct (HasSuffix (entry_name header) "/").
    + apply respects_bind; [apply keeps_dir_trans|apply os_Mkdir_keeps_dir|intros failed].
      destruct failed; [keeps_step|apply IH].
    + destruct (String.eqb (entry_name header) "repositories"
                || HasSuffix (entry_name header) "/layer.tar"); [|apply IH].
      apply respects_bind;
        [apply keeps_dir_trans|apply os_OpenFile_create_keeps_dir|intros failed].
      destruct failed; [keeps_step|].
      apply respects_bind; [apply keeps_dir_trans|apply io_Copy_to_keeps_dir|intros [e|n]].
      * keeps_step.
      * destruct (n =? 0); [keeps_step|apply IH].
Qed.

End Scratch.

Section Failure.

Variable R : World -> World -> Prop.
Hypothesis R_refl : forall w, R w w.
Hypothesis R_trans : forall w1 w2 w3, R w1 w2 -> R w2 w3 -> R w1 w3.

Lemma on_failure_ret e : respects_on_failure R (ret e).
Proof. intros w _. apply R_refl. Qed.

Lemma on_failure_always_ok (m : M (option error)) :
  (forall w, result_of m w = Done None) -> respects_on_failure R m.
Proof. intros H w Hne. exfalso. apply Hne, H. Qed.

Lemma on_failure_bind {A} (m : M A) (k : A -> M (option error)) :
  respects R m -> (forall a, respects_on_failure R (k a)) -> respects_on_failure R (bind m k).
Proof.
  intros Hm Hk w. unfold respects_on_failure, result_of, world_after, bind in *.
  specialize (Hm w). destruct (m w) as [[a|msg] w']; cbn [fst snd] in *.
  - intros Hne. eapply R_trans; [exact Hm|]. apply Hk. exact Hne.
  - intros _. exact Hm.
Qed.

End Failure.

Section Leak.

Variable P : Platform.
Variable registry : RestContext.

Lemma MakeTempDir_fresh w :
  fs w !! next_scratch w = None ->
  exists w1, MakeTempDir w = (Done (inr (next_scratch w)), w1)
             /\ fs w1 !! next_scratch w = Some Dir.
Proof.
  intros H. unfold MakeTempDir. fold (next_scratch w). rewrite H.
  eexists. split; [reflexivity|]. cbn [fs]. apply lookup_insert_eq.
Qed.

Lemma PushImage_index_rejects bytes (repositoriesMap : gmap string json) :
  json_Unmarshal P bytes = inr (JObj repositoriesMap) ->
  size repositoriesMap <> 1%nat ->
  exists e, PushImage_index P bytes = inl e.
Proof.
  intros Hj Hsize. unfold PushImage_index. rewrite Hj.
  destruct (size repositoriesMap =? 0)%nat eqn:H0; [eexists; reflexivity|].
  destruct (1 <? size repositoriesMap)%nat eqn:H1; [eexists; reflexivity|].
  apply Nat.eqb_neq in H0. apply Nat.ltb_ge in H1. lia.
Qed.

Lemma PushImage_index_rejects_tags bytes repo (tagMap : gmap string json) :
  json_Unmarshal P bytes = inr (JObj {[ repo := JObj tagMap ]}) ->
  size tagMap <> 1%nat ->
  exists e, PushImage_index P bytes = inl e.
Proof.
  intros Hj Hsize. unfold PushImage_index. rewrite Hj.
  rewrite map_size_singleton. cbn [Nat.eqb Nat.ltb Nat.leb].
  rewrite map_to_list_singleton. cbn [PushImage_repos].
  destruct (size tagMap =? 0)%nat eqn:H0; [eexists; reflexivity|].
  destruct (1 <? size tagMap)%nat eqn:H1; [eexists; reflexivity|].
  apply Nat.eqb_neq in H0. apply Nat.ltb_ge in H1. lia.
Qed.

(** C5. An archive index whose repository map, or whose tag map, has no
    entry or more than one is refused with an error. But whenever
    [PushImage] has created its scratch directory and then ends with an
    error, the scratch directory is still in the file system: it is removed
    only at the end of a push that succeeds. *)
Theorem PushImage_leaves_scratch_on_error repoName tag imageFilePath w :
  fs w !! next_scratch w = None ->
  result_of (PushImage P registry repoName tag imageFilePath) w <> Done None ->
  fs (world_after (PushImage P registry repoName tag imageFilePath) w) !! next_scratch w
    = Some Dir /\
  (forall bytes (repositoriesMap : gmap string json),
     json_Unmarshal P bytes = inr (JObj repositoriesMap) ->
     size repositoriesMap <> 1%nat ->
     exists e, PushImage_index P bytes = inl e) /\
  (forall bytes repo (tagMap : gmap string json),
     json_Unmarshal P bytes = inr (JObj {[ repo := JObj tagMap ]}) ->
     size tagMap <> 1%nat ->
     exists e, PushImage_index P bytes = inl e).
Proof.
  intros Hfresh Hfail.
  split; [|split; [apply PushImage_index_rejects|apply PushImage_index_rejects_tags]].
  destruct (MakeTempDir_fresh w Hfresh) as [w1 [Hmk Hdir]].
  revert Hfail. unfold result_of, world_after, PushImage.
  rewrite (bind_run _ _ _ _ _ Hmk). cbn beta iota.
  set (t := next_scratch w) in *.
  match goal with |- fst (?m w1) <> _ -> _ =>
    assert (Hrest : respects_on_failure (keeps_dir t) m)
  end.
  { repeat first
      [ apply on_failure_ret; apply keeps_dir_refl
      | apply on_failure_always_ok; intros ?; reflexivity
      | match goal with
        | |- respects_on_failure _ (bind (os_RemoveAll _) _) =>
            apply on_failure_always_ok; intros ?; reflexivity
        | |- respects_on_failure _ (bind _ _) =>
            apply on_failure_bind; [apply keeps_dir_trans| |intros ?]
        | |- respects_on_failure _ (match ?x with _ => _ end) => destruct x
        | |- respects _ (read_file _) => apply respects_read_file, keeps_dir_refl
        | |- respects _ (PushImage_expand _ _ _) => apply PushImage_expand_keeps_dir
        | |- respects _ (Readdirnames _) => apply Readdirnames_keeps_dir
        | |- respects _ (PushImage_layers _ _ _ _ _ _) =>
            apply same_fs_keeps_dir, PushImage_layers_same_fs
        | |- respects _ (PushManifest _ _ _ _ _ _) =>
            apply same_fs_keeps_dir, PushManifest_same_fs
        end ]. }
  intros Hfail. exact (Hrest w1 Hfail Hdir).
Qed.

End Leak.

Lemma PushImage_leaves_scratch_on_error_witness :
  result_of (PushImage Sample.platform Sample.registry "acme/app" "v1" "/in.tar")
    (Sample.world {[ "/in.tar" := File "archive-with-empty-index" ]} [])
    = Done (Some (ServerError "No entries found in repository map for image")) /\
  fs (world_after (PushImage Sample.platform Sample.registry "acme/app" "v1" "/in.tar")
        (Sample.world {[ "/in.tar" := File "archive-with-empty-index" ]} []))
    !! "/tmp/scratch0" = Some Dir.
Proof.
  split; [vm_compute; reflexivity|].
  apply (PushImage_leaves_scratch_on_error Sample.platform Sample.registry
           "acme/app" "v1" "/in.tar"
           (Sample.world {[ "/in.tar" := File "archive-with-empty-index" ]} [])).
  - vm_compute. reflexivity.
  - vm_compute. discriminate.
Defined.

(** ** Regular expressions: the matcher decides the language *)

Module RegexpFacts.
Import Regexp.

Lemma lang_empty s : ~ lang Empty s.
Proof. intros H. inversion H. Qed.

Lemma nullable_lang r : nullable r = true <-> lang r [].
Proof.
  split.
  - induction r; cbn [nullable]; intros H; try discriminate.
    + constructor.
    + apply andb_true_iff in H as [H1 H2].
      change (@nil ascii) with (@nil ascii ++ [])%list. constructor; auto.
    + apply orb_true_iff in H as [H|H]; [apply lang_alt_l|apply lang_alt_r]; auto.
    + constructor.
  - induction r; cbn [nullable]; intros H; inversion H; subst; try reflexivity.
    + match goal with E : (_ ++ _)%list = [] |- _ => apply app_eq_nil in E as [-> ->] end.
      rewrite IHr1, IHr2 by assumption. reflexivity.
    + rewrite IHr1 by assumption. reflexivity.
    + rewrite IHr2 by assumption. apply orb_true_r.
Qed.

Lemma lang_star_cons_inv r c s :
  lang (Star r) (c :: s) ->
  exists s1 s2, s = (s1 ++ s2)%list /\ lang r (c :: s1) /\ lang (Star r) s2.
Proof.
  intros H. remember (Star r) as q eqn:Hq. remember (c :: s) as cs eqn:Hcs.
  revert c s Hcs. induction H; intros c' s' Hcs; try discriminate.
  inversion Hq; subst.
  destruct s1 as [|a s1].
  - cbn [app] in Hcs. apply IHlang2; [reflexivity|exact Hcs].
  - cbn [app] in Hcs. inversion Hcs; subst. exists s1, s2. auto.
Qed.

Lemma deriv_lang c r s : lang (deriv c r) s <-> lang r (c :: s).
Proof.
  split.
  - revert s. induction r; intros s H; cbn [deriv] in H.
    + inversion H.
    + inversion H.
    + destruct (in_class ranges c) eqn:Hc; inversion H; subst. constructor. exact Hc.
    + destruct (nullable r1) eqn:Hn.
      * inversion H; subst.
        -- match goal with Hs : lang (Seq _ _) _ |- _ => inversion Hs; subst end.
           change (c :: (s1 ++ s2))%list with ((c :: s1) ++ s2)%list.
           constructor; auto.
        -- change (c :: s) with ([] ++ c :: s)%list. constructor; auto.
           apply nullable_lang. exact Hn.
      * inversion H; subst.
        change (c :: (s1 ++ s2))%list with ((c :: s1) ++ s2)%list.
        constructor; auto.
    + inversion H; subst; [apply lang_alt_l|apply lang_alt_r]; auto.
    + inversion H; subst.
      change (c :: (s1 ++ s2))%list with ((c :: s1) ++ s2)%list.
      constructor; auto.
  - revert s. induction r; intros s H; cbn [deriv].
    + inversion H.
    + inversion H.
    + inversion H; subst.
      match goal with Hc : in_class _ _ = true |- _ => rewrite Hc end. constructor.
    + inversion H; subst. destruct s1 as [|a s1].
      * match goal with E : ([] ++ _)%list = _ |- _ => cbn [app] in E; subst end.
        assert (Hn : nullable r1 = true) by (apply nullable_lang; assumption).
        rewrite Hn. apply lang_alt_r. auto.
      * match goal with E : ((_ :: _) ++ _)%list = _ |- _ =>
          cbn [app] in E; inversion E; subst end.
        destruct (nullable r1); [apply lang_alt_l|]; constructor; auto.
    + inversion H; subst; [apply lang_alt_l|apply lang_alt_r]; auto.
    + apply lang_star_cons_inv in H as [s1 [s2 [-> [H1 H2]]]].
      constructor; auto.
Qed.

Lemma matches_lang r s : matches r s = true <-> lang r s.
Proof.
  revert r. induction s as [|c s IH]; intros r; cbn [matches].
  - apply nullable_lang.
  - rewrite IH. apply deriv_lang.
Qed.

(** A word of the language only has characters of the classes. *)
Lemma lang_within p r s : classes_within p r -> lang r s -> forallb p s = true.
Proof.
  intros Hp H. induction H; cbn [classes_within] in Hp.
  - reflexivity.
  - cbn. rewrite (Hp c) by assumption. reflexivity.
  - destruct Hp. rewrite forallb_app, IHlang1, IHlang2 by assumption. reflexivity.
  - destruct Hp. auto.
  - destruct Hp. auto.
  - reflexivity.
  - rewrite forallb_app, IHlang1, IHlang2 by assumption. reflexivity.
Qed.

Lemma lang_star_class ranges s :
  forallb (in_class ranges) s = true -> lang (Star (Class ranges)) s.
Proof.
  induction s as [|c s IH]; cbn [forallb]; intros H.
  - constructor.
  - apply andb_true_iff in H as [Hc Hs].
    change (c :: s) with ([c] ++ s)%list. constructor; [constructor; exact Hc|auto].
Qed.

Lemma matches_star_class ranges s :
  matches (Star (Class ranges)) s = forallb (in_class ranges) s.
Proof.
  destruct (forallb (in_class ranges) s) eqn:H.
  - apply matches_lang, lang_star_class, H.
  - destruct (matches (Star (Class ranges)) s) eqn:Hm; [|reflexivity].
    apply matches_lang in Hm.
    apply (lang_within (in_class ranges)) in Hm; [congruence|]. cbn. auto.
Qed.

Lemma in_class_incl (rs1 rs2 : list (ascii * ascii)) c :
  (forall r, In r rs1 -> In r rs2) -> in_class rs1 c = true -> in_class rs2 c = true.
Proof.
  unfold in_class. intros Hincl H. apply existsb_exists in H as [r [Hr Hc]].
  apply existsb_exists. exists r. auto.
Qed.

End RegexpFacts.

(** ** The name validator *)

Module NameFacts.
Import Regexp Names RegexpFacts.

Lemma NamePart_accepts_iff part :
  NamePartConformsToDockerRules part = None
  <-> forallb (in_class [lower; digit; one "-"%char; one "_"%char]) (chars part) = true.
Proof.
  unfold NamePartConformsToDockerRules, MatchString_anchored, part_pattern.
  rewrite matches_star_class.
  destruct (forallb _ (chars part)); cbn; split; intros H; congruence.
Qed.

Lemma NamePart_rejects part :
  forallb (in_class [lower; digit; one "-"%char; one "_"%char]) (chars part) = false ->
  NamePartConformsToDockerRules part
    = Some (ServerError "Name does not conform to docker rules").
Proof.
  intros H. unfold NamePartConformsToDockerRules, MatchString_anchored, part_pattern.
  rewrite matches_star_class, H. reflexivity.
Qed.

Lemma in_range_one c x : in_range c (one x) = true -> c = x.
Proof.
  unfold in_range, one. cbn [fst snd]. intros H.
  apply andb_true_iff in H as [H1 H2].
  apply Nat.leb_le in H1. apply Nat.leb_le in H2.
  rewrite <- (ascii_nat_embedding c), <- (ascii_nat_embedding x).
  f_equal. lia.
Qed.

Lemma part_char_documented c :
  in_class [lower; digit; one "-"%char; one "_"%char] c = true -> documented_char c = true.
Proof.
  apply in_class_incl. intros r Hr. cbn in *. tauto.
Qed.

Lemma documented_char_not_period c :
  documented_char c = true -> c <> "."%char ->
  in_class [lower; digit; one "-"%char; one "_"%char] c = true.
Proof.
  unfold documented_char, in_class. cbn [existsb]. intros H Hne.
  repeat (apply orb_true_iff in H as [H|H]); try discriminate.
  - rewrite H. reflexivity.
  - rewrite H. apply orb_true_iff. right. reflexivity.
  - apply in_range_one in H. contradiction.
  - rewrite H. rewrite !orb_true_r. reflexivity.
  - rewrite H. rewrite !orb_true_r. reflexivity.
Qed.

Lemma documented_component_chars s :
  lang documented_component s -> forallb documented_char s = true.
Proof.
  apply lang_within. unfold documented_component, Plus, alnum, separator.
  cbn [classes_within].
  assert (Ha : forall c, in_class [lower; digit] c = true -> documented_char c = true).
  { intros c. apply in_class_incl. intros r Hr. cbn in *. tauto. }
  assert (Hs : forall c, in_class [one "."%char; one "_"%char; one "-"%char] c = true ->
                         documented_char c = true).
  { intros c. apply in_class_incl. intros r Hr. cbn in *. tauto. }
  repeat split; assumption.
Qed.

(** C4. [NamePartConformsToDockerRules] checks one path component and
    bounds no length. It refuses every string that has a character other
    than a lower-case letter, a digit, a period, an underscore or a dash,
    so every string with a slash; it accepts every component that matches
    the documented expression and has no period, however long; it answers
    with nil or an error and never changes the name. *)
Theorem NamePart_checks_one_component (part : string) :
  (forall c, In c (chars part) -> documented_char c = false ->
     NamePartConformsToDockerRules part
       = Some (ServerError "Name does not conform to docker rules")) /\
  (contains_char "/"%char part = true ->
     NamePartConformsToDockerRules part
       = Some (ServerError "Name does not conform to docker rules")) /\
  (matches documented_component (chars part) = true ->
   contains_char "."%char part = false ->
     NamePartConformsToDockerRules part = None).
Proof.
  assert (Hbad : forall c, In c (chars part) -> documented_char c = false ->
            NamePartConformsToDockerRules part
              = Some (ServerError "Name does not conform to docker rules")).
  { intros c Hin Hc. apply NamePart_rejects.
    destruct (forallb _ (chars part)) eqn:Hall; [|reflexivity].
    rewrite forallb_forall in Hall. specialize (Hall c Hin).
    apply part_char_documented in Hall. congruence. }
  split; [exact Hbad|]. split.
  - unfold contains_char. intros H. apply existsb_exists in H as [c [Hin Hc]].
    apply Ascii.eqb_eq in Hc. subst c. apply (Hbad "/"%char Hin). reflexivity.
  - intros Hm Hdot. apply NamePart_accepts_iff.
    apply matches_lang, documented_component_chars in Hm.
    rewrite forallb_forall in *. intros c Hin.
    apply documented_char_not_period; [auto|].
    intros ->. unfold contains_char in Hdot.
    assert (existsb (Ascii.eqb "."%char) (chars part) = true); [|congruence].
    apply existsb_exists. exists "."%char. split; [exact Hin|reflexivity].
Qed.

Lemma NamePart_checks_one_component_witness :
  NamePartConformsToDockerRules "ubuntu-14_04" = None /\
  NamePartConformsToDockerRules "library/ubuntu"
    = Some (ServerError "Name does not conform to docker rules").
Proof.
  split.
  - apply (NamePart_checks_one_component "ubuntu-14_04"); vm_compute; reflexivity.
  - apply (NamePart_checks_one_component "library/ubuntu"). vm_compute. reflexivity.
Defined.

(** C4, as first stated, fails in both directions: [library/ubuntu], a name
    of two valid components, is refused, and a name of 256 letters, which
    is too long, is accepted. *)
Lemma validator_is_not_the_documented_one :
  spec_validate "library/ubuntu" = true /\
  NamePartConformsToDockerRules "library/ubuntu"
    = Some (ServerError "Name does not conform to docker rules") /\
  spec_validate Sample.long_name = false /\
  NamePartConformsToDockerRules Sample.long_name = None.
Proof.
  repeat split; vm_compute; reflexivity.
Qed.

End NameFacts.

(** ** The theorems on sample runs *)

Lemma DeleteImage_deletes_nothing_witness :
  result_of (DeleteImage Sample.platform "acme/app" "v1")
    (Sample.world ∅ [Sample.response 200 "200 OK" ∅ Sample.text_one_layer])
    = Done (Some (IOError "http: read on closed response body")) /\
  issued (DeleteImage Sample.platform "acme/app" "v1")
    (Sample.world ∅ [Sample.response 200 "200 OK" ∅ Sample.text_one_layer])
    = [Basic "GET" "v2/acme/app/manifests/v1" [] []].
Proof.
  destruct (DeleteImage_deletes_nothing Sample.platform "acme/app" "v1"
              (Sample.world ∅ [Sample.response 200 "200 OK" ∅ Sample.text_one_layer]))
    as [Hissued [_ [_ Hresult]]].
  split.
  - eapply Hresult; reflexivity.
  - exact Hissued.
Defined.

Lemma manifest_body_lists_digests_in_order_witness :
  map Wire.blobSum_entry ["aa"; "bb"] !! 1%nat = Some (Wire.blobSum_entry "bb") /\
  manifest_body "acme/app" "v1" ["aa"; "bb"] = Wire.manifest "acme/app" "v1" ["aa"; "bb"].
Proof.
  destruct (manifest_body_lists_digests_in_order Sample.platform Sample.registry
              "acme/app" "v1" ["aa"; "bb"]) as [Hbody [_ [Hnth _]]].
  split.
  - apply Hnth. reflexivity.
  - exact Hbody.
Defined.

(** ** Lines of a text *)

Lemma split_on_nonempty sep s : split_on sep s <> [].
Proof.
  destruct s as [|a s]; cbn [split_on]; [discriminate|].
  destruct (Ascii.eqb a sep); [discriminate|].
  destruct (split_on sep s); discriminate.
Qed.

Lemma split_on_app sep (a b : string) :
  split_on sep (a ++ String sep b) = (split_on sep a ++ split_on sep b)%list.
Proof.
  induction a as [|c a IH].
  - change (EmptyString ++ String sep b) with (String sep b).
    cbn [split_on app]. rewrite Ascii.eqb_refl. reflexivity.
  - rewrite append_cons. cbn [split_on]. destruct (Ascii.eqb c sep).
    + rewrite IH. reflexivity.
    + rewrite IH. pose proof (split_on_nonempty sep a) as Hne.
      destruct (split_on sep a) as [|w ws]; [contradiction|reflexivity].
Qed.

Lemma split_on_one_line sep s :
  contains_char sep s = false -> split_on sep s = [s].
Proof.
  unfold contains_char, chars. induction s as [|c s IH]; [reflexivity|].
  cbn [list_ascii_of_string existsb split_on]. intros H.
  apply orb_false_iff in H as [Hc Hs]. rewrite Ascii.eqb_sym, Hc, (IH Hs). reflexivity.
Qed.

Lemma split_on_concat sep (l : string) (ls : list string) :
  split_on sep (String.concat (String sep EmptyString) (l :: ls))
  = flat_map (split_on sep) (l :: ls).
Proof.
  revert l. induction ls as [|l' ls IH]; intros l.
  - cbn [String.concat flat_map]. rewrite app_nil_r. reflexivity.
  - change (String.concat (String sep EmptyString) (l :: l' :: ls))
      with (l ++ String sep EmptyString ++ String.concat (String sep EmptyString) (l' :: ls)).
    change (String sep EmptyString ++ ?x) with (String sep x).
    rewrite split_on_app, IH. reflexivity.
Qed.

Lemma flat_map_one_line sep (ls : list string) :
  Forall (fun l => contains_char sep l = false) ls -> flat_map (split_on sep) ls = ls.
Proof.
  induction 1 as [|l ls Hl _ IH]; [reflexivity|].
  cbn [flat_map]. rewrite (split_on_one_line sep l Hl), IH. reflexivity.
Qed.

(** ** ParseDockerfile *)

Lemma ParseDockerfile_lines_skip line rest acc :
  line = EmptyString \/ ContainsAny (take 1 line) blanks = true \/ HasPrefix line "#" = true ->
  ParseDockerfile_lines (line :: rest) acc = ParseDockerfile_lines rest acc.
Proof.
  intros H. cbn [ParseDockerfile_lines].
  destruct (String.length line =? 0)%nat eqn:Hlen; [reflexivity|].
  destruct (ContainsAny (take 1 line) blanks) eqn:Hb; [reflexivity|].
  destruct (HasPrefix line "#") eqn:Hc; [reflexivity|].
  destruct H as [->|[H|H]]; discriminate.
Qed.

Lemma ParseDockerfile_lines_insert_skipped line ls1 ls2 acc :
  line = EmptyString \/ ContainsAny (take 1 line) blanks = true \/ HasPrefix line "#" = true ->
  ParseDockerfile_lines (ls1 ++ line :: ls2) acc = ParseDockerfile_lines (ls1 ++ ls2) acc.
Proof.
  intros H. revert acc. induction ls1 as [|x ls1 IH]; intros acc.
  - apply ParseDockerfile_lines_skip, H.
  - cbn [app ParseDockerfile_lines].
    repeat (destruct_innermost; try reflexivity); apply IH.
Qed.

Lemma ParseDockerfile_concat (l : string) (ls : list string) :
  ParseDockerfile (String.concat nl (l :: ls))
  = ParseDockerfile_lines (flat_map (split_on (ascii_of_nat 10)) (l :: ls)) [].
Proof.
  unfold ParseDockerfile, nl. rewrite split_on_concat. reflexivity.
Qed.

(** X1. Comment lines, blank lines and continuation lines do not count: a
    Dockerfile with such a line put anywhere between its lines gives what
    it gave without it. *)
Theorem ParseDockerfile_ignores_comments (before after : list string) (line : string) :
  one_line line = true ->
  line = EmptyString \/ ContainsAny (take 1 line) blanks = true \/ HasPrefix line "#" = true ->
  ParseDockerfile (String.concat nl (before ++ line :: after))
  = ParseDockerfile (String.concat nl (before ++ after)).
Proof.
  intros Hone Hskip.
  assert (Hl : split_on (ascii_of_nat 10) line = [line]).
  { apply split_on_one_line. unfold one_line in Hone.
    destruct (contains_char (ascii_of_nat 10) line); [discriminate|reflexivity]. }
  assert (Hlhs : ParseDockerfile (String.concat nl (before ++ line :: after))
                 = ParseDockerfile_lines
                     (flat_map (split_on (ascii_of_nat 10)) before
                        ++ line :: flat_map (split_on (ascii_of_nat 10)) after) []).
  { destruct before as [|b before].
    - cbn [app]. rewrite ParseDockerfile_concat. cbn [flat_map]. rewrite Hl. reflexivity.
    - cbn [app]. rewrite ParseDockerfile_concat.
      change (b :: (before ++ line :: after)%list) with ((b :: before) ++ line :: after)%list.
      rewrite flat_map_app. cbn [flat_map]. rewrite Hl. reflexivity. }
  rewrite Hlhs, (ParseDockerfile_lines_insert_skipped line _ _ [] Hskip).
  destruct (before ++ after)%list as [|x xs] eqn:Hba.
  - apply app_eq_nil in Hba as [-> ->]. reflexivity.
  - rewrite ParseDockerfile_concat, <- Hba, flat_map_app. reflexivity.
Qed.

Lemma ParseDockerfile_ignores_comments_witness :
  ParseDockerfile (String.concat nl (["FROM ubuntu"] ++ "# ARG hidden=1" :: ["ARG user=web"]))
  = ParseDockerfile (String.concat nl (["FROM ubuntu"] ++ ["ARG user=web"])).
Proof.
  apply (ParseDockerfile_ignores_comments ["FROM ubuntu"] ["ARG user=web"] "# ARG hidden=1").
  - reflexivity.
  - right. right. reflexivity.
Defined.

Lemma upper_A a : upper a = "A"%char -> a = "A"%char \/ a = "a"%char.
Proof.
  destruct a as [[] [] [] [] [] [] [] []]; vm_compute; intros H;
    first [discriminate H | left; reflexivity | right; reflexivity].
Qed.

Lemma upper_R a : upper a = "R"%char -> a = "R"%char \/ a = "r"%char.
Proof.
  destruct a as [[] [] [] [] [] [] [] []]; vm_compute; intros H;
    first [discriminate H | left; reflexivity | right; reflexivity].
Qed.

Lemma upper_G a : upper a = "G"%char -> a = "G"%char \/ a = "g"%char.
Proof.
  destruct a as [[] [] [] [] [] [] [] []]; vm_compute; intros H;
    first [discriminate H | left; reflexivity | right; reflexivity].
Qed.

Lemma ToUpper_ARG kw :
  ToUpper kw = "ARG" ->
  exists a r g, kw = String a (String r (String g EmptyString))
                /\ (a = "A"%char \/ a = "a"%char) /\ (r = "R"%char \/ r = "r"%char)
                /\ (g = "G"%char \/ g = "g"%char).
Proof.
  destruct kw as [|a [|r [|g [|x kw]]]]; cbn [ToUpper]; intros H; try discriminate H.
  injection H as Ha Hr Hg. exists a, r, g. split; [reflexivity|].
  auto using upper_A, upper_R, upper_G.
Qed.

Lemma TrimLeft_blanks ws :
  forallb is_blank (chars ws) = true -> TrimLeft ws blanks = EmptyString.
Proof.
  unfold chars. induction ws as [|c ws IH]; [reflexivity|].
  cbn [list_ascii_of_string forallb TrimLeft]. intros H.
  apply andb_true_iff in H as [Hc Hws]. unfold is_blank in Hc. rewrite Hc. auto.
Qed.

Lemma getToken_scan_blanks ws pos :
  forallb is_blank (chars ws) = true -> getToken_scan ws pos = pos.
Proof.
  destruct ws as [|c ws]; [reflexivity|]. unfold chars.
  cbn [list_ascii_of_string forallb getToken_scan]. intros H.
  apply andb_true_iff in H as [Hc _]. unfold is_blank in Hc.
  unfold ContainsAny, chars. cbn [list_ascii_of_string existsb]. rewrite Hc. reflexivity.
Qed.

Lemma getToken_letter a rest :
  contains_char a blanks = false -> isAlphaChar (DecodeRune a) = true ->
  getToken (String a rest)
  = (take (getToken_scan rest 1) (String a rest), drop (getToken_scan rest 1) (String a rest)).
Proof.
  intros Hb Ha. unfold getToken. cbn [TrimLeft]. rewrite Hb, Ha. reflexivity.
Qed.

Lemma getToken_special a rest :
  contains_char a blanks = false -> isAlphaChar (DecodeRune a) = false ->
  getToken (String a rest) = (String a EmptyString, rest).
Proof.
  intros Hb Ha. unfold getToken. cbn [TrimLeft]. rewrite Hb, Ha. reflexivity.
Qed.

Lemma getToken_scan_step a rest pos :
  contains_char a blanks = false ->
  isAlphaChar (DecodeRune a) || isNumeric (DecodeRune a) = true ->
  getToken_scan (String a rest) pos = getToken_scan rest (S pos).
Proof.
  intros Hb Ha. cbn [getToken_scan]. unfold ContainsAny, chars.
  cbn [list_ascii_of_string existsb]. rewrite Hb, Ha. reflexivity.
Qed.

(** A line that begins with a character other than a blank and a hash
    sign is read as an instruction. *)
Lemma ParseDockerfile_lines_instruction a s rest acc :
  contains_char a blanks = false -> Ascii.eqb a "#"%char = false ->
  ParseDockerfile_lines (String a s :: rest) acc
  = let (instructionName, restOfLine) := getToken (String a s) in
    if String.eqb instructionName EmptyString then ParseDockerfile_lines rest acc
    else if String.eqb (ToUpper instructionName) "ARG" then
      let (argName, restOfLine) := getToken restOfLine in
      if String.eqb argName EmptyString
      then inl (UserError "No argument name in ARG instruction")
      else
        let (equalSign, restOfLine) := getToken restOfLine in
        let stringExpr := if String.eqb equalSign "=" then restOfLine else EmptyString in
        ParseDockerfile_lines rest
          (acc ++ [NewDockerfileExecParameterValueDesc argName stringExpr])
    else ParseDockerfile_lines rest acc.
Proof.
  intros Hb Hh. cbn [ParseDockerfile_lines String.length Nat.eqb take].
  unfold ContainsAny, chars. cbn [list_ascii_of_string existsb HasPrefix].
  rewrite Hb, Hh. reflexivity.
Qed.

Lemma ParseDockerfile_lines_ARG_alone kw ws rest acc :
  ToUpper kw = "ARG" -> forallb is_blank (chars ws) = true ->
  ParseDockerfile_lines ((kw ++ ws) :: rest) acc
  = inl (UserError "No argument name in ARG instruction").
Proof.
  intros Hkw Hws.
  destruct (ToUpper_ARG kw Hkw) as [a [r [g [-> [Ha [Hr Hg]]]]]].
  rewrite !append_cons. change (EmptyString ++ ws) with ws.
  assert (Htok : getToken ws = (EmptyString, EmptyString)).
  { unfold getToken. rewrite (TrimLeft_blanks ws Hws). reflexivity. }
  destruct Ha as [->| ->], Hr as [->| ->], Hg as [->| ->];
    (rewrite ParseDockerfile_lines_instruction by (vm_compute; reflexivity);
     rewrite getToken_letter by (vm_compute; reflexivity);
     rewrite !getToken_scan_step by (vm_compute; reflexivity);
     rewrite (getToken_scan_blanks ws 3 Hws);
     cbn [take drop String.eqb Ascii.eqb ToUpper];
     rewrite Htok; reflexivity).
Qed.

Lemma ParseDockerfile_lines_fails_later bad ls1 ls2 acc :
  (forall rest acc', ParseDockerfile_lines (bad :: rest) acc'
                     = inl (UserError "No argument name in ARG instruction")) ->
  ParseDockerfile_lines (ls1 ++ bad :: ls2) acc
  = inl (UserError "No argument name in ARG instruction").
Proof.
  intros Hbad. revert acc. induction ls1 as [|x ls1 IH]; intros acc.
  - apply Hbad.
  - cbn [app ParseDockerfile_lines].
    repeat (destruct_innermost; try reflexivity); apply IH.
Qed.

(** X2. An ARG instruction with no name makes the whole Dockerfile fail:
    when a line holds only the word ARG, in any case, and blanks, the
    result is the user error, whatever the other lines declare. *)
Theorem ParseDockerfile_ARG_without_name (before after : list string) (kw ws : string) :
  ToUpper kw = "ARG" ->
  forallb is_blank (chars ws) = true ->
  ParseDockerfile (String.concat nl (before ++ (kw ++ ws) :: after))
  = inl (UserError "No argument name in ARG instruction").
Proof.
  intros Hkw Hws.
  assert (Hone : split_on (ascii_of_nat 10) (kw ++ ws) = [kw ++ ws]).
  { apply split_on_one_line.
    destruct (ToUpper_ARG kw Hkw) as [a [r [g [-> [Ha [Hr Hg]]]]]].
    rewrite !append_cons. change (EmptyString ++ ws) with ws.
    assert (Hw : contains_char (ascii_of_nat 10) ws = false).
    { unfold contains_char, chars in *. clear -Hws.
      induction ws as [|c ws IH]; [reflexivity|].
      cbn [list_ascii_of_string forallb existsb] in *.
      apply andb_true_iff in Hws as [Hc Hws]. rewrite (IH Hws), orb_false_r.
      destruct (Ascii.eqb_spec (ascii_of_nat 10) c) as [<-|]; [discriminate Hc|reflexivity]. }
    unfold contains_char, chars in *. cbn [list_ascii_of_string existsb]. rewrite Hw.
    destruct Ha as [->| ->], Hr as [->| ->], Hg as [->| ->]; reflexivity. }
  destruct before as [|b before].
  - cbn [app]. rewrite ParseDockerfile_concat. cbn [flat_map]. rewrite Hone.
    cbn [app]. apply ParseDockerfile_lines_ARG_alone; assumption.
  - cbn [app]. rewrite ParseDockerfile_concat.
    change (b :: (before ++ (kw ++ ws)%string :: after)%list)
      with ((b :: before) ++ (kw ++ ws)%string :: after)%list.
    rewrite flat_map_app. cbn [flat_map]. rewrite Hone. cbn [app].
    apply ParseDockerfile_lines_fails_later.
    intros rest acc'. apply ParseDockerfile_lines_ARG_alone; assumption.
Qed.

Lemma ParseDockerfile_ARG_without_name_witness :
  ParseDockerfile (String.concat nl (["ARG user=web"] ++ ("arg" ++ "  ") :: ["ARG home=/srv"]))
  = inl (UserError "No argument name in ARG instruction").
Proof.
  apply (ParseDockerfile_ARG_without_name ["ARG user=web"] ["ARG home=/srv"] "arg" "  ");
    reflexivity.
Defined.

Lemma letter_or_digit_plain a :
  isAlphaChar (DecodeRune a) || isNumeric (DecodeRune a) = true ->
  contains_char a blanks = false /\ Ascii.eqb a "#"%char = false
  /\ Ascii.eqb (ascii_of_nat 10) a = false.
Proof.
  destruct a as [[] [] [] [] [] [] [] []]; vm_compute; intros H;
    first [discriminate H | repeat split].
Qed.

Lemma getToken_scan_stop a rest pos :
  isAlphaChar (DecodeRune a) || isNumeric (DecodeRune a) = false ->
  getToken_scan (String a rest) pos = pos.
Proof.
  intros H. cbn [getToken_scan]. rewrite H.
  destruct (ContainsAny (String a EmptyString) blanks); reflexivity.
Qed.

Lemma getToken_scan_blank a rest pos :
  contains_char a blanks = true -> getToken_scan (String a rest) pos = pos.
Proof.
  intros H. cbn [getToken_scan]. unfold ContainsAny, chars.
  cbn [list_ascii_of_string existsb]. rewrite H. reflexivity.
Qed.

Lemma getToken_scan_word word a tail pos :
  forallb (fun c => isAlphaChar (DecodeRune c) || isNumeric (DecodeRune c)) (chars word) = true ->
  isAlphaChar (DecodeRune a) || isNumeric (DecodeRune a) = false ->
  getToken_scan (word ++ String a tail) pos = (pos + String.length word)%nat.
Proof.
  unfold chars. revert pos. induction word as [|c word IH]; intros pos Hw Ha.
  - change (EmptyString ++ String a tail) with (String a tail).
    rewrite getToken_scan_stop by exact Ha. cbn. lia.
  - cbn [list_ascii_of_string forallb] in Hw. apply andb_true_iff in Hw as [Hc Hw].
    rewrite append_cons, getToken_scan_step; [|apply letter_or_digit_plain, Hc|exact Hc].
    rewrite IH by assumption. cbn [String.length]. lia.
Qed.

Lemma getToken_leading_blank c s :
  contains_char c blanks = true -> getToken (String c s) = getToken s.
Proof.
  intros H. unfold getToken. cbn [TrimLeft]. rewrite H. reflexivity.
Qed.

Lemma take_length_append (s t : string) : take (String.length s) (s ++ t) = s.
Proof.
  induction s as [|a s IH]; [destruct t; reflexivity|].
  rewrite append_cons. cbn [String.length take]. rewrite IH. reflexivity.
Qed.

Lemma drop_length_append (s t : string) : drop (String.length s) (s ++ t) = t.
Proof.
  induction s as [|a s IH]; [reflexivity|].
  rewrite append_cons. cbn [String.length drop]. exact IH.
Qed.

Lemma contains_char_append c (s t : string) :
  contains_char c (s ++ t) = contains_char c s || contains_char c t.
Proof.
  unfold contains_char, chars. induction s as [|a s IH]; [reflexivity|].
  rewrite append_cons. cbn [list_ascii_of_string existsb]. rewrite IH, orb_assoc. reflexivity.
Qed.

Lemma identifier_one_line name :
  is_identifier name = true -> contains_char (ascii_of_nat 10) name = false.
Proof.
  destruct name as [|a word]; [discriminate|]. cbn [is_identifier]. intros H.
  apply andb_true_iff in H as [Ha Hw].
  unfold contains_char, chars in *. cbn [list_ascii_of_string existsb].
  assert (Ha' : isAlphaChar (DecodeRune a) || isNumeric (DecodeRune a) = true)
    by (rewrite Ha; reflexivity).
  destruct (letter_or_digit_plain a Ha') as [_ [_ ->]]. cbn [orb].
  induction word as [|c word IH]; [reflexivity|].
  cbn [list_ascii_of_string forallb existsb] in *. apply andb_true_iff in Hw as [Hc Hw].
  destruct (letter_or_digit_plain c Hc) as [_ [_ ->]]. auto.
Qed.

(** An ARG instruction with a name and a default value declares that
    parameter. *)
Lemma ParseDockerfile_lines_ARG_line desc rest acc :
  is_identifier (Name desc) = true ->
  ParseDockerfile_lines (ARG_line desc :: rest) acc
  = ParseDockerfile_lines rest (acc ++ [desc]).
Proof.
  destruct desc as [name value]. cbn [Name StringValue]. intros Hid.
  destruct name as [|a word]; [discriminate|].
  cbn [is_identifier] in Hid. apply andb_true_iff in Hid as [Ha Hw].
  assert (Ha' : isAlphaChar (DecodeRune a) || isNumeric (DecodeRune a) = true)
    by (rewrite Ha; reflexivity).
  destruct (letter_or_digit_plain a Ha') as [Hab [_ _]].
  unfold ARG_line. cbn [Name StringValue]. rewrite !append_cons.
  change (EmptyString ++ value) with value.
  change (EmptyString ++ String a ?x) with (String a x).
  rewrite ParseDockerfile_lines_instruction by (vm_compute; reflexivity).
  rewrite getToken_letter by (vm_compute; reflexivity).
  rewrite !getToken_scan_step by (vm_compute; reflexivity).
  rewrite getToken_scan_blank by (vm_compute; reflexivity).
  cbn [take drop String.eqb ToUpper].
  match goal with
  | |- context [if ?b then _ else ParseDockerfile_lines rest acc] =>
      replace b with true by (vm_compute; reflexivity)
  end.
  rewrite getToken_leading_blank by (vm_compute; reflexivity).
  rewrite (getToken_letter a _ Hab Ha).
  rewrite (getToken_scan_word word "="%char value 1 Hw) by (vm_compute; reflexivity).
  change (String a (word ++ String "="%char value))
    with (String a word ++ String "="%char value).
  change (1 + String.length word)%nat with (String.length (String a word)).
  rewrite take_length_append, drop_length_append.
  cbn [String.eqb]. cbn beta iota.
  rewrite getToken_special by (vm_compute; reflexivity).
  rewrite String.eqb_refl. reflexivity.
Qed.

Lemma ParseDockerfile_lines_ARG_lines params acc :
  Forall (fun desc => is_identifier (Name desc) = true) params ->
  ParseDockerfile_lines (map ARG_line params) acc = inr (acc ++ params)%list.
Proof.
  intros H. revert acc. induction H as [|desc params Hd _ IH]; intros acc.
  - cbn. rewrite app_nil_r. reflexivity.
  - cbn [map]. rewrite (ParseDockerfile_lines_ARG_line desc _ acc Hd), IH, <- app_assoc.
    reflexivity.
Qed.

(** X3. Parameters written out as ARG instructions, one to a line, are read
    back as they were, in the same order, when every name is a word of
    letters, digits, underscores and dashes that does not begin with a
    digit and no value has a line feed. *)
Theorem ParseDockerfile_reads_ARG_lines (params : list DockerfileExecParameterValueDesc) :
  Forall (fun desc => is_identifier (Name desc) = true /\ one_line (StringValue desc) = true)
    params ->
  ParseDockerfile (String.concat nl (map ARG_line params)) = inr params.
Proof.
  intros H. destruct params as [|desc params]; [reflexivity|].
  cbn [map]. rewrite ParseDockerfile_concat.
  change (ARG_line desc :: map ARG_line params) with (map ARG_line (desc :: params)).
  rewrite flat_map_one_line.
  - apply (ParseDockerfile_lines_ARG_lines (desc :: params) []).
    eapply Forall_impl; [exact H|]. intros d [Hd _]. exact Hd.
  - apply Forall_map. eapply Forall_impl; [exact H|]. intros d [Hd Hv].
    unfold ARG_line. rewrite !contains_char_append, (identifier_one_line _ Hd).
    unfold one_line in Hv. destruct (contains_char (ascii_of_nat 10) (StringValue d));
      [discriminate|reflexivity].
Qed.

Lemma ParseDockerfile_reads_ARG_lines_witness :
  ParseDockerfile
    (String.concat nl
       (map ARG_line [ {| Name := "user"; StringValue := "web" |};
                       {| Name := "home_dir"; StringValue := "/srv/www" |} ]))
  = inr [ {| Name := "user"; StringValue := "web" |};
          {| Name := "home_dir"; StringValue := "/srv/www" |} ].
Proof.
  apply ParseDockerfile_reads_ARG_lines.
  repeat constructor.
Defined.

(** ** ParseBuildCommandOutput *)

Lemma length_append (s t : string) :
  String.length (s ++ t) = (String.length s + String.length t)%nat.
Proof.
  induction s as [|a s IH]; [reflexivity|].
  rewrite append_cons. cbn [String.length]. rewrite IH. reflexivity.
Qed.

Lemma HasPrefix_append (p x : string) : HasPrefix (p ++ x) p = true.
Proof.
  induction p as [|a p IH]; [destruct x; reflexivity|].
  rewrite append_cons. cbn [HasPrefix]. rewrite Ascii.eqb_refl. exact IH.
Qed.

Lemma HasPrefix_split (s p : string) :
  HasPrefix s p = true -> s = p ++ drop (String.length p) s.
Proof.
  revert s. induction p as [|b p IH]; intros s H; [reflexivity|].
  destruct s as [|a s]; [discriminate|]. cbn [HasPrefix] in H.
  destruct (Ascii.eqb_spec a b) as [->|]; [|discriminate].
  rewrite append_cons. cbn [String.length drop]. rewrite <- (IH s H). reflexivity.
Qed.

Lemma TrimPrefix_append (p x : string) : TrimPrefix (p ++ x) p = x.
Proof.
  unfold TrimPrefix. rewrite HasPrefix_append. apply drop_length_append.
Qed.

Lemma TrimPrefix_shorter (s p : string) :
  (String.length (TrimPrefix s p) <? String.length s)%nat = true ->
  s = p ++ TrimPrefix s p.
Proof.
  unfold TrimPrefix. destruct (HasPrefix s p) eqn:H.
  - intros _. apply HasPrefix_split, H.
  - intros Hlt. apply Nat.ltb_lt in Hlt. lia.
Qed.

Lemma TrimPrefix_other (s p : string) :
  HasPrefix s p = false ->
  (String.length (TrimPrefix s p) <? String.length s)%nat = false.
Proof.
  intros H. unfold TrimPrefix. rewrite H. apply Nat.ltb_irrefl.
Qed.

Lemma TrimPrefix_append_shorter (p x : string) :
  p <> EmptyString ->
  (String.length (TrimPrefix (p ++ x) p) <? String.length (p ++ x))%nat = true.
Proof.
  intros Hp. rewrite TrimPrefix_append, length_append. apply Nat.ltb_lt.
  destruct p; [contradiction|]. cbn [String.length]. lia.
Qed.

Section BuildLog.

Variable Sscanf_d : string -> option Z.

Lemma loop_keeps_message lines state output step output' :
  ParseBuildCommandOutput_loop Sscanf_d lines state output step = (output', None) ->
  ErrorMessage output = EmptyString ->
  ErrorMessage output' = EmptyString
  /\ In ("Successfully built " ++ FinalDockerImageId output') lines.
Proof.
  revert state output step.
  induction lines as [|line rest IH]; intros state output step H Hmsg.
  - cbn in H. discriminate H.
  - assert (Hbody :
      (let therest := TrimPrefix line "Step " in
       if (String.length therest <? String.length line)%nat then
         let stepNo := match Sscanf_d therest with Some n => n | None => 0 end in
         let seppos := Index therest " : " in
         let added :=
           if negb (seppos =? -1) then
             let cmd := drop (Z.to_nat (seppos + Z.of_nat (String.length " : "))) therest in
             let r := AddStep stepNo cmd output in (fst r, Some (snd r))
           else (output, step) in
         ParseBuildCommandOutput_loop Sscanf_d rest 2 (fst added) (snd added)
       else
       let therest := TrimPrefix line "Successfully built " in
       if (String.length therest <? String.length line)%nat then
         (SetFinalImageId therest output, None)
       else
       let therest := TrimPrefix line "Error" in
       if (String.length therest <? String.length line)%nat then
         (SetErrorMessage therest output,
          Some (ConstructServerError (ErrorMessage (SetErrorMessage therest output))))
       else ParseBuildCommandOutput_loop Sscanf_d rest 1 output step) = (output', None) ->
      ErrorMessage output' = EmptyString
      /\ In ("Successfully built " ++ FinalDockerImageId output') (line :: rest)).
    { cbv zeta.
      destruct (String.length (TrimPrefix line "Step ") <? String.length line)%nat.
      - destruct (negb (Index (TrimPrefix line "Step ") " : " =? -1)); intros Hr;
          apply IH in Hr; try exact Hmsg; destruct Hr; split; auto using in_cons.
      - destruct (String.length (TrimPrefix line "Successfully built ")
                    <? String.length line)%nat eqn:Hs.
        + intros Hr. inversion Hr; subst. cbn [SetFinalImageId ErrorMessage FinalDockerImageId].
          split; [exact Hmsg|]. left. apply TrimPrefix_shorter, Hs.
        + destruct (String.length (TrimPrefix line "Error") <? String.length line)%nat.
          * intros Hr. discriminate Hr.
          * intros Hr. apply IH in Hr; [|exact Hmsg]. destruct Hr. split; auto using in_cons. }
    cbn [ParseBuildCommandOutput_loop] in H.
    destruct (state =? 1); [exact (Hbody H)|].
    destruct (state =? 2); [|discriminate H].
    destruct step as [p|]; [|discriminate H].
    destruct (String.length (TrimPrefix line " ---> ") <? String.length line)%nat;
      [|exact (Hbody H)].
    apply IH in H.
    + destruct H. split; auto using in_cons.
    + destruct (HasPrefix (TrimPrefix line " ---> ") "Using cache"); [exact Hmsg|].
      destruct (Contains " " (TrimPrefix line " ---> ")); exact Hmsg.
Qed.

(** X4. A build log is parsed without error only if it has a line that
    begins with the words Successfully built: the final image id is the rest of
    that line, and the error message of the output is empty. *)
Theorem ParseBuildCommandOutput_success_needs_final_line buildOutputStr output :
  ParseBuildCommandOutput Sscanf_d buildOutputStr = (output, None) ->
  ErrorMessage output = EmptyString /\
  In ("Successfully built " ++ FinalDockerImageId output)
     (split_on (ascii_of_nat 10) buildOutputStr).
Proof.
  intros H. unfold ParseBuildCommandOutput in H.
  eapply loop_keeps_message; [exact H|reflexivity].
Qed.

End BuildLog.

Lemma ParseBuildCommandOutput_success_needs_final_line_witness :
  In "Successfully built 0b8dd7a477bb" (split_on (ascii_of_nat 10) ServiceSample.build_log).
Proof.
  eapply (ParseBuildCommandOutput_success_needs_final_line ServiceSample.Sscanf_d
            ServiceSample.build_log
            {| ErrorMessage := EmptyString; FinalDockerImageId := "0b8dd7a477bb";
               Steps := [ {| StepNumber := 0; Command := "FROM ubuntu:14.04"; UsedCache := false;
                             ProducedDockerImageId := "ca4d7b1b9a51" |};
                          {| StepNumber := 1; Command := "RUN echo moo > oink"; UsedCache := true;
                             ProducedDockerImageId := "0b8dd7a477bb" |} ] |}).
  vm_compute. reflexivity.
Defined.

(** *** Decimal numbers are made of digits *)

Lemma contains_char_cons c a s :
  contains_char c (String a s) = Ascii.eqb c a || contains_char c s.
Proof. reflexivity. Qed.

Lemma pretty_N_char_digit x : contains_char (pretty_N_char x) "0123456789-" = true.
Proof. unfold pretty_N_char. repeat case_match; reflexivity. Qed.

Lemma pretty_N_go_chars c x s :
  contains_char c "0123456789-" = false -> contains_char c s = false ->
  contains_char c (pretty_N_go x s) = false.
Proof.
  intros Hc. revert s. induction (N.lt_wf_0 x) as [x _ IH]; intros s Hs.
  destruct (decide (x = 0%N)) as [->|Hx]; [rewrite pretty_N_go_0; exact Hs|].
  rewrite pretty_N_go_step by lia. apply IH; [apply N.div_lt; lia|].
  rewrite contains_char_cons, Hs, orb_false_r.
  destruct (Ascii.eqb_spec c (pretty_N_char (x `mod` 10))) as [->|]; [|reflexivity].
  rewrite pretty_N_char_digit in Hc. discriminate Hc.
Qed.

Lemma of_Z_chars c n :
  contains_char c "0123456789-" = false -> contains_char c (of_Z n) = false.
Proof.
  intros Hc.
  assert (H0 : contains_char c "0" = false).
  { pose proof Hc as H. rewrite contains_char_cons in H. apply orb_false_iff in H as [H _].
    rewrite contains_char_cons, H. reflexivity. }
  assert (Hd : contains_char c "-" = false).
  { pose proof Hc as H. unfold contains_char, chars in *.
    cbn [list_ascii_of_string existsb] in *.
    do 10 (apply orb_false_iff in H as [_ H]). exact H. }
  assert (HN : forall x : N, contains_char c (pretty x) = false).
  { intros x. unfold pretty, pretty_N. case_decide; [exact H0|].
    apply pretty_N_go_chars; [exact Hc|reflexivity]. }
  unfold of_Z, pretty, pretty_Z. destruct n as [|p|p].
  - exact H0.
  - apply HN.
  - rewrite contains_char_append, Hd. apply HN.
Qed.

(** *** The first occurrence of the separator *)

Lemma Index_from_separator (s t : string) pos :
  contains_char " "%char s = false ->
  Index_from (s ++ " : " ++ t) " : " pos = pos + Z.of_nat (String.length s).
Proof.
  revert pos. induction s as [|c s IH]; intros pos Hs.
  - change (EmptyString ++ " : " ++ t) with (" : " ++ t).
    destruct (" : " ++ t) eqn:E; [discriminate E|].
    unfold Index_from. fold Index_from. rewrite <- E, HasPrefix_append. cbn. lia.
  - rewrite contains_char_cons in Hs. apply orb_false_iff in Hs as [Hc Hs].
    rewrite append_cons. cbn [Index_from HasPrefix].
    rewrite Ascii.eqb_sym, Hc, (IH (pos + 1) Hs). cbn [String.length]. lia.
Qed.

(** *** One line at a time *)

Lemma Contains_space_only (s : string) :
  s <> EmptyString -> s <> " " -> Contains " " s = false.
Proof.
  intros H0 H1. destruct s as [|b [|b' s]]; [contradiction| |].
  - unfold Contains, Index. cbn [Index_from HasPrefix].
    destruct (Ascii.eqb_spec " "%char b) as [<-|]; [contradiction|reflexivity].
  - unfold Contains, Index. cbn [Index_from HasPrefix].
    destruct (Ascii.eqb " "%char b); reflexivity.
Qed.

Lemma alter_last {A} (f : A -> A) (l : list A) (x : A) :
  alter f (length l) (l ++ [x])%list = (l ++ [f x])%list.
Proof.
  rewrite <- (Nat.add_0_r (length l)), alter_app_r. reflexivity.
Qed.

Section BuildLogLines.

Variable Sscanf_d : string -> option Z.

Lemma loop_from_state2 line rest output p :
  HasPrefix line " ---> " = false ->
  ParseBuildCommandOutput_loop Sscanf_d (line :: rest) 2 output (Some p)
  = ParseBuildCommandOutput_loop Sscanf_d (line :: rest) 1 output (Some p).
Proof.
  intros H. cbn [ParseBuildCommandOutput_loop Z.eqb Pos.eqb].
  rewrite (TrimPrefix_other line " ---> " H). reflexivity.
Qed.

Lemma loop_step_line n cmd rest output step :
  Sscanf_d (of_Z n ++ " : " ++ cmd) = Some n ->
  ParseBuildCommandOutput_loop Sscanf_d (("Step " ++ of_Z n ++ " : " ++ cmd) :: rest) 1
    output step
  = ParseBuildCommandOutput_loop Sscanf_d rest 2
      {| ErrorMessage := ErrorMessage output;
         FinalDockerImageId := FinalDockerImageId output;
         Steps := Steps output ++ [NewDockerBuildStep n cmd] |}
      (Some (length (Steps output))).
Proof.
  intros Hscan. cbn [ParseBuildCommandOutput_loop Z.eqb Pos.eqb]. cbv zeta.
  rewrite (TrimPrefix_append_shorter "Step " (of_Z n ++ " : " ++ cmd)) by discriminate.
  rewrite !TrimPrefix_append, Hscan. unfold Index.
  rewrite Index_from_separator by (apply of_Z_chars; reflexivity).
  replace (negb (0 + Z.of_nat (String.length (of_Z n)) =? -1)) with true
    by (symmetry; apply negb_true_iff, Z.eqb_neq; lia).
  replace (Z.to_nat (0 + Z.of_nat (String.length (of_Z n)) + Z.of_nat (String.length " : ")))
    with (String.length (of_Z n ++ " : ")) by (rewrite length_append; cbn; lia).
  rewrite <- (append_assoc (of_Z n) " : " cmd), drop_length_append.
  reflexivity.
Qed.

Lemma loop_arrow_line t rest output p :
  ParseBuildCommandOutput_loop Sscanf_d ((" ---> " ++ t) :: rest) 2 output (Some p)
  = ParseBuildCommandOutput_loop Sscanf_d rest 2
      (if HasPrefix t "Using cache" then update_step SetUsedCache p output
       else if Contains " " t then output
       else update_step (SetProducedImageId t) p output)
      (Some p).
Proof.
  cbn [ParseBuildCommandOutput_loop Z.eqb Pos.eqb]. cbv zeta.
  rewrite (TrimPrefix_append_shorter " ---> " t) by discriminate.
  rewrite !TrimPrefix_append. reflexivity.
Qed.

Lemma loop_blank_line rest output p :
  ParseBuildCommandOutput_loop Sscanf_d (EmptyString :: rest) 2 output (Some p)
  = ParseBuildCommandOutput_loop Sscanf_d rest 1 output (Some p).
Proof. reflexivity. Qed.

Lemma loop_final_line id rest output step :
  ParseBuildCommandOutput_loop Sscanf_d (("Successfully built " ++ id) :: rest) 1 output step
  = (SetFinalImageId id output, None).
Proof.
  cbn [ParseBuildCommandOutput_loop Z.eqb Pos.eqb]. cbv zeta.
  rewrite (TrimPrefix_other ("Successfully built " ++ id) "Step ") by reflexivity.
  rewrite (TrimPrefix_append_shorter "Successfully built " id) by discriminate.
  rewrite TrimPrefix_append. reflexivity.
Qed.

Lemma loop_step_lines st rest output step state :
  state = 1 \/ (state = 2 /\ exists p, step = Some p) ->
  step_reads_back Sscanf_d st ->
  exists state' p',
    (state' = 1 \/ state' = 2) /\
    ParseBuildCommandOutput_loop Sscanf_d (step_lines st ++ rest) state output step
    = ParseBuildCommandOutput_loop Sscanf_d rest state'
        {| ErrorMessage := ErrorMessage output;
           FinalDockerImageId := FinalDockerImageId output;
           Steps := Steps output ++ [st] |}
        (Some p').
Proof.
  intros Hstate (Hcmd & Hscan & Hcache & Hid1 & Hid2 & Hid3).
  destruct st as [n cmd cache id]. cbn [StepNumber Command UsedCache ProducedDockerImageId] in *.
  unfold step_lines. cbn [StepNumber Command UsedCache ProducedDockerImageId app].
  assert (Hfirst :
    ParseBuildCommandOutput_loop Sscanf_d
      (("Step " ++ of_Z n ++ " : " ++ cmd)
         :: ((if cache then " ---> Using cache" else EmptyString)
               ++ (if negb (String.eqb id EmptyString) then " ---> " ++ id else EmptyString))
         :: rest) state output step
    = ParseBuildCommandOutput_loop Sscanf_d
        (((if cache then " ---> Using cache" else EmptyString)
            ++ (if negb (String.eqb id EmptyString) then " ---> " ++ id else EmptyString))
           :: rest) 2
        {| ErrorMessage := ErrorMessage output;
           FinalDockerImageId := FinalDockerImageId output;
           Steps := Steps output ++ [NewDockerBuildStep n cmd] |}
        (Some (length (Steps output)))).
  { destruct Hstate as [->|[-> [p ->]]].
    - apply loop_step_line, Hscan.
    - rewrite loop_from_state2 by reflexivity. apply loop_step_line, Hscan. }
  rewrite Hfirst. clear Hfirst.
  destruct cache.
  - rewrite (Hcache eq_refl). cbn [String.eqb negb].
    change (" ---> Using cache" ++ EmptyString) with (" ---> " ++ "Using cache").
    rewrite loop_arrow_line.
    change (HasPrefix "Using cache" "Using cache") with true. cbv iota.
    exists 2, (length (Steps output)). split; [right; reflexivity|].
    unfold update_step. cbn [Steps ErrorMessage FinalDockerImageId].
    rewrite alter_last. reflexivity.
  - destruct (String.eqb_spec id EmptyString) as [->|Hne].
    + cbn [negb]. change (EmptyString ++ EmptyString) with EmptyString.
      rewrite loop_blank_line.
      exists 1, (length (Steps output)). split; [left; reflexivity|]. reflexivity.
    + cbn [negb]. change (EmptyString ++ " ---> " ++ id) with (" ---> " ++ id).
      rewrite loop_arrow_line, Hid2, (Contains_space_only id Hne Hid3).
      exists 2, (length (Steps output)). split; [right; reflexivity|].
      unfold update_step. cbn [Steps ErrorMessage FinalDockerImageId].
      rewrite alter_last. reflexivity.
Qed.

Lemma loop_reads_steps steps final output step state :
  state = 1 \/ (state = 2 /\ exists p, step = Some p) ->
  Forall (step_reads_back Sscanf_d) steps ->
  ParseBuildCommandOutput_loop Sscanf_d
    (flat_map step_lines steps ++ ["Successfully built " ++ final]) state output step
  = ({| ErrorMessage := ErrorMessage output; FinalDockerImageId := final;
        Steps := Steps output ++ steps |}, None).
Proof.
  intros Hstate Hsteps. revert output step state Hstate.
  induction Hsteps as [|st steps Hst _ IH]; intros output step state Hstate.
  - cbn [flat_map app]. rewrite app_nil_r.
    destruct Hstate as [->|[-> [p ->]]].
    + apply loop_final_line.
    + rewrite loop_from_state2 by reflexivity. apply loop_final_line.
  - cbn [flat_map]. rewrite <- app_assoc.
    destruct (loop_step_lines st (flat_map step_lines steps ++ ["Successfully built " ++ final])
                output step state Hstate Hst) as [state' [p' [Hs' ->]]].
    rewrite IH.
    + cbn [ErrorMessage FinalDockerImageId Steps]. rewrite <- app_assoc. reflexivity.
    + destruct Hs' as [->| ->]; [left; reflexivity|right; split; [reflexivity|eauto]].
Qed.

End BuildLogLines.

(** *** A whole log *)

Lemma Step_String_lines st :
  Step_String st
  = match step_lines st with
    | [l1; l2] => l1 ++ String (ascii_of_nat 10) (l2 ++ String (ascii_of_nat 10) EmptyString)
    | _ => EmptyString
    end.
Proof.
  unfold Step_String, step_lines, nl.
  destruct (UsedCache st), (negb (String.eqb (ProducedDockerImageId st) EmptyString));
    rewrite ?append_assoc, ?append_nil_r; reflexivity.
Qed.

Lemma Output_String_steps_acc steps s :
  Output_String_steps steps s = s ++ Output_String_steps steps EmptyString.
Proof.
  revert s. induction steps as [|st steps IH]; intros s.
  - cbn. rewrite append_nil_r. reflexivity.
  - cbn [Output_String_steps]. rewrite IH, (IH (EmptyString ++ Step_String st)).
    change (EmptyString ++ Step_String st) with (Step_String st).
    rewrite append_assoc. reflexivity.
Qed.

Lemma step_lines_one_line Sscanf_d st :
  step_reads_back Sscanf_d st ->
  Forall (fun l => contains_char (ascii_of_nat 10) l = false) (step_lines st).
Proof.
  intros (Hcmd & _ & _ & Hid & _ & _). unfold one_line in *.
  apply negb_true_iff in Hcmd. apply negb_true_iff in Hid.
  unfold step_lines. repeat constructor.
  - rewrite !contains_char_append, Hcmd,
      (of_Z_chars (ascii_of_nat 10) (StepNumber st) eq_refl). reflexivity.
  - rewrite contains_char_append.
    destruct (UsedCache st), (negb (String.eqb (ProducedDockerImageId st) EmptyString));
      rewrite ?contains_char_append, ?Hid; reflexivity.
Qed.

Lemma split_on_two_lines c (l1 l2 tail : string) :
  contains_char c l1 = false -> contains_char c l2 = false ->
  split_on c ((l1 ++ String c (l2 ++ String c EmptyString)) ++ tail)
  = l1 :: l2 :: split_on c tail.
Proof.
  intros H1 H2. rewrite append_assoc, append_cons, append_assoc, append_cons.
  change (EmptyString ++ tail) with tail.
  rewrite split_on_app, split_on_app.
  rewrite (split_on_one_line _ _ H1), (split_on_one_line _ _ H2). reflexivity.
Qed.

Lemma split_on_Output_String Sscanf_d steps tail :
  Forall (step_reads_back Sscanf_d) steps ->
  split_on (ascii_of_nat 10) (Output_String_steps steps EmptyString ++ tail)
  = (flat_map step_lines steps ++ split_on (ascii_of_nat 10) tail)%list.
Proof.
  induction 1 as [|st steps Hst _ IH]; [reflexivity|].
  cbn [Output_String_steps flat_map]. rewrite Output_String_steps_acc.
  change (EmptyString ++ Step_String st) with (Step_String st).
  pose proof (step_lines_one_line Sscanf_d st Hst) as Hone.
  rewrite (append_assoc (Step_String st)).
  rewrite Step_String_lines. unfold step_lines in *.
  inversion Hone as [|l1 ? H1 Hone']; subst. inversion Hone' as [|l2 ? H2 _]; subst.
  cbv beta iota. rewrite (split_on_two_lines _ _ _ _ H1 H2), IH. reflexivity.
Qed.

(** X5. A build output written out with [String] and followed by the line
    of the final image is parsed back to the same steps, in the same
    order, with that final image id, an empty error message and no error:
    provided each step reads back, which leaves out the steps that both
    used the cache and produced an image, since [String] writes these two
    facts on one line. *)
Theorem ParseBuildCommandOutput_reads_String
  (Sscanf_d : string -> option Z) (buildOutput : DockerBuildOutput) (final : string) :
  Forall (step_reads_back Sscanf_d) (Steps buildOutput) ->
  one_line final = true ->
  ParseBuildCommandOutput Sscanf_d
    (Output_String buildOutput ++ "Successfully built " ++ final)
  = ({| ErrorMessage := EmptyString; FinalDockerImageId := final;
        Steps := Steps buildOutput |}, None).
Proof.
  intros Hsteps Hfinal. unfold ParseBuildCommandOutput, Output_String.
  rewrite (split_on_Output_String Sscanf_d _ _ Hsteps).
  rewrite (split_on_one_line _ ("Successfully built " ++ final)).
  - apply (loop_reads_steps Sscanf_d (Steps buildOutput) final NewDockerBuildOutput None 1);
      [left; reflexivity|exact Hsteps].
  - rewrite contains_char_append. unfold one_line in Hfinal.
    apply negb_true_iff in Hfinal. rewrite Hfinal. reflexivity.
Qed.

Lemma ParseBuildCommandOutput_reads_String_witness :
  ParseBuildCommandOutput ServiceSample.Sscanf_d
    (Output_String
       {| ErrorMessage := EmptyString; FinalDockerImageId := EmptyString;
          Steps := [ {| StepNumber := 0; Command := "FROM ubuntu:14.04"; UsedCache := false;
                        ProducedDockerImageId := "ca4d7b1b9a51" |};
                     {| StepNumber := 1; Command := "RUN echo moo : oink"; UsedCache := true;
                        ProducedDockerImageId := EmptyString |} ] |}
       ++ "Successfully built " ++ "0b8dd7a477bb")
  = ({| ErrorMessage := EmptyString; FinalDockerImageId := "0b8dd7a477bb";
        Steps := [ {| StepNumber := 0; Command := "FROM ubuntu:14.04"; UsedCache := false;
                      ProducedDockerImageId := "ca4d7b1b9a51" |};
                   {| StepNumber := 1; Command := "RUN echo moo : oink"; UsedCache := true;
                      ProducedDockerImageId := EmptyString |} ] |}, None).
Proof.
  apply (ParseBuildCommandOutput_reads_String ServiceSample.Sscanf_d
           {| ErrorMessage := EmptyString; FinalDockerImageId := EmptyString;
              Steps := [ {| StepNumber := 0; Command := "FROM ubuntu:14.04"; UsedCache := false;
                            ProducedDockerImageId := "ca4d7b1b9a51" |};
                         {| StepNumber := 1; Command := "RUN echo moo : oink"; UsedCache := true;
                            ProducedDockerImageId := EmptyString |} ] |}
           "0b8dd7a477bb").
  - repeat constructor; try (vm_compute; reflexivity); try discriminate.
  - reflexivity.
Defined.

(** ** ParseBuildRESTOutput *)

Section RestOutput.

Variable P : Platform.
Variable Sscanf_d : string -> option Z.
Variable ReadLines : string -> list string.

Lemma extractBuildOutput_lines_text lines values rest output :
  Forall2 (fun line value =>
             exists msgMap, json_Unmarshal P line = inr (JObj msgMap) /\
               (map_index msgMap "stream" = JStr value \/
                (map_index msgMap "stream" = JNull /\ map_index msgMap "status" = JStr value)))
    lines values ->
  extractBuildOutput_lines P (lines ++ rest) output
  = extractBuildOutput_lines P rest (output ++ fold_right String.append EmptyString values).
Proof.
  intros H. revert output. induction H as [|line value lines values Hline _ IH]; intros output.
  - cbn [app fold_right]. rewrite append_nil_r. reflexivity.
  - destruct Hline as [msgMap [Hj Hv]]. cbn [app extractBuildOutput_lines fold_right].
    rewrite Hj. destruct Hv as [Hs|[Hs Ht]].
    + rewrite Hs, IH, append_assoc. reflexivity.
    + rewrite Hs, Ht, IH, append_assoc. reflexivity.
Qed.

(** X6. When every line of the answer of the engine is an object with a
    text in its stream field, or without stream field and with a text in
    its status field, the answer is parsed as the build log made of these
    texts put end to end, in the order of the lines. *)
Theorem ParseBuildRESTOutput_joins_streams restResponse values :
  Forall2 (fun line value =>
             exists msgMap, json_Unmarshal P line = inr (JObj msgMap) /\
               (map_index msgMap "stream" = JStr value \/
                (map_index msgMap "stream" = JNull /\ map_index msgMap "status" = JStr value)))
    (ReadLines restResponse) values ->
  ParseBuildRESTOutput P Sscanf_d ReadLines restResponse
  = (Some (fst (ParseBuildCommandOutput Sscanf_d
                  (fold_right String.append EmptyString values))),
     match snd (ParseBuildCommandOutput Sscanf_d
                  (fold_right String.append EmptyString values)) with
     | Some e => Some (Plain e)
     | None => None
     end).
Proof.
  intros H. unfold ParseBuildRESTOutput, extractBuildOutputFromRESTResponse.
  rewrite <- (app_nil_r (ReadLines restResponse)).
  rewrite (extractBuildOutput_lines_text _ values [] EmptyString H).
  reflexivity.
Qed.


End RestOutput.

Lemma ParseBuildRESTOutput_joins_streams_witness :
  ParseBuildRESTOutput ServiceSample.platform ServiceSample.Sscanf_d ServiceSample.ReadLines
    (ServiceSample.stream_line_1 ++ nl ++ ServiceSample.stream_line_2 ++ nl)
  = (Some {| ErrorMessage := EmptyString; FinalDockerImageId := "ab";
             Steps := [ {| StepNumber := 0; Command := "FROM ubuntu"; UsedCache := false;
                           ProducedDockerImageId := EmptyString |} ] |},
     None).
Proof.
  rewrite (ParseBuildRESTOutput_joins_streams ServiceSample.platform ServiceSample.Sscanf_d
             ServiceSample.ReadLines
             (ServiceSample.stream_line_1 ++ nl ++ ServiceSample.stream_line_2 ++ nl)
             ["Step 0 : FROM ubuntu" ++ nl; "Successfully built ab" ++ nl]).
  - vm_compute. reflexivity.
  - change (ServiceSample.ReadLines
              (ServiceSample.stream_line_1 ++ nl ++ ServiceSample.stream_line_2 ++ nl))
      with [ServiceSample.stream_line_1; ServiceSample.stream_line_2].
    repeat constructor; eexists; (split; [vm_compute; reflexivity|left; vm_compute; reflexivity]).
Defined.


(** ** More on the name validator *)

Module NameMore.
Import Regexp Names RegexpFacts NameFacts.

Lemma part_class_codes c :
  in_class [lower; digit; one "-"%char; one "_"%char] c = true
  <-> ((97 <= nat_of_ascii c <= 122) \/ (48 <= nat_of_ascii c <= 57)
       \/ nat_of_ascii c = 45 \/ nat_of_ascii c = 95)%nat.
Proof.
  unfold in_class, in_range, lower, digit, one. cbn [existsb fst snd].
  change (nat_of_ascii "a") with 97%nat. change (nat_of_ascii "z") with 122%nat.
  change (nat_of_ascii "0") with 48%nat. change (nat_of_ascii "9") with 57%nat.
  change (nat_of_ascii "-") with 45%nat. change (nat_of_ascii "_") with 95%nat.
  rewrite !orb_true_iff, !andb_true_iff, !Nat.leb_le. split.
  - intros [H|[H|[H|[H|H]]]]; [lia|lia|lia|lia|discriminate H].
  - intros [H|[H|[H|H]]]; [left|right; left|right; right; left|right; right; right; left]; lia.
Qed.

(** X8. [NamePartConformsToDockerRules] accepts a string exactly when each
    of its characters is a lower-case letter, a digit, a dash or an
    underscore, so also the empty string and strings that begin or end
    with a dash; every other string gets the one error of the function. *)
Theorem NamePart_accepts_exactly (part : string) :
  (NamePartConformsToDockerRules part = None
   <-> Forall (fun c => (97 <= nat_of_ascii c <= 122) \/ (48 <= nat_of_ascii c <= 57)
                        \/ nat_of_ascii c = 45 \/ nat_of_ascii c = 95)%nat (chars part)) /\
  (NamePartConformsToDockerRules part = None \/
   NamePartConformsToDockerRules part
     = Some (ServerError "Name does not conform to docker rules")).
Proof.
  split.
  - rewrite NamePart_accepts_iff, forallb_forall, List.Forall_forall.
    split; intros H c Hc; apply part_class_codes, H, Hc.
  - destruct (forallb (in_class [lower; digit; one "-"%char; one "_"%char]) (chars part))
      eqn:H.
    + left. apply NamePart_accepts_iff, H.
    + right. apply NamePart_rejects, H.
Qed.

(** X9. The image name [ConstructDockerImageName] builds from a realm, a
    repository and an image name is never accepted by
    [NamePartConformsToDockerRules]: the validator is for one component, and
    the name has slashes. *)
Theorem constructed_name_is_not_a_part (shRealmName shRepoName shImageName version : string) :
  NamePartConformsToDockerRules
    (fst (ConstructDockerImageName shRealmName shRepoName shImageName version))
  = Some (ServerError "Name does not conform to docker rules").
Proof.
  apply NamePart_rejects. unfold ConstructDockerImageName. cbn [fst].
  destruct (forallb _ _) eqn:H; [|reflexivity].
  rewrite forallb_forall in H.
  assert (Hin : In "/"%char (chars (shRealmName ++ "/" ++ shRepoName ++ "/" ++ shImageName))).
  { unfold chars. clear H. induction shRealmName as [|a s IH].
    - left. reflexivity.
    - rewrite append_cons. right. exact IH. }
  specialize (H _ Hin). discriminate H.
Qed.

End NameMore.

(** ** RemoveDockerImage *)

Section Removal.

Variable P : Platform.

Lemma DeleteImage_stops_after_GET repoName tag w :
  exists e,
    DeleteImage P repoName tag w
    = (Done (Some e),
       snd (exchange (Basic "GET" ("v2/" ++ repoName ++ "/manifests/" ++ tag) [] []) w)).
Proof.
  unfold DeleteImage, bind, SendBasicGet, exchange.
  destruct (replies w) as [|[e|resp] rest]; try (eexists; reflexivity).
  unfold GenerateError. cbn [close_body StatusCode Status Body].
  destruct (status_is_success P (StatusCode resp)); [|eexists; reflexivity].
  rewrite parseManifest_closed. eexists. reflexivity.
Qed.

Lemma Engine_DeleteImage_run repoName tag w :
  exists r,
    Engine.DeleteImage P repoName tag w
    = (Done r,
       snd (exchange
              (Basic "DELETE"
                 (if negb (String.eqb tag EmptyString)
                  then ("images/" ++ repoName) ++ ":" ++ tag else "images/" ++ repoName)
                 [] []) w)).
Proof.
  unfold Engine.DeleteImage, bind, SendBasicDelete, exchange.
  destruct (replies w) as [|[e|resp] rest]; eexists; reflexivity.
Qed.

(** X10. With the registry client as the registry, [RemoveDockerImage] never
    returns nil: it asks the engine to delete the image, then the registry
    client, which only reads the manifest and fails. The two requests it
    issues are the DELETE to the engine and the GET of the manifest; no
    DELETE goes to the registry, and what the engine answered is not in the
    result. *)
Theorem RemoveDockerImage_with_registry_fails
  registry GetImage GetImages BuildImage PushImage repoName tag w :
  let dockerSvcs :=
    NewDockerServices (Some (DockerRegistryImpl P registry GetImage))
      (DockerEngineImpl P GetImages BuildImage PushImage) in
  result_of (RemoveDockerImage dockerSvcs repoName tag) w <> Done None /\
  result_of (RemoveDockerImage dockerSvcs repoName tag) w
    = result_of (DeleteImage P repoName tag)
        (world_after (Engine.DeleteImage P repoName tag) w) /\
  issued (RemoveDockerImage dockerSvcs repoName tag) w
    = [ Basic "DELETE"
          (if negb (String.eqb tag EmptyString)
           then ("images/" ++ repoName) ++ ":" ++ tag else "images/" ++ repoName) [] [];
        Basic "GET" ("v2/" ++ repoName ++ "/manifests/" ++ tag) [] [] ].
Proof.
  intros dockerSvcs.
  destruct (Engine_DeleteImage_run repoName tag w) as [r Hengine].
  set (w1 := snd (exchange
                    (Basic "DELETE"
                       (if negb (String.eqb tag EmptyString)
                        then ("images/" ++ repoName) ++ ":" ++ tag else "images/" ++ repoName)
                       [] []) w)) in *.
  destruct (DeleteImage_stops_after_GET repoName tag w1) as [e Hregistry].
  assert (Hrun : RemoveDockerImage dockerSvcs repoName tag w
                 = (Done (Some e),
                    snd (exchange (Basic "GET" ("v2/" ++ repoName ++ "/manifests/" ++ tag) [] [])
                           w1))).
  { unfold RemoveDockerImage, dockerSvcs, NewDockerServices, DockerRegistryImpl,
      DockerEngineImpl. cbn [Registry Engine Engine_DeleteImage Registry_DeleteImage].
    rewrite (bind_run _ _ _ _ _ Hengine). cbn beta iota.
    unfold bind at 1. rewrite Hregistry. reflexivity. }
  unfold result_of, world_after. rewrite Hrun, Hengine. cbn [fst snd].
  rewrite Hregistry. cbn [fst snd].
  split; [discriminate|]. split; [reflexivity|].
  apply issued_suffix. unfold world_after. rewrite Hrun. cbn [snd].
  rewrite exchange_sent. unfold w1. rewrite exchange_sent, <- app_assoc. reflexivity.
Qed.

End Removal.

(** ** The engine client *)

Section EngineFacts.

Variable P : Platform.

(** X11. [GetImage] of the engine client writes into a file that must be
    there already. When the engine answers with a success status: if
    nothing is at the path, the result is the error of the opening and no
    file is made; if a file is there, the body of the answer is written
    over its start, what the file had beyond that length stays, and the
    result is nil unless the file is empty afterwards, which is the
    zero-size error. *)
Theorem Engine_GetImage_needs_the_file repoNameAndTag filepath w resp rest :
  replies w = inr resp :: rest ->
  status_is_success P (StatusCode resp) = true ->
  stream_closed (Body resp) = false ->
  (fs w !! filepath = None ->
     result_of (Engine.GetImage P repoNameAndTag filepath) w
       = Done (Some (ServerError ("When opening file '" ++ filepath ++ "': open " ++ filepath
                                    ++ ": no such file or directory"))) /\
     fs (world_after (Engine.GetImage P repoNameAndTag filepath) w) = fs w) /\
  (forall old, fs w !! filepath = Some (File old) ->
     let content :=
       stream_data (Body resp) ++ drop (String.length (stream_data (Body resp))) old in
     fs (world_after (Engine.GetImage P repoNameAndTag filepath) w) !! filepath
       = Some (File content) /\
     result_of (Engine.GetImage P repoNameAndTag filepath) w
       = Done (if (String.length content =? 0)%nat
               then Some (ServerError ("Layer file that was written, '" ++ filepath
                                         ++ "', has zero size"))
               else None)) /\
  issued (Engine.GetImage P repoNameAndTag filepath) w
    = [Basic "GET" ("images/" ++ repoNameAndTag ++ "/get") [] []].
Proof.
  intros Hr Hok Hopen.
  assert (Hstart : forall k : error + Response -> M (option error),
            bind (SendBasicGet ("images/" ++ repoNameAndTag ++ "/get")) k w
            = k (inr resp)
                {| fs := fs w; tmp_next := tmp_next w;
                   sent := sent w ++ [Basic "GET" ("images/" ++ repoNameAndTag ++ "/get") [] []];
                   replies := rest |}).
  { intros k. apply bind_run. unfold SendBasicGet. apply exchange_reply, Hr. }
  split; [|split].
  - intros Hnone. unfold result_of, world_after, Engine.GetImage.
    rewrite Hstart. unfold GenerateError. rewrite Hok.
    unfold bind, Engine.os_OpenFile_wronly. cbn [fs]. rewrite Hnone.
    split; reflexivity.
  - intros old Hfile content. unfold result_of, world_after, Engine.GetImage.
    rewrite Hstart. unfold GenerateError. rewrite Hok, Hopen.
    unfold bind, Engine.os_OpenFile_wronly, io_Copy_to, Engine.file_size. cbn [fs].
    rewrite Hfile. cbn [fst snd set_fs fs]. rewrite Hfile. cbn [fst snd set_fs fs].
    rewrite lookup_insert_eq. fold content. cbn [fst snd].
    replace (Z.of_nat (String.length content) =? 0) with (String.length content =? 0)%nat.
    + destruct (String.length content =? 0)%nat; unfold ret; cbn [fst snd fs set_fs];
        rewrite ?lookup_insert_eq; split; reflexivity.
    + destruct (Nat.eqb_spec (String.length content) 0) as [->|Hne]; [reflexivity|].
      symmetry. apply Z.eqb_neq. lia.
  - apply issued_suffix. unfold world_after, Engine.GetImage.
    rewrite Hstart. unfold GenerateError. rewrite Hok, Hopen.
    unfold bind, Engine.os_OpenFile_wronly, io_Copy_to, Engine.file_size. cbn [fs].
    destruct (fs w !! filepath) as [[|old]|] eqn:Hfile; try reflexivity.
    cbn [fst snd set_fs fs]. rewrite Hfile. cbn [fst snd set_fs fs].
    rewrite lookup_insert_eq. cbn [fst snd].
    destruct (Z.of_nat _ =? 0); reflexivity.
Qed.

End EngineFacts.

Lemma Engine_GetImage_needs_the_file_witness :
  result_of (Engine.GetImage Sample.platform "acme/app:v1" "/tmp/image.tar")
    (Sample.world ∅ [Sample.response 200 "200 OK" ∅ "image bytes"])
  = Done (Some (ServerError
                  "When opening file '/tmp/image.tar': open /tmp/image.tar: no such file or directory")).
Proof.
  apply (Engine_GetImage_needs_the_file Sample.platform "acme/app:v1" "/tmp/image.tar"
           (Sample.world ∅ [Sample.response 200 "200 OK" ∅ "image bytes"]) _ [] eq_refl);
    reflexivity.
Defined.

(** ** Opening a connection *)

Section ConnectionFacts.

Variable P : Platform.

(** X12. [OpenDockerRegistryConnection] sends one request, the GET of
    [v2/] of [Ping], and gives a connection only when that is answered with
    a success status; the connection then has the scheme [http] and the
    host, port, user and password given. An answer with another status is
    the error of [Ping], and an error of the transport is returned as it
    is. *)
Theorem OpenDockerRegistryConnection_pings_first host port userId password w answer rest :
  replies w = answer :: rest ->
  issued (OpenDockerRegistryConnection P host port userId password) w
    = [Basic "GET" "v2/" [] []] /\
  result_of (OpenDockerRegistryConnection P host port userId password) w
    = Done match answer with
           | inl err => inl err
           | inr response =>
               if status_is_success P (StatusCode response)
               then inr {| GetScheme := "http"; GetHostname := host; GetPort := port;
                           GetUserId := userId; GetPassword := password |}
               else inl (StatusError (StatusCode response) (Status response ++ "; in Ping"))
           end.
Proof.
  intros Hr.
  assert (Hrun : OpenDockerRegistryConnection P host port userId password w
                 = (Done match answer with
                         | inl err => inl err
                         | inr response =>
                             if status_is_success P (StatusCode response)
                             then inr {| GetScheme := "http"; GetHostname := host;
                                         GetPort := port; GetUserId := userId;
                                         GetPassword := password |}
                             else inl (StatusError (StatusCode response)
                                         (Status response ++ "; in Ping"))
                         end,
                    {| fs := fs w; tmp_next := tmp_next w;
                       sent := sent w ++ [Basic "GET" "v2/" [] []]; replies := rest |})).
  { unfold OpenDockerRegistryConnection, Ping, bind, SendBasicGet, GenerateError.
    rewrite (exchange_reply _ _ _ _ Hr).
    destruct answer as [err|response]; [reflexivity|].
    destruct (status_is_success P (StatusCode response)); reflexivity. }
  split.
  - apply issued_suffix. unfold world_after. rewrite Hrun. reflexivity.
  - unfold result_of. rewrite Hrun. reflexivity.
Qed.

End ConnectionFacts.

Lemma OpenDockerRegistryConnection_pings_first_witness :
  result_of (OpenDockerRegistryConnection Sample.platform "registry.local" 5000 "user" "secret")
    (Sample.world ∅ [Sample.response 401 "401 Unauthorized" ∅ EmptyString])
  = Done (inl (StatusError 401 "401 Unauthorized; in Ping")).
Proof.
  apply (OpenDockerRegistryConnection_pings_first Sample.platform "registry.local" 5000
           "user" "secret"
           (Sample.world ∅ [Sample.response 401 "401 Unauthorized" ∅ EmptyString])
           _ [] eq_refl).
Defined.

(** ** The upload session of PushLayer *)

Section UploadSession.

Variable P : Platform.
Variable registry : RestContext.

(** X13. When the layer is not in the repository and the registry accepts
    the POST that opens an upload, [PushLayer] goes on only if the answer
    has exactly one value for the [Location] header. Without the header the
    result is the error [No Location header]; with the header holding no
    value or several it is [Unexpected Location header]. In both cases the
    digest is returned with the error, and the HEAD of the probe and the
    POST are the only requests sent. *)
Theorem PushLayer_needs_one_Location layerFilePath repoName w content probe session rest :
  fs w !! layerFilePath = Some (File content) ->
  replies w = inr probe :: inr session :: rest ->
  StatusCode probe = 404 ->
  status_is_success P (StatusCode session) = true ->
  (forall location, Header session !! "Location" <> Some [location]) ->
  let digestString := hex_EncodeToString (sha256_Sum P content) in
  result_of (PushLayer P registry layerFilePath repoName) w
    = Done (digestString,
            Some (ServerError match Header session !! "Location" with
                              | None => "No Location header"
                              | Some _ => "Unexpected Location header"
                              end)) /\
  issued (PushLayer P registry layerFilePath repoName) w
    = [ Basic "HEAD" ("v2/" ++ repoName ++ "/blobs/" ++ digestString) [] [];
        Basic "POST" ("v2/" ++ repoName ++ "/blobs/uploads/") [] [] ].
Proof.
  intros Hfile Hr Hprobe Hok Hloc digestString.
  assert (Hrun : PushLayer P registry layerFilePath repoName w =
    (Done (digestString,
           Some (ServerError match Header session !! "Location" with
                             | None => "No Location header"
                             | Some _ => "Unexpected Location header"
                             end)),
     {| fs := fs w; tmp_next := tmp_next w;
        sent := (sent w ++ [Basic "HEAD" ("v2/" ++ repoName ++ "/blobs/" ++ digestString) [] []])
                  ++ [Basic "POST" ("v2/" ++ repoName ++ "/blobs/uploads/") [] []];
        replies := rest |})).
  { unfold PushLayer, ComputeFileDigest. unfold bind at 1 2 3. unfold read_file at 1.
    rewrite Hfile. unfold ret at 1.
    rewrite (LayerExistsInRepo_run P repoName _ w probe (inr session :: rest) Hr).
    rewrite Hprobe. cbn [Z.eqb Pos.eqb fst snd].
    unfold SendBasicFormPost. erewrite bind_run; [|apply exchange_reply; reflexivity].
    cbn beta iota. unfold GenerateError. rewrite Hok.
    cbn [fs tmp_next sent replies].
    destruct (Header session !! "Location") as [[|location [|second more]]|] eqn:Hh;
      try reflexivity.
    exfalso. exact (Hloc location eq_refl). }
  split.
  - unfold result_of. rewrite Hrun. reflexivity.
  - apply issued_suffix. unfold world_after. rewrite Hrun. cbn [snd sent].
    rewrite <- app_assoc. reflexivity.
Qed.

End UploadSession.

Lemma PushLayer_needs_one_Location_witness :
  result_of (PushLayer Sample.platform Sample.registry "/l1/layer.tar" "acme/app")
    (Sample.world Sample.layer_files
       [ Sample.response 404 "404 Not Found" ∅ EmptyString;
         Sample.response 202 "202 Accepted" ∅ EmptyString ])
  = Done (hex_EncodeToString "layer", Some (ServerError "No Location header")).
Proof.
  refine (proj1 (PushLayer_needs_one_Location Sample.platform Sample.registry
                   "/l1/layer.tar" "acme/app"
                   (Sample.world Sample.layer_files
                      [ Sample.response 404 "404 Not Found" ∅ EmptyString;
                        Sample.response 202 "202 Accepted" ∅ EmptyString ])
                   "layer" _ _ [] _ eq_refl eq_refl eq_refl _)).
  - vm_compute. reflexivity.
  - intros location. vm_compute. discriminate.
Defined.

(** ** GetImageInfo that succeeds *)

Section ImageInfo.

Variable P : Platform.

(** X14. When the manifest GET is answered with a success status, a body
    that decodes to an object whose [fsLayers] is an array of objects, and
    at least one value for the [Docker-Content-Digest] header,
    [GetImageInfo] returns the first value of that header as the digest and
    the layer objects in the order of the manifest, with no error. It sends
    that one GET and leaves the file system as it was. *)
Theorem GetImageInfo_returns_digest_and_layers
  repoName tag w resp rest (manifest : gmap string json) layers digest more :
  replies w = inr resp :: rest ->
  status_is_success P (StatusCode resp) = true ->
  stream_closed (Body resp) = false ->
  json_Unmarshal P (stream_data (Body resp)) = inr (JObj manifest) ->
  manifest !! "fsLayers" = Some (JArr (map JObj layers)) ->
  Header resp !! "Docker-Content-Digest" = Some (digest :: more) ->
  result_of (GetImageInfo P repoName tag) w = Done (digest, layers, None) /\
  issued (GetImageInfo P repoName tag) w
    = [Basic "GET" ("v2/" ++ repoName ++ "/manifests/" ++ tag) [] []] /\
  fs (world_after (GetImageInfo P repoName tag) w) = fs w.
Proof.
  intros Hr Hok Hopen Hjson Hlayers Hdigest.
  assert (Hparse : parseManifest P (Body resp) = Done (inr layers)).
  { unfold parseManifest, ParseResponseBodyToMap, map_index.
    rewrite Hopen, Hjson, Hlayers. apply parseManifest_layers_objects. }
  assert (Hrun : GetImageInfo P repoName tag w
                 = (Done (digest, layers, None),
                    {| fs := fs w; tmp_next := tmp_next w;
                       sent := sent w
                               ++ [Basic "GET" ("v2/" ++ repoName ++ "/manifests/" ++ tag) [] []];
                       replies := rest |})).
  { unfold GetImageInfo, bind, SendBasicGet, GenerateError, lift.
    rewrite (exchange_reply _ _ _ _ Hr), Hok, Hparse, Hdigest. reflexivity. }
  unfold result_of, world_after. rewrite Hrun. cbn [fst snd fs].
  split; [reflexivity|]. split; [|reflexivity].
  apply issued_suffix. unfold world_after. rewrite Hrun. reflexivity.
Qed.

End ImageInfo.

Lemma GetImageInfo_returns_digest_and_layers_witness :
  result_of (GetImageInfo Sample.platform "acme/app" "v1")
    (Sample.world ∅
       [Sample.response 200 "200 OK" {[ "Docker-Content-Digest" := ["sha256:cd"] ]}
          Sample.text_one_layer])
  = Done ("sha256:cd", [ {[ "blobSum" := JStr "sha256:ab" ]} ], None).
Proof.
  refine (proj1 (GetImageInfo_returns_digest_and_layers Sample.platform "acme/app" "v1"
                   (Sample.world ∅
                      [Sample.response 200 "200 OK" {[ "Docker-Content-Digest" := ["sha256:cd"] ]}
                         Sample.text_one_layer])
                   _ [] {[ "fsLayers" := JArr [JObj {[ "blobSum" := JStr "sha256:ab" ]}] ]}
                   [ {[ "blobSum" := JStr "sha256:ab" ]} ] "sha256:cd" []
                   eq_refl eq_refl eq_refl _ _ _));
    vm_compute; reflexivity.
Defined.

(** ** The queries of the engine client *)

Lemma one_exchange_bind {B} (r : Request) (k : error + Response -> M B) (w : World) :
  (forall x w', exists b, k x w' = (Done b, w')) ->
  one_exchange r (bind (exchange r) k) w.
Proof.
  intros Hk. unfold one_exchange, issued, world_after, result_of, bind.
  pose proof (exchange_sent r w) as Hsent. pose proof (exchange_fs r w) as Hfs.
  destruct (exchange_done r w) as [x Hx].
  destruct (exchange r w) as [res w1]. cbn [fst snd] in *. subst res.
  destruct (Hk x w1) as [b Hb]. rewrite Hb. cbn [fst snd].
  rewrite Hsent, drop_app_length. split; [reflexivity|]. split; [exact Hfs|].
  eexists. reflexivity.
Qed.

Section EngineQueries.

Variable P : Platform.

(** X15. [Ping], [GetImageInfo], [TagImage] and [DeleteImage] of the engine
    client each send exactly one request, whatever the engine answers and
    also when the transport fails, always return, and leave the file system
    as it was. The requests are the GET of [_ping], the GET of
    [/images/<name>/json], the POST to [images/<name>/tag] with the form
    fields [repo] and [tag], and the DELETE of [images/<repo>], followed by
    a colon and the tag when the tag is not empty. *)
Theorem Engine_queries_send_one_request imageName hostAndRepoName repoName tag w :
  one_exchange (Basic "GET" "_ping" [] []) (Engine.Ping P) w /\
  one_exchange (Basic "GET" ("/images/" ++ imageName ++ "/json") [] [])
    (Engine.GetImageInfo P imageName) w /\
  one_exchange (Basic "POST" ("images/" ++ imageName ++ "/tag") ["repo"; "tag"]
                  [hostAndRepoName; tag])
    (Engine.TagImage P imageName hostAndRepoName tag) w /\
  one_exchange (Basic "DELETE"
                  (if String.eqb tag EmptyString then "images/" ++ repoName
                   else ("images/" ++ repoName) ++ ":" ++ tag) [] [])
    (Engine.DeleteImage P repoName tag) w.
Proof.
  split; [|split; [|split]].
  - apply one_exchange_bind. intros [e|response] w'; [eexists; reflexivity|].
    unfold bind. destruct (GenerateError P _ _); eexists; reflexivity.
  - apply one_exchange_bind. intros [e|response] w'; [eexists; reflexivity|].
    unfold bind. destruct (GenerateError P _ _); [eexists; reflexivity|].
    destruct (ParseResponseBodyToMap P _); eexists; reflexivity.
  - apply one_exchange_bind. intros [e|response] w'; eexists; reflexivity.
  - unfold Engine.DeleteImage. destruct (String.eqb tag EmptyString);
      apply one_exchange_bind; intros [e|response] w'; eexists; reflexivity.
Qed.

End EngineQueries.

(** ** The loops over the layers *)

Section LayerLoop.

Variable P : Platform.
Variable registry : RestContext.

(** X16. The loop of [PushImage] over the names in the scratch directory
    does not treat the archive index as a layer: wherever the name
    [repositories] stands in the listing, the loop sends the same requests
    and returns the same digests, or the same error, as for the listing
    without it. *)
Theorem PushImage_layers_skips_index
  tempDirPath repoName (before after layerDigests : list string) w :
  PushImage_layers P registry tempDirPath repoName
    (before ++ "repositories" :: after)%list layerDigests w
  = PushImage_layers P registry tempDirPath repoName (before ++ after)%list layerDigests w.
Proof.
  revert layerDigests w. induction before as [|name names IH]; intros layerDigests w.
  - reflexivity.
  - cbn [app PushImage_layers]. destruct (String.eqb name "repositories"); [apply IH|].
    unfold bind. destruct (PushLayer P registry _ repoName w) as [[pushed|msg] w1];
      [|reflexivity].
    destruct (snd pushed); [reflexivity|apply IH].
Qed.

(** X17. The loop of [DeleteImage] over the layers deletes them one at a
    time and undoes nothing: when the first layers have a string for
    [blobSum] and their DELETE requests are answered with a success
    status, and the next layer has no [blobSum], the result is the error
    for the missing field, and the DELETE requests for the layers before
    it, in their order, have been sent. *)
Theorem DeleteImage_layers_stops_at_bad_layer
  repoName (good : list (gmap string json)) bad rest (digests : list string)
  (answers more : list (error + Response)) w :
  Forall2 (fun layerDesc digest => map_index layerDesc "blobSum" = JStr digest) good digests ->
  Forall2 (fun (_ : string) answer => accepted P answer) digests answers ->
  replies w = (answers ++ more)%list ->
  map_index bad "blobSum" = JNull ->
  result_of (DeleteImage_layers P repoName (good ++ bad :: rest)%list) w
    = Done (Some (ServerError "Did not find blobSum field in response for layer")) /\
  issued (DeleteImage_layers P repoName (good ++ bad :: rest)%list) w
    = map (blob_DELETE repoName) digests /\
  replies (world_after (DeleteImage_layers P repoName (good ++ bad :: rest)%list) w) = more.
Proof.
  intros Hgood Hanswers Hr Hbad.
  assert (Hrun : DeleteImage_layers P repoName (good ++ bad :: rest)%list w
                 = (Done (Some (ServerError "Did not find blobSum field in response for layer")),
                    {| fs := fs w; tmp_next := tmp_next w;
                       sent := sent w ++ map (blob_DELETE repoName) digests;
                       replies := more |})).
  { revert digests answers w Hgood Hanswers Hr.
    induction good as [|layerDesc good IH]; intros digests answers w Hgood Hanswers Hr.
    - inversion Hgood; subst. inversion Hanswers; subst.
      cbn [app DeleteImage_layers map]. rewrite Hbad. cbn [app] in Hr.
      rewrite app_nil_r. unfold ret. destruct w; cbn in *. rewrite Hr. reflexivity.
    - inversion Hgood as [|? digest ? digests' Hdigest Hgood']; subst.
      inversion Hanswers as [|? answer ? answers' Hanswer Hanswers']; subst.
      cbn [app DeleteImage_layers]. rewrite Hdigest.
      destruct answer as [e|response]; [destruct Hanswer|]. cbn [accepted] in Hanswer.
      unfold SendBasicDelete. erewrite bind_run; [|apply exchange_reply; exact Hr].
      cbn beta iota. unfold GenerateError. rewrite Hanswer.
      erewrite IH; [|exact Hgood'|exact Hanswers'|reflexivity].
      cbn [fs tmp_next sent replies map]. rewrite <- app_assoc. reflexivity. }
  unfold result_of, world_after. rewrite Hrun. cbn [fst snd replies].
  split; [reflexivity|]. split; [|reflexivity].
  apply issued_suffix. unfold world_after. rewrite Hrun. reflexivity.
Qed.

End LayerLoop.

Lemma DeleteImage_layers_stops_at_bad_layer_witness :
  issued (DeleteImage_layers Sample.platform "acme/app"
            [ {[ "blobSum" := JStr "sha256:ab" ]}; ∅; {[ "blobSum" := JStr "sha256:cd" ]} ])
    (Sample.world ∅ [Sample.response 202 "202 Accepted" ∅ EmptyString])
  = [Basic "DELETE" "v2/acme/app/blobs/sha256:ab" [] []].
Proof.
  refine (proj1 (proj2 (DeleteImage_layers_stops_at_bad_layer Sample.platform "acme/app"
                          [ {[ "blobSum" := JStr "sha256:ab" ]} ] ∅
                          [ {[ "blobSum" := JStr "sha256:cd" ]} ] ["sha256:ab"]
                          [Sample.response 202 "202 Accepted" ∅ EmptyString] []
                          (Sample.world ∅ [Sample.response 202 "202 Accepted" ∅ EmptyString])
                          _ _ eq_refl _))).
  - constructor; [vm_compute; reflexivity|constructor].
  - constructor; [vm_compute; reflexivity|constructor].
  - vm_compute. reflexivity.
Defined.

(** ** PushImage that succeeds *)

Lemma rev_onto_append (s acc : string) : rev_onto s acc = rev s ++ acc.
Proof.
  unfold rev. revert acc. induction s as [|a s IH]; intros acc; [reflexivity|].
  cbn [rev_onto]. rewrite (IH (String a acc)), (IH (String a EmptyString)).
  rewrite append_assoc. reflexivity.
Qed.

Lemma rev_cons a (s : string) : rev (String a s) = rev s ++ String a EmptyString.
Proof. unfold rev at 1. cbn [rev_onto]. apply rev_onto_append. Qed.

Lemma rev_append (s t : string) : rev (s ++ t) = rev t ++ rev s.
Proof.
  induction s as [|a s IH].
  - change (EmptyString ++ t) with t. symmetry. apply append_nil_r.
  - rewrite append_cons, !rev_cons, IH. apply append_assoc.
Qed.

Lemma rev_involutive (s : string) : rev (rev s) = s.
Proof.
  induction s as [|a s IH]; [reflexivity|].
  rewrite rev_cons, rev_append, IH. reflexivity.
Qed.

Lemma last_char_view (s : string) :
  s = EmptyString \/ exists s' a, s = s' ++ String a EmptyString.
Proof.
  rewrite <- (rev_involutive s). destruct (rev s) as [|a r]; [left; reflexivity|].
  right. exists (rev r), a. apply rev_cons.
Qed.

Lemma under_below t (n : string) : under t (t ++ "/" ++ n) = true.
Proof.
  unfold under. rewrite <- append_assoc, HasPrefix_append. apply orb_true_r.
Qed.

Lemma under_trim_slash t (n : string) : under t (trim_slash (t ++ "/" ++ n)) = true.
Proof.
  unfold trim_slash. destruct (HasSuffix _ _); [|apply under_below].
  destruct (last_char_view n) as [->|[n' [a ->]]].
  - change ("/" ++ EmptyString) with "/". rewrite rev_append.
    change (rev "/") with "/". rewrite append_cons.
    cbn [drop]. change (EmptyString ++ rev t) with (rev t). rewrite rev_involutive.
    unfold under. rewrite String.eqb_refl. reflexivity.
  - rewrite <- !append_assoc, rev_append.
    change (rev (String a EmptyString)) with (String a EmptyString). rewrite append_cons.
    cbn [drop].
    change (EmptyString ++ ?x) with x. rewrite rev_involutive.
    rewrite append_assoc. apply under_below.
Qed.

Lemma outside_refl t w : outside t w w.
Proof. intros p _. reflexivity. Qed.

Lemma outside_trans t w1 w2 w3 : outside t w1 w2 -> outside t w2 w3 -> outside t w1 w3.
Proof. intros H1 H2 p Hp. rewrite (H2 p Hp). apply H1, Hp. Qed.

Lemma outside_cleared t w1 w2 w3 : outside t w1 w2 -> cleared t w2 w3 -> cleared t w1 w3.
Proof.
  intros H1 H2 p. rewrite (H2 p). destruct (under t p) eqn:Hp; [reflexivity|]. apply H1, Hp.
Qed.

Lemma same_fs_outside {A} t (m : M A) : respects same_fs m -> respects (outside t) m.
Proof. intros H w p _. rewrite (H w). reflexivity. Qed.

Lemma outside_insert t q (x : Node) w :
  under t q = true -> outside t w (set_fs (<[q := x]> (fs w)) w).
Proof.
  intros Hq p Hp. cbn [set_fs fs]. apply lookup_insert_ne. intros ->. congruence.
Qed.

Lemma os_Mkdir_outside t name :
  under t (trim_slash name) = true -> respects (outside t) (os_Mkdir name).
Proof.
  intros Hq w. unfold os_Mkdir.
  destruct (fs w !! trim_slash name); [apply outside_refl|].
  destruct (fs w !! parent (trim_slash name)) as [[|c]|]; try apply outside_refl.
  apply outside_insert, Hq.
Qed.

Lemma os_OpenFile_create_outside t filename :
  under t filename = true -> respects (outside t) (os_OpenFile_create filename).
Proof.
  intros Hq w. unfold os_OpenFile_create.
  destruct (fs w !! filename) as [[|c]|]; try apply outside_refl.
  destruct (fs w !! parent filename) as [[|c]|]; try apply outside_refl.
  apply outside_insert, Hq.
Qed.

Lemma io_Copy_to_outside t filename data :
  under t filename = true -> respects (outside t) (io_Copy_to filename data).
Proof.
  intros Hq w. unfold io_Copy_to.
  destruct (fs w !! filename) as [[|c]|]; try apply outside_refl.
  apply outside_insert, Hq.
Qed.

Lemma Readdirnames_outside t dir : respects (outside t) (Readdirnames dir).
Proof.
  intros w. unfold Readdirnames. destruct (fs w !! dir) as [[|c]|]; apply outside_refl.
Qed.

Ltac outside_step :=
  first [ apply os_Mkdir_outside, under_trim_slash
        | apply os_OpenFile_create_outside, under_below
        | apply io_Copy_to_outside, under_below
        | apply Readdirnames_outside
        | respects_step outside_refl outside_trans ].

Lemma PushImage_expand_outside t entries failure :
  respects (outside t) (PushImage_expand t entries failure).
Proof.
  induction entries as [|header rest IH].
  - cbn [PushImage_expand]. repeat outside_step.
  - cbn [PushImage_expand]. destruct (HasSuffix (entry_name header) "/").
    + apply respects_bind;
        [apply outside_trans|apply os_Mkdir_outside, under_trim_slash|intros failed].
      destruct failed; [outside_step|apply IH].
    + destruct (String.eqb (entry_name header) "repositories"
                || HasSuffix (entry_name header) "/layer.tar"); [|apply IH].
      apply respects_bind;
        [apply outside_trans|apply os_OpenFile_create_outside, under_below|intros failed].
      destruct failed; [outside_step|].
      apply respects_bind;
        [apply outside_trans|apply io_Copy_to_outside, under_below|intros [e|n]].
      * outside_step.
      * destruct (n =? 0); [outside_step|apply IH].
Qed.

Lemma os_RemoveAll_cleared t w : cleared t w (snd (os_RemoveAll t w)).
Proof.
  intros p. unfold os_RemoveAll. cbn [snd set_fs fs].
  destruct (under t p) eqn:Hp.
  - apply map_lookup_filter_None. right. intros x _ H. cbn [fst] in H. congruence.
  - destruct (fs w !! p) as [x|] eqn:Hx.
    + apply map_lookup_filter_Some. split; [exact Hx|exact Hp].
    + apply map_lookup_filter_None. left. exact Hx.
Qed.

Section Success.

Variables R S : World -> World -> Prop.
Hypothesis R_then_S : forall w1 w2 w3, R w1 w2 -> S w2 w3 -> S w1 w3.

Lemma on_success_error e : respects_on_success S (ret (Some e)).
Proof. intros w H. discriminate H. Qed.

Lemma on_success_bind {A} (m : M A) (k : A -> M (option error)) :
  respects R m -> (forall a, respects_on_success S (k a)) -> respects_on_success S (bind m k).
Proof.
  intros Hm Hk w. unfold respects_on_success, result_of, world_after, bind in *.
  specialize (Hm w). destruct (m w) as [[a|msg] w']; cbn [fst snd] in *.
  - intros Hok. eapply R_then_S; [exact Hm|]. apply Hk. exact Hok.
  - intros Hok. discriminate Hok.
Qed.

End Success.

Section Cleanup.

Variable P : Platform.
Variable registry : RestContext.

(** X18. A [PushImage] that returns nil leaves nothing of its scratch
    directory: no path at the directory or below it is in the file system
    afterwards, and every other path holds what it held before. Paths are
    compared as written, so the statement is for an archive none of whose
    entry names has [..] in it. *)
Theorem PushImage_success_clears_scratch repoName tag imageFilePath w tarFile :
  fs w !! imageFilePath = Some (File tarFile) ->
  Forall (fun header => Contains (entry_name header) ".." = false)
    (tar_entries (tar_NewReader P tarFile)) ->
  result_of (PushImage P registry repoName tag imageFilePath) w = Done None ->
  forall p,
    fs (world_after (PushImage P registry repoName tag imageFilePath) w) !! p
    = if under (next_scratch w) p then None else fs w !! p.
Proof.
  intros _ _ Hok.
  change (cleared (next_scratch w) w
            (world_after (PushImage P registry repoName tag imageFilePath) w)).
  revert Hok. unfold result_of, world_after, PushImage.
  set (t := next_scratch w).
  destruct (fs w !! t) eqn:Hfresh.
  { unfold bind at 1. unfold MakeTempDir at 1. fold (next_scratch w). fold t.
    rewrite Hfresh. intros H. discriminate H. }
  set (w1 := {| fs := <[t := Dir]> (fs w); tmp_next := Datatypes.S (tmp_next w);
                sent := sent w; replies := replies w |}).
  assert (Hmk : MakeTempDir w = (Done (inr t), w1)).
  { unfold MakeTempDir. fold (next_scratch w). fold t. rewrite Hfresh. reflexivity. }
  assert (Hfirst : outside t w w1).
  { intros p Hp. cbn [w1 fs]. apply lookup_insert_ne. intros <-.
    unfold under in Hp. rewrite String.eqb_refl in Hp. discriminate Hp. }
  rewrite (bind_run _ _ _ _ _ Hmk). cbn beta iota.
  match goal with |- fst (?m w1) = _ -> _ =>
    assert (Hrest : respects_on_success (cleared t) m)
  end.
  { repeat first
      [ apply on_success_error
      | match goal with
        | |- respects_on_success _ (bind (os_RemoveAll _) _) =>
            intros w2 _; apply os_RemoveAll_cleared
        | |- respects_on_success _ (bind _ _) =>
            apply (on_success_bind (outside t)); [apply outside_cleared| |intros ?]
        | |- respects_on_success _ (match ?x with _ => _ end) => destruct x
        | |- respects _ (read_file _) => apply respects_read_file, outside_refl
        | |- respects _ (PushImage_expand _ _ _) => apply PushImage_expand_outside
        | |- respects _ (Readdirnames _) => apply Readdirnames_outside
        | |- respects _ (PushImage_layers _ _ _ _ _ _) =>
            apply same_fs_outside, PushImage_layers_same_fs
        | |- respects _ (PushManifest _ _ _ _ _ _) =>
            apply same_fs_outside, PushManifest_same_fs
        end ]. }
  intros Hok. eapply outside_cleared; [exact Hfirst|]. exact (Hrest w1 Hok).
Qed.

End Cleanup.

Lemma PushImage_success_clears_scratch_witness :
  fs (world_after (PushImage Sample.platform Sample.registry "acme/app" "v1" "/in.tar")
        (Sample.world {[ "/in.tar" := File "archive-with-one-layer" ]}
           [ Sample.response 200 "200 OK" ∅ EmptyString;
             Sample.response 201 "201 Created" ∅ EmptyString ]))
    !! "/tmp/scratch0/l1/layer.tar" = None.
Proof.
  refine (PushImage_success_clears_scratch Sample.platform Sample.registry
            "acme/app" "v1" "/in.tar"
            (Sample.world {[ "/in.tar" := File "archive-with-one-layer" ]}
               [ Sample.response 200 "200 OK" ∅ EmptyString;
                 Sample.response 201 "201 Created" ∅ EmptyString ])
            "archive-with-one-layer" _ _ _ "/tmp/scratch0/l1/layer.tar").
  - vm_compute. reflexivity.
  - repeat constructor.
  - vm_compute. reflexivity.
Defined.

(** ** The archive index *)

Section ArchiveIndex.

Variable P : Platform.

(** X19. For an archive index that decodes to one repository with one tag,
    the parsing in [PushImage] gives the value of that tag as the image
    digest when it is a string, and the error [Digest is not a string] when
    it is anything else. *)
Theorem PushImage_index_reads_single_tag bytes repo tagName (tagDigestObj : json) :
  json_Unmarshal P bytes = inr (JObj {[ repo := JObj {[ tagName := tagDigestObj ]} ]}) ->
  PushImage_index P bytes
  = match tagDigestObj with
    | JStr tagDigest => inr tagDigest
    | _ => inl (ServerError "Digest is not a string")
    end.
Proof.
  intros Hjson. unfold PushImage_index. rewrite Hjson.
  rewrite map_size_singleton. cbn [Nat.eqb Nat.ltb Nat.leb].
  rewrite map_to_list_singleton. cbn [PushImage_repos].
  rewrite map_size_singleton. cbn [Nat.eqb Nat.ltb Nat.leb].
  rewrite map_to_list_singleton. cbn [PushImage_tags].
  destruct tagDigestObj; reflexivity.
Qed.

End ArchiveIndex.

Lemma PushImage_index_reads_single_tag_witness :
  PushImage_index Sample.platform Sample.text_index = inr "img1".
Proof.
  apply (PushImage_index_reads_single_tag Sample.platform Sample.text_index
           "acme/app" "v1" (JStr "img1")).
  vm_compute. reflexivity.
Defined.

(** ** The JSON form of a build output *)

Section AsJSONFacts.

Variable EncodeStringForJSON : string -> string.

Lemma Output_AsJSON_steps_later i steps s :
  Output_AsJSON_steps EncodeStringForJSON (Datatypes.S i) steps s
  = s ++ fold_right (fun d acc => ", " ++ d ++ acc) EmptyString
           (map (Step_AsJSON EncodeStringForJSON) steps).
Proof.
  revert i s. induction steps as [|step steps IH]; intros i s.
  - cbn [Output_AsJSON_steps map fold_right]. rewrite append_nil_r. reflexivity.
  - cbn [Output_AsJSON_steps map fold_right Nat.ltb Nat.leb]. rewrite IH.
    rewrite !append_assoc. reflexivity.
Qed.

(** X20. The JSON form of a build output is an object with the error
    message, the final image id and the array [Steps], which holds the JSON
    forms of the steps in their order, separated by a comma and a space,
    for any number of steps. The message and the final image id are put
    between quotes as they are. *)
Theorem Output_AsJSON_joins_steps (buildOutput : DockerBuildOutput) :
  Output_AsJSON EncodeStringForJSON buildOutput
  = "{" ++ dq ++ "ErrorMessage" ++ dq ++ ": " ++ dq ++ ErrorMessage buildOutput ++ dq ++ ", "
        ++ dq ++ "FinalDockerImageId" ++ dq ++ ": " ++ dq ++ FinalDockerImageId buildOutput
        ++ dq ++ ", " ++ dq ++ "Steps" ++ dq ++ ": ["
        ++ String.concat ", " (map (Step_AsJSON EncodeStringForJSON) (Steps buildOutput))
        ++ "]}".
Proof.
  unfold Output_AsJSON. destruct (Steps buildOutput) as [|step steps].
  - cbn [Output_AsJSON_steps map String.concat]. rewrite !append_assoc. reflexivity.
  - cbn [Output_AsJSON_steps map Nat.ltb Nat.leb]. rewrite Output_AsJSON_steps_later.
    rewrite concat_cons.
    rewrite !append_assoc. reflexivity.
Qed.

End AsJSONFacts.

(** ** Tokens *)

Lemma take_drop (n : nat) (s : string) : take n s ++ drop n s = s.
Proof.
  revert s. induction n as [|n IH]; intros s; [reflexivity|].
  destruct s as [|a s]; [reflexivity|]. cbn [take drop]. rewrite append_cons, IH. reflexivity.
Qed.

Lemma TrimLeft_head line a rest :
  TrimLeft line blanks = String a rest -> contains_char a blanks = false.
Proof.
  induction line as [|c line IH]; [discriminate|]. cbn [TrimLeft].
  destruct (contains_char c blanks) eqn:Hc; [exact IH|].
  intros H. injection H as <- _. exact Hc.
Qed.

Lemma no_blank_append (s t : string) :
  existsb is_blank (chars (s ++ t))
  = existsb is_blank (chars s) || existsb is_blank (chars t).
Proof.
  unfold chars. induction s as [|a s IH]; [reflexivity|].
  rewrite append_cons. cbn [list_ascii_of_string existsb]. rewrite IH, orb_assoc. reflexivity.
Qed.

Lemma getToken_scan_no_blank (rest pre : string) :
  existsb is_blank (chars pre) = false ->
  existsb is_blank (chars (take (getToken_scan rest (String.length pre)) (pre ++ rest))) = false.
Proof.
  revert pre. induction rest as [|a rest IH]; intros pre Hpre.
  - cbn [getToken_scan]. rewrite take_length_append. exact Hpre.
  - cbn [getToken_scan].
    destruct (ContainsAny (String a EmptyString) blanks) eqn:Hblank; cbv iota;
      [rewrite take_length_append; exact Hpre|].
    destruct (isAlphaChar (DecodeRune a) || isNumeric (DecodeRune a)); cbn [negb]; cbv iota;
      [|rewrite take_length_append; exact Hpre].
    replace (Datatypes.S (String.length pre))
      with (String.length (pre ++ String a EmptyString))
      by (rewrite length_append; cbn [String.length]; lia).
    replace (pre ++ String a rest) with ((pre ++ String a EmptyString) ++ rest)
      by (rewrite append_assoc; reflexivity).
    apply IH. rewrite no_blank_append, Hpre.
    unfold ContainsAny, chars in Hblank. cbn [list_ascii_of_string existsb] in Hblank.
    unfold chars, is_blank. cbn [list_ascii_of_string existsb].
    rewrite orb_false_r in Hblank. rewrite Hblank. reflexivity.
Qed.

Lemma getToken_scan_from pos rest : (pos <= getToken_scan rest pos)%nat.
Proof.
  revert pos. induction rest as [|a rest IH]; intros pos; cbn [getToken_scan]; [lia|].
  destruct (ContainsAny _ _); [lia|]. destruct (negb _); [lia|].
  specialize (IH (Datatypes.S pos)). lia.
Qed.

Lemma getToken_no_blank line : existsb is_blank (chars (fst (getToken line))) = false.
Proof.
  unfold getToken. destruct (TrimLeft line blanks) as [|a rest] eqn:Htrim; [reflexivity|].
  pose proof (TrimLeft_head _ _ _ Htrim) as Ha.
  destruct (negb (isAlphaChar (DecodeRune a))); cbn [fst].
  - cbn [take]. unfold chars, is_blank. cbn [list_ascii_of_string existsb].
    rewrite Ha. reflexivity.
  - apply (getToken_scan_no_blank rest (String a EmptyString)).
    unfold chars, is_blank. cbn [list_ascii_of_string existsb]. rewrite Ha. reflexivity.
Qed.

Lemma getToken_empty line :
  fst (getToken line) = EmptyString <-> TrimLeft line blanks = EmptyString.
Proof.
  unfold getToken. destruct (TrimLeft line blanks) as [|a rest]; [split; reflexivity|].
  split; [|discriminate].
  destruct (negb (isAlphaChar (DecodeRune a))); cbn [fst]; [discriminate|].
  pose proof (getToken_scan_from 1 rest) as Hpos.
  destruct (getToken_scan rest 1) as [|n]; [lia|]. discriminate.
Qed.

(** X21. [getToken] cuts the line, once the blanks at its start are
    removed, in two: the token followed by the rest of the line give that
    line back. The token is empty only when nothing but blanks was there,
    and it never has a blank in it. *)
Theorem getToken_splits_trimmed_line (line : string) :
  fst (getToken line) ++ snd (getToken line) = TrimLeft line blanks /\
  (fst (getToken line) = EmptyString <-> TrimLeft line blanks = EmptyString) /\
  existsb is_blank (chars (fst (getToken line))) = false.
Proof.
  split; [|split; [apply getToken_empty|apply getToken_no_blank]].
  unfold getToken. destruct (TrimLeft line blanks) as [|a rest]; [reflexivity|].
  destruct (negb (isAlphaChar (DecodeRune a))); cbn [fst snd]; apply take_drop.
Qed.

Lemma ParseDockerfile_lines_names lines acc params :
  Forall (fun desc => Name desc <> EmptyString
                      /\ existsb is_blank (chars (Name desc)) = false) acc ->
  ParseDockerfile_lines lines acc = inr params ->
  Forall (fun desc => Name desc <> EmptyString
                      /\ existsb is_blank (chars (Name desc)) = false) params.
Proof.
  revert acc. induction lines as [|line lines IH]; intros acc Hacc.
  - cbn [ParseDockerfile_lines]. intros H. injection H as <-. exact Hacc.
  - cbn [ParseDockerfile_lines].
    destruct (String.length line =? 0)%nat; [apply IH, Hacc|].
    destruct (ContainsAny (take 1 line) blanks); [apply IH, Hacc|].
    destruct (HasPrefix line "#"); [apply IH, Hacc|].
    destruct (getToken line) as [instructionName restOfLine].
    destruct (String.eqb instructionName EmptyString); [apply IH, Hacc|].
    destruct (String.eqb (ToUpper instructionName) "ARG"); [|apply IH, Hacc].
    pose proof (getToken_no_blank restOfLine) as Hblank.
    destruct (getToken restOfLine) as [argName restOfLine'].
    destruct (String.eqb_spec argName EmptyString) as [|Hname]; [discriminate|].
    destruct (getToken restOfLine') as [equalSign restOfLine''].
    apply IH. apply Forall_app. split; [exact Hacc|].
    constructor; [|constructor]. split; [exact Hname|exact Hblank].
Qed.

(** X22. Every parameter [ParseDockerfile] returns has a name: the name is
    not empty and has no blank in it. *)
Theorem ParseDockerfile_names_are_tokens dockerfileContent params :
  ParseDockerfile dockerfileContent = inr params ->
  Forall (fun desc => Name desc <> EmptyString
                      /\ existsb is_blank (chars (Name desc)) = false) params.
Proof.
  intros H. eapply ParseDockerfile_lines_names; [|exact H]. constructor.
Qed.

Lemma ParseDockerfile_names_are_tokens_witness :
  Forall (fun desc => Name desc <> EmptyString
                      /\ existsb is_blank (chars (Name desc)) = false)
    [ {| Name := "user"; StringValue := "web" |}; {| Name := "home"; StringValue := EmptyString |} ].
Proof.
  apply (ParseDockerfile_names_are_tokens ServiceSample.dockerfile).
  vm_compute. reflexivity.
Defined.

(** ** A step line without its separator *)

Section StepLine.

Variable Sscanf_d : string -> option Z.

(** X23. The error [Internal error: should not happen] does happen: when
    the first line of a build log begins with [Step ] but has no [ : ] after
    that, no step is made, and any line that follows, even an empty one,
    ends the parsing with this error, with no step in the output. *)
Theorem ParseBuildCommandOutput_step_without_separator (x rest : string) :
  one_line x = true ->
  Index x " : " = -1 ->
  ParseBuildCommandOutput Sscanf_d ("Step " ++ x ++ nl ++ rest)
  = ({| ErrorMessage := "Internal error: should not happen";
        FinalDockerImageId := EmptyString; Steps := [] |},
     Some (ServerError "Internal error: should not happen")).
Proof.
  intros Hone Hsep. unfold ParseBuildCommandOutput.
  replace ("Step " ++ x ++ nl ++ rest) with (("Step " ++ x) ++ String (ascii_of_nat 10) rest)
    by (rewrite append_assoc; reflexivity).
  rewrite split_on_app, (split_on_one_line _ ("Step " ++ x)).
  - pose proof (split_on_nonempty (ascii_of_nat 10) rest) as Hne.
    destruct (split_on (ascii_of_nat 10) rest) as [|line lines]; [contradiction|].
    cbn [app ParseBuildCommandOutput_loop Z.eqb Pos.eqb].
    rewrite TrimPrefix_append, Hsep.
    replace (String.length x <? String.length ("Step " ++ x))%nat with true
      by (symmetry; apply Nat.ltb_lt; rewrite length_append; cbn [String.length]; lia).
    reflexivity.
  - rewrite contains_char_append. unfold one_line in Hone.
    apply negb_true_iff in Hone. rewrite Hone. reflexivity.
Qed.

End StepLine.

Lemma ParseBuildCommandOutput_step_without_separator_witness :
  snd (ParseBuildCommandOutput ServiceSample.Sscanf_d ("Step 1" ++ nl ++ "Successfully built ab"))
  = Some (ServerError "Internal error: should not happen").
Proof.
  refine (f_equal snd (ParseBuildCommandOutput_step_without_separator ServiceSample.Sscanf_d
                         "1" "Successfully built ab" _ _));
    vm_compute; reflexivity.
Defined.

(** ** Entries of the archive without data, and layer files that cannot be read *)

Section EdgeCases.

Variable P : Platform.
Variable registry : RestContext.

(** X24. An entry of the archive for the index or for a layer that has no
    data stops the expansion: when its file can be made in the scratch
    directory, the file is made, empty, and the result is the error
    [No data written to] followed by the path, whatever entries follow. *)
Theorem PushImage_expand_refuses_empty_entry tempDirPath header rest failure w :
  HasSuffix (entry_name header) "/" = false ->
  String.eqb (entry_name header) "repositories"
    || HasSuffix (entry_name header) "/layer.tar" = true ->
  entry_data header = EmptyString ->
  let filename := tempDirPath ++ "/" ++ entry_name header in
  fs w !! filename = None ->
  fs w !! parent filename = Some Dir ->
  result_of (PushImage_expand tempDirPath (header :: rest) failure) w
    = Done (Some (ServerError ("No data written to " ++ filename))) /\
  fs (world_after (PushImage_expand tempDirPath (header :: rest) failure) w)
    = <[filename := File EmptyString]> (fs w).
Proof.
  intros Hdir Hkind Hdata filename Hnew Hparent.
  assert (Hrun : PushImage_expand tempDirPath (header :: rest) failure w
                 = (Done (Some (ServerError ("No data written to " ++ filename))),
                    set_fs (<[filename := File EmptyString]> (fs w)) w)).
  { cbn [PushImage_expand]. rewrite Hdir, Hkind, Hdata. fold filename.
    unfold bind, os_OpenFile_create, io_Copy_to. rewrite Hnew, Hparent.
    cbn [set_fs fs]. rewrite lookup_insert_eq. cbn [String.length drop Z.of_nat Z.eqb].
    unfold set_fs. cbn [fs tmp_next sent replies]. rewrite insert_insert_eq. reflexivity. }
  unfold result_of, world_after. rewrite Hrun. split; reflexivity.
Qed.

(** X25. [PushLayer] reads the layer file before it sends anything: when
    no file is at the path, or a directory is, it returns the empty string
    for the digest with the error of the reading, and no request has been
    sent. *)
Theorem PushLayer_reads_before_sending layerFilePath repoName w :
  fs w !! layerFilePath = None \/ fs w !! layerFilePath = Some Dir ->
  (exists err, result_of (PushLayer P registry layerFilePath repoName) w
               = Done (EmptyString, Some err)) /\
  issued (PushLayer P registry layerFilePath repoName) w = [] /\
  world_after (PushLayer P registry layerFilePath repoName) w = w.
Proof.
  intros Hfile.
  assert (Hrun : exists err, PushLayer P registry layerFilePath repoName w
                             = (Done (EmptyString, Some err), w)).
  { unfold PushLayer, ComputeFileDigest, bind, read_file.
    destruct Hfile as [-> | ->]; eexists; reflexivity. }
  destruct Hrun as [err Hrun]. unfold result_of, world_after. rewrite Hrun. cbn [fst snd].
  split; [exists err; reflexivity|]. split; [|reflexivity].
  apply issued_suffix. unfold world_after. rewrite Hrun. cbn [snd].
  rewrite app_nil_r. reflexivity.
Qed.

End EdgeCases.

Lemma PushImage_expand_refuses_empty_entry_witness :
  result_of (PushImage_expand "/tmp/scratch0"
               [ {| entry_name := "repositories"; entry_data := EmptyString |} ] None)
    (Sample.world {[ "/tmp/scratch0" := Dir ]} [])
  = Done (Some (ServerError "No data written to /tmp/scratch0/repositories")).
Proof.
  refine (proj1 (PushImage_expand_refuses_empty_entry "/tmp/scratch0"
                   {| entry_name := "repositories"; entry_data := EmptyString |} [] None
                   (Sample.world {[ "/tmp/scratch0" := Dir ]} []) _ _ _ _ _));
    vm_compute; reflexivity.
Defined.

Lemma PushLayer_reads_before_sending_witness :
  issued (PushLayer Sample.platform Sample.registry "/l1/layer.tar" "acme/app")
    (Sample.world ∅ [Sample.response 200 "200 OK" ∅ EmptyString])
  = [].
Proof.
  refine (proj1 (proj2 (PushLayer_reads_before_sending Sample.platform Sample.registry
                          "/l1/layer.tar" "acme/app"
                          (Sample.world ∅ [Sample.response 200 "200 OK" ∅ EmptyString]) _))).
  left. vm_compute. reflexivity.
Defined.
